(** * Binary-spectrum delay estimator (WebRTC audio processing utility)

    A shallow embedding of [delay_estimator.c] and the properties of its
    bit-count kernel, history buffers, smoothing filter and decision logic.

    C integers are mathematical integers ([Z]) on which every arithmetic
    operation of the source is followed by the wrap-around of its type;
    arrays are lists read and written by index. *)

From Stdlib Require Import ZArith Lia Bool List.
From stdpp Require Import base tactics list numbers.

Local Open Scope Z_scope.

(** ** Fixed-width integers *)

Module Int.

(** [uint32_t]: arithmetic modulo 2^32. *)
Definition wrap_u32 (x : Z) : Z := x mod 2 ^ 32.

(** [int32_t] and [int] (32 bits, two's complement). *)
Definition wrap_s32 (x : Z) : Z := (x + 2 ^ 31) mod 2 ^ 32 - 2 ^ 31.

Definition is_u32 (x : Z) : Prop := 0 <= x < 2 ^ 32.
Definition is_s32 (x : Z) : Prop := - 2 ^ 31 <= x < 2 ^ 31.

Definition u32_add (a b : Z) : Z := wrap_u32 (a + b).
Definition u32_sub (a b : Z) : Z := wrap_u32 (a - b).

Definition s32_add (a b : Z) : Z := wrap_s32 (a + b).
Definition s32_sub (a b : Z) : Z := wrap_s32 (a - b).
Definition s32_mul (a b : Z) : Z := wrap_s32 (a * b).
Definition s32_neg (a : Z) : Z := wrap_s32 (- a).
Definition s32_shl (a n : Z) : Z := wrap_s32 (Z.shiftl a n).
(** [>>] on a signed operand: arithmetic shift. *)
Definition s32_shr (a n : Z) : Z := Z.shiftr a n.

(** A C constant written in octal, most significant digit first. *)
Definition octal (digits : list Z) : Z :=
  fold_left (fun acc d => 8 * acc + d) digits 0.

End Int.

Import Int.

(** ** The bit-count kernel *)

Definition mask_033333333333 : Z :=
  Eval cbv in octal [3; 3; 3; 3; 3; 3; 3; 3; 3; 3; 3].
Definition mask_011111111111 : Z :=
  Eval cbv in octal [1; 1; 1; 1; 1; 1; 1; 1; 1; 1; 1].
Definition mask_030707070707 : Z :=
  Eval cbv in octal [3; 0; 7; 0; 7; 0; 7; 0; 7; 0; 7].
Definition mask_077 : Z :=
  Eval cbv in octal [7; 7].

(** [static int BitCount(uint32_t u32)] *)
Definition BitCount (u32 : Z) : Z :=
  let tmp := u32_sub (u32_sub u32 (Z.land (Z.shiftr u32 1) mask_033333333333))
                     (Z.land (Z.shiftr u32 2) mask_011111111111) in
  let tmp := Z.land (u32_add tmp (Z.shiftr tmp 3)) mask_030707070707 in
  let tmp := u32_add tmp (Z.shiftr tmp 6) in
  let tmp := Z.land (u32_add (u32_add tmp (Z.shiftr tmp 12)) (Z.shiftr tmp 24))
                    mask_077 in
  tmp.

(** The population count of the [n] low bits of [u]: count the lowest bit,
    halve, repeat.  This is the specification [BitCount] is compared with. *)
Fixpoint popcount_bits (n : nat) (u : Z) : Z :=
  match n with
  | O => 0
  | S n' => u mod 2 + popcount_bits n' (u / 2)
  end.

Definition popcount32 (u : Z) : Z := popcount_bits 32 u.

(** ** Arrays and loops *)

(** [a[i]] for a C array held as a list.  The source never reads outside an
    array it allocated; the model returns 0 there. *)
Definition read (a : list Z) (i : nat) : Z := nth i a 0.

(** [for (i = 0; i < bound; i++) body] *)
Definition for_loop {S : Type} (bound : Z) (body : nat -> S -> S) (s : S) : S :=
  fold_left (fun s i => body i s) (seq 0 (Z.to_nat bound)) s.

(** The body of a loop that stores at index [i] a value computed from [i]
    and the element it replaces: [a[i] = g(i, a[i])]. *)
Definition stores_at (g : nat -> Z -> Z) (i : nat) (a : list Z) : list Z :=
  <[i := g i (read a i)]> a.

(** [memmove(&a[dst], &a[src], count * sizeof(a[0]))] *)
Definition memmove (a : list Z) (dst src count : nat) : list Z :=
  take dst a ++ take count (drop src a) ++ drop (dst + count) a.

(** [memset(a, 0, count * sizeof(a[0]))] *)
Definition memset0 (a : list Z) (count : nat) : list Z :=
  replicate (Nat.min count (length a)) 0 ++ drop count a.

(** [static void BitCountComparison(uint32_t binary_vector,
    const uint32_t* binary_matrix, int matrix_size, int32_t* bit_counts)] *)
Definition BitCountComparison (binary_vector : Z) (binary_matrix : list Z)
    (matrix_size : Z) (bit_counts : list Z) : list Z :=
  for_loop matrix_size
    (fun n bit_counts =>
       <[n := BitCount (Z.lxor binary_vector (read binary_matrix n))]> bit_counts)
    bit_counts.

(** ** The estimator state *)

Definition kShiftsAtZero : Z := 13.
Definition kShiftsLinearSlope : Z := 3.
Definition kProbabilityOffset : Z := 1024.
Definition kProbabilityLowerLimit : Z := 8704.
Definition kProbabilityMinSpread : Z := 2816.

(** [BinaryDelayEstimator]: the struct is declared in [delay_estimator.h];
    its members are the ones [delay_estimator.c] reads and writes. *)
Record BinaryDelayEstimator : Type := mkEstimator {
  mean_bit_counts : list Z;
  far_bit_counts : list Z;
  bit_counts : list Z;
  binary_far_history : list Z;
  binary_near_history : list Z;
  minimum_probability : Z;
  last_delay_probability : Z;
  last_delay : Z;
  history_size : Z;
  near_history_size : Z
}.

Definition set_mean_bit_counts (h : BinaryDelayEstimator) (v : list Z) :=
  mkEstimator v (far_bit_counts h) (bit_counts h) (binary_far_history h)
    (binary_near_history h) (minimum_probability h) (last_delay_probability h)
    (last_delay h) (history_size h) (near_history_size h).
Definition set_far_bit_counts (h : BinaryDelayEstimator) (v : list Z) :=
  mkEstimator (mean_bit_counts h) v (bit_counts h) (binary_far_history h)
    (binary_near_history h) (minimum_probability h) (last_delay_probability h)
    (last_delay h) (history_size h) (near_history_size h).
Definition set_bit_counts (h : BinaryDelayEstimator) (v : list Z) :=
  mkEstimator (mean_bit_counts h) (far_bit_counts h) v (binary_far_history h)
    (binary_near_history h) (minimum_probability h) (last_delay_probability h)
    (last_delay h) (history_size h) (near_history_size h).
Definition set_binary_far_history (h : BinaryDelayEstimator) (v : list Z) :=
  mkEstimator (mean_bit_counts h) (far_bit_counts h) (bit_counts h) v
    (binary_near_history h) (minimum_probability h) (last_delay_probability h)
    (last_delay h) (history_size h) (near_history_size h).
Definition set_binary_near_history (h : BinaryDelayEstimator) (v : list Z) :=
  mkEstimator (mean_bit_counts h) (far_bit_counts h) (bit_counts h)
    (binary_far_history h) v (minimum_probability h) (last_delay_probability h)
    (last_delay h) (history_size h) (near_history_size h).
Definition set_minimum_probability (h : BinaryDelayEstimator) (v : Z) :=
  mkEstimator (mean_bit_counts h) (far_bit_counts h) (bit_counts h)
    (binary_far_history h) (binary_near_history h) v (last_delay_probability h)
    (last_delay h) (history_size h) (near_history_size h).
Definition set_last_delay_probability (h : BinaryDelayEstimator) (v : Z) :=
  mkEstimator (mean_bit_counts h) (far_bit_counts h) (bit_counts h)
    (binary_far_history h) (binary_near_history h) (minimum_probability h) v
    (last_delay h) (history_size h) (near_history_size h).
Definition set_last_delay (h : BinaryDelayEstimator) (v : Z) :=
  mkEstimator (mean_bit_counts h) (far_bit_counts h) (bit_counts h)
    (binary_far_history h) (binary_near_history h) (minimum_probability h)
    (last_delay_probability h) v (history_size h) (near_history_size h).

(** ** Construction and initialisation *)

(** [BinaryDelayEstimator* WebRtc_CreateBinaryDelayEstimator(int max_delay,
    int lookahead)].  [malloc_ok k] tells whether the [k]-th allocation of the
    call succeeds (0 is the struct, 1 to 5 the buffers in source order);
    [None] is the [NULL] result.  Memory returned by [malloc] is
    indeterminate: the model fills it with 0, and
    [WebRtc_InitBinaryDelayEstimator] overwrites all of it. *)
Definition WebRtc_CreateBinaryDelayEstimator (malloc_ok : nat -> bool)
    (max_delay lookahead : Z) : option BinaryDelayEstimator :=
  let history_size := s32_add max_delay lookahead in
  if (0 <=? max_delay) && (0 <=? lookahead) && (1 <? history_size)
     && malloc_ok 0%nat
  then
    let near_history_size := s32_add lookahead 1 in
    let malloc_fail := false in
    let malloc_fail := malloc_fail || negb (malloc_ok 1%nat) in
    let malloc_fail := malloc_fail || negb (malloc_ok 2%nat) in
    let malloc_fail := malloc_fail || negb (malloc_ok 3%nat) in
    let malloc_fail := malloc_fail || negb (malloc_ok 4%nat) in
    let malloc_fail := malloc_fail || negb (malloc_ok 5%nat) in
    if malloc_fail then None
    else Some {|
      mean_bit_counts := replicate (Z.to_nat history_size) 0;
      far_bit_counts := replicate (Z.to_nat history_size) 0;
      bit_counts := replicate (Z.to_nat history_size) 0;
      binary_far_history := replicate (Z.to_nat history_size) 0;
      binary_near_history := replicate (Z.to_nat (s32_add lookahead 1)) 0;
      minimum_probability := 0;
      last_delay_probability := 0;
      last_delay := 0;
      history_size := history_size;
      near_history_size := near_history_size
    |}
  else None.

(** [void WebRtc_InitBinaryDelayEstimator(BinaryDelayEstimator* handle)] *)
Definition WebRtc_InitBinaryDelayEstimator (handle : BinaryDelayEstimator)
    : BinaryDelayEstimator :=
  let handle := set_bit_counts handle
    (memset0 (bit_counts handle) (Z.to_nat (history_size handle))) in
  let handle := set_binary_far_history handle
    (memset0 (binary_far_history handle) (Z.to_nat (history_size handle))) in
  let handle := set_binary_near_history handle
    (memset0 (binary_near_history handle) (Z.to_nat (near_history_size handle))) in
  let handle := set_far_bit_counts handle
    (memset0 (far_bit_counts handle) (Z.to_nat (history_size handle))) in
  let handle := set_mean_bit_counts handle
    (for_loop (history_size handle)
       (fun i mean => <[i := s32_shl 20 9]> mean) (mean_bit_counts handle)) in
  let handle := set_minimum_probability handle (s32_shl 32 9) in
  let handle := set_last_delay_probability handle (s32_shl 32 9) in
  set_last_delay handle (-2).

(** ** The per-frame update *)

(** [void WebRtc_MeanEstimatorFix(int32_t new_value, int factor,
    int32_t* mean_value)]: the value stored through [mean_value]. *)
Definition WebRtc_MeanEstimatorFix (new_value factor mean_value : Z) : Z :=
  let diff := s32_sub new_value mean_value in
  let diff :=
    if diff <? 0 then s32_neg (s32_shr (s32_neg diff) factor)
    else s32_shr diff factor in
  s32_add mean_value diff.

(** Shift a history buffer of [size] elements by one and insert [x] in
    front: [memmove(&a[1], &a[0], (size - 1) * sizeof(a[0])); a[0] = x;] *)
Definition shift_insert (a : list Z) (size : Z) (x : Z) : list Z :=
  <[0%nat := x]> (memmove a 1 0 (Z.to_nat (s32_sub size 1))).

(** Lines 164-173: the far-end history and its bit counts. *)
Definition update_far_history (handle : BinaryDelayEstimator)
    (binary_far_spectrum : Z) : BinaryDelayEstimator :=
  let handle := set_binary_far_history handle
    (shift_insert (binary_far_history handle) (history_size handle)
       binary_far_spectrum) in
  set_far_bit_counts handle
    (shift_insert (far_bit_counts handle) (history_size handle)
       (BitCount binary_far_spectrum)).

(** Lines 175-184: the near-end history; the second component is the value
    of [binary_near_spectrum] after the block, the word that is compared. *)
Definition update_near_history (handle : BinaryDelayEstimator)
    (binary_near_spectrum : Z) : BinaryDelayEstimator * Z :=
  if 1 <? near_history_size handle then
    let handle := set_binary_near_history handle
      (shift_insert (binary_near_history handle) (near_history_size handle)
         binary_near_spectrum) in
    (handle,
     read (binary_near_history handle)
          (Z.to_nat (s32_sub (near_history_size handle) 1)))
  else (handle, binary_near_spectrum).

(** Lines 186-190: the bit counts of the compared word against every delay. *)
Definition update_bit_counts (handle : BinaryDelayEstimator)
    (binary_near_spectrum : Z) : BinaryDelayEstimator :=
  set_bit_counts handle
    (BitCountComparison binary_near_spectrum (binary_far_history handle)
       (history_size handle) (bit_counts handle)).

(** The number of right shifts used at a far-end bit count (lines 203-204). *)
Definition smoothing_shifts (far_bit_count : Z) : Z :=
  let shifts := kShiftsAtZero in
  s32_sub shifts (s32_shr (s32_mul kShiftsLinearSlope far_bit_count) 4).

(** Lines 192-207: the smoothing loop. *)
Definition update_mean_bit_counts (handle : BinaryDelayEstimator)
    : BinaryDelayEstimator :=
  set_mean_bit_counts handle
    (for_loop (history_size handle)
       (fun i mean =>
          let bit_count := s32_shl (read (bit_counts handle) i) 9 in
          if 0 <? read (far_bit_counts handle) i then
            <[i := WebRtc_MeanEstimatorFix bit_count
                     (smoothing_shifts (read (far_bit_counts handle) i))
                     (read mean i)]> mean
          else mean)
       (mean_bit_counts handle)).

(** The three results of the candidate scan. *)
Record Candidates : Type := mkCandidates {
  candidate_delay : Z;
  value_best_candidate : Z;
  value_worst_candidate : Z
}.

(** Lines 158-161 and 209-219: the scan over [mean_bit_counts]. *)
Definition find_candidates (handle : BinaryDelayEstimator) : Candidates :=
  for_loop (history_size handle)
    (fun i c =>
       let m := read (mean_bit_counts handle) i in
       let c :=
         if m <? value_best_candidate c
         then mkCandidates (Z.of_nat i) m (value_worst_candidate c)
         else c in
       if value_worst_candidate c <? m
       then mkCandidates (candidate_delay c) (value_best_candidate c) m
       else c)
    (mkCandidates (-1) 16384 0).

(** Lines 234-248: the adaptive floor. *)
Definition update_minimum_probability (handle : BinaryDelayEstimator)
    (c : Candidates) : BinaryDelayEstimator :=
  if (kProbabilityLowerLimit <? minimum_probability handle)
     && (kProbabilityMinSpread
         <? s32_sub (value_worst_candidate c) (value_best_candidate c))
  then
    let threshold := s32_add (value_best_candidate c) kProbabilityOffset in
    let threshold :=
      if threshold <? kProbabilityLowerLimit then kProbabilityLowerLimit
      else threshold in
    if threshold <? minimum_probability handle
    then set_minimum_probability handle threshold
    else handle
  else handle.

(** Lines 249-262: the decision on [last_delay]. *)
Definition update_last_delay (handle : BinaryDelayEstimator)
    (c : Candidates) : BinaryDelayEstimator :=
  let handle := set_last_delay_probability handle
    (s32_add (last_delay_probability handle) 1) in
  if s32_add (value_best_candidate c) kProbabilityOffset
     <? value_worst_candidate c
  then
    let handle :=
      if value_best_candidate c <? minimum_probability handle
      then set_last_delay handle (candidate_delay c)
      else handle in
    if value_best_candidate c <? last_delay_probability handle
    then set_last_delay_probability
           (set_last_delay handle (candidate_delay c))
           (value_best_candidate c)
    else handle
  else handle.

(** The state of a call when the candidate scan starts: histories shifted,
    bit counts compared and means smoothed. *)
Definition smoothed (handle : BinaryDelayEstimator)
    (binary_far_spectrum binary_near_spectrum : Z) : BinaryDelayEstimator :=
  let handle := update_far_history handle binary_far_spectrum in
  let '(handle, binary_near_spectrum) :=
    update_near_history handle binary_near_spectrum in
  let handle := update_bit_counts handle binary_near_spectrum in
  update_mean_bit_counts handle.

(** The word compared against the far-end history in a call. *)
Definition compared_word (handle : BinaryDelayEstimator)
    (binary_near_spectrum : Z) : Z :=
  snd (update_near_history handle binary_near_spectrum).

(** [int WebRtc_ProcessBinarySpectrum(BinaryDelayEstimator* handle,
    uint32_t binary_far_spectrum, uint32_t binary_near_spectrum)]:
    the updated state and the returned delay. *)
Definition WebRtc_ProcessBinarySpectrum (handle : BinaryDelayEstimator)
    (binary_far_spectrum binary_near_spectrum : Z)
    : BinaryDelayEstimator * Z :=
  let handle := smoothed handle binary_far_spectrum binary_near_spectrum in
  let c := find_candidates handle in
  let handle := update_minimum_probability handle c in
  let handle := update_last_delay handle c in
  (handle, last_delay handle).

(** [int WebRtc_binary_last_delay(BinaryDelayEstimator* handle)] *)
Definition WebRtc_binary_last_delay (handle : BinaryDelayEstimator) : Z :=
  last_delay handle.

(** A sequence of calls, one [(far, near)] pair of spectra per frame. *)
Definition process_all (handle : BinaryDelayEstimator)
    (frames : list (Z * Z)) : BinaryDelayEstimator :=
  fold_left (fun h fr => fst (WebRtc_ProcessBinarySpectrum h (fst fr) (snd fr)))
    frames handle.

(** ** The core-count query ([cpu_info.cc]) *)

(** The preprocessor symbols that select the body of
    [CpuInfo::DetectNumberOfCores]. *)
Record Macros : Type := mkMacros {
  _WIN32 : bool;
  WEBRTC_LINUX : bool;
  WEBRTC_ANDROID : bool;
  WEBRTC_MAC : bool;
  WEBRTC_MAC_INTEL : bool
}.

(** What the operating system answers in one call: the count it reports
    ([si.dwNumberOfProcessors], [get_nprocs()] or [ncpu]) and, for the Mac
    branch, the value [sysctl] returns. *)
Record SystemAnswer : Type := mkSystemAnswer {
  reported_cores : Z;
  sysctl_result : Z
}.

(** [WebRtc_UWord32 CpuInfo::DetectNumberOfCores()]: from the static
    [_numberOfCores] (0 when the program starts) to its new value and the
    value returned.  The messages written to [stderr] are left out (the
    one of the failing Mac branch, line 78, is not well-formed C). *)
Definition DetectNumberOfCores (macros : Macros) (os : SystemAnswer)
    (_numberOfCores : Z) : Z * Z :=
  let _numberOfCores :=
    if _numberOfCores =? 0 then
      if _WIN32 macros then wrap_u32 (reported_cores os)
      else if WEBRTC_LINUX macros && negb (WEBRTC_ANDROID macros)
      then wrap_u32 (reported_cores os)
      else if WEBRTC_MAC macros || WEBRTC_MAC_INTEL macros
      then (if sysctl_result os =? 0 then wrap_u32 (reported_cores os)
            else 1)
      else 1
    else _numberOfCores in
  (_numberOfCores, _numberOfCores).

(** A sequence of calls, one answer of the system per call: the final
    static and the values returned, in call order. *)
Fixpoint detect_all (macros : Macros) (answers : list SystemAnswer)
    (_numberOfCores : Z) : Z * list Z :=
  match answers with
  | [] => (_numberOfCores, [])
  | os :: rest =>
      let '(c, r) := DetectNumberOfCores macros os _numberOfCores in
      let '(c', rs) := detect_all macros rest c in
      (c', r :: rs)
  end.

(** ** Specification-level definitions *)

(** The step of the smoothing filter in unbounded arithmetic: the
    difference to the new value divided by [2 ^ factor], the quotient taken
    on the absolute value and given the sign of the difference. *)
Definition mean_step (new_value factor mean_value : Z) : Z :=
  let diff := new_value - mean_value in
  if diff <? 0 then - ((- diff) / 2 ^ factor) else diff / 2 ^ factor.

(** The entries [a[0]], ..., [a[n-1]] a loop over [n] elements visits. *)
Definition entries (a : list Z) (n : Z) : list Z :=
  map (read a) (seq 0 (Z.to_nat n)).

(** What the scan has found after [n] iterations. *)
Definition scanned (a : list Z) (n : nat) (c : Candidates) : Prop :=
  value_best_candidate c = fold_right Z.min 16384 (entries a (Z.of_nat n))
  /\ value_worst_candidate c = fold_right Z.max 0 (entries a (Z.of_nat n))
  /\ (forall j, (j < n)%nat -> value_best_candidate c <= read a j)
  /\ (value_best_candidate c < 16384 ->
      exists k, candidate_delay c = Z.of_nat k /\ (k < n)%nat
                /\ read a k = value_best_candidate c
                /\ forall j, (j < k)%nat -> value_best_candidate c < read a j)
  /\ (16384 <= value_best_candidate c -> candidate_delay c = -1).

(** ** Invariants of the state *)

(** The shape [WebRtc_CreateBinaryDelayEstimator] gives a state: the sizes
    are C [int]s, more than one delay is tracked, and every buffer has the
    length it was allocated with. *)
Record allocated (h : BinaryDelayEstimator) : Prop := mkAllocated {
  alloc_history_size : 1 < history_size h < 2 ^ 31;
  alloc_near_history_size : is_s32 (near_history_size h);
  alloc_mean_bit_counts :
    length (mean_bit_counts h) = Z.to_nat (history_size h);
  alloc_far_bit_counts :
    length (far_bit_counts h) = Z.to_nat (history_size h);
  alloc_bit_counts :
    length (bit_counts h) = Z.to_nat (history_size h);
  alloc_binary_far_history :
    length (binary_far_history h) = Z.to_nat (history_size h);
  alloc_binary_near_history :
    length (binary_near_history h) = Z.to_nat (near_history_size h)
}.

(** What holds of an initialised state between calls. *)
Record estimator_inv (h : BinaryDelayEstimator) : Prop := mkInv {
  inv_allocated : allocated h;
  inv_far_history : Forall is_u32 (binary_far_history h);
  inv_near_history : Forall is_u32 (binary_near_history h);
  inv_far_bit_counts : Forall (fun c => 0 <= c <= 32) (far_bit_counts h);
  inv_mean_bit_counts : Forall (fun m => 0 <= m < 16384) (mean_bit_counts h);
  inv_minimum_probability :
    kProbabilityLowerLimit <= minimum_probability h <= 16384;
  inv_last_delay_probability : is_s32 (last_delay_probability h);
  inv_last_delay :
    last_delay h = -2 \/ 0 <= last_delay h < history_size h
}.

(** Both spectra of a frame are 32-bit words. *)
Definition frame_ok (fr : Z * Z) : Prop := is_u32 (fst fr) /\ is_u32 (snd fr).

(** The state of an estimator that has only seen zero far-end words:
    no far-end bit, every mean at its initial value, no decision taken. *)
Record undisturbed (h : BinaryDelayEstimator) : Prop := mkUndisturbed {
  und_allocated : allocated h;
  und_far_bit_counts :
    far_bit_counts h = replicate (Z.to_nat (history_size h)) 0;
  und_mean_bit_counts :
    mean_bit_counts h = replicate (Z.to_nat (history_size h)) 10240;
  und_minimum_probability : minimum_probability h = 16384;
  und_last_delay : last_delay h = -2
}.

(** ** Auxiliary definitions for the bit-count proof *)

(** The first two statements of [BitCount] without the wrap-around, with
    the masks as parameters. *)
Definition step1 (m3 m1 u : Z) : Z :=
  u - Z.land (Z.shiftr u 1) m3 - Z.land (Z.shiftr u 2) m1.
Definition step2 (m t : Z) : Z := Z.land (t + Z.shiftr t 3) m.

(** [P] holds of 0, 1, ..., n-1. *)
Definition below (n : nat) (P : Z -> bool) : bool :=
  forallb P (map Z.of_nat (seq 0 n)).

(** What the first two statements do to one 6-bit field, and to the two
    top bits of the word. *)
Definition field_ok (g : Z) : bool :=
  let s := step1 27 9 g in
  (0 <=? s) && (s <=? 27) && (s <=? g) && (s mod 8 <=? 3)
  && ((s + s / 8) mod 8 =? popcount_bits 6 g).

Definition top_ok (h : Z) : bool :=
  let s := step1 3 1 h in
  (0 <=? s) && (s <=? 2) && (s <=? h) && (step2 3 s =? popcount_bits 2 h).

(** ** Example data *)

(** An allocator on which every request succeeds. *)
Definition malloc_succeeds : nat -> bool := fun _ => true.

(** The estimator made by [WebRtc_CreateBinaryDelayEstimator(2, 1)]. *)
Definition example_created : BinaryDelayEstimator :=
  mkEstimator [0; 0; 0] [0; 0; 0] [0; 0; 0] [0; 0; 0] [0; 0] 0 0 0 3 2.

(** Four frames in which the near end repeats the far end one frame late. *)
Definition example_frames : list (Z * Z) :=
  [(4042322160, 0); (305419896, 4042322160); (4294901760, 305419896);
   (0, 4294901760)].

(** The example estimator, initialised and fed the example frames. *)
Definition example_running : BinaryDelayEstimator :=
  Eval vm_compute in
    process_all (WebRtc_InitBinaryDelayEstimator example_created)
      example_frames.

(** Pseudo-random far-end words (a linear congruential generator). *)
Fixpoint example_words (n : nat) (seed : Z) : list Z :=
  match n with
  | O => []
  | S n' =>
      let w := wrap_u32 (1664525 * seed + 1013904223) in
      w :: example_words n' w
  end.

(** An estimator of six delays with one frame of lookahead after 400 frames
    in which the near end repeats the far end two frames late. *)
Definition example_locked : BinaryDelayEstimator :=
  Eval vm_compute in
    let far := example_words 400 12345 in
    process_all
      (WebRtc_InitBinaryDelayEstimator
         (mkEstimator (replicate 6 0) (replicate 6 0) (replicate 6 0)
            (replicate 6 0) (replicate 2 0) 0 0 0 6 2))
      (combine far (0 :: 0 :: far)).

(** * Properties *)

(** ** The bit-count kernel *)

Lemma below_spec n P x :
  below n P = true -> 0 <= x < Z.of_nat n -> P x = true.
Proof.
  unfold below. rewrite forallb_forall. intros H Hx.
  apply H. rewrite in_map_iff. exists (Z.to_nat x). split; [lia|].
  apply in_seq. lia.
Qed.

Lemma land_mod_pow2 x y n :
  0 <= n -> Z.land x y mod 2 ^ n = Z.land (x mod 2 ^ n) (y mod 2 ^ n).
Proof.
  intros Hn. rewrite <- !Z.land_ones by lia.
  apply Z.bits_inj'. intros i Hi. rewrite !Z.land_spec.
  destruct (Z.testbit x i), (Z.testbit y i), (Z.testbit (Z.ones n) i); reflexivity.
Qed.

Lemma land_split n a c p q :
  0 <= n -> 0 <= a < 2 ^ n -> 0 <= c < 2 ^ n ->
  Z.land (a + 2 ^ n * p) (c + 2 ^ n * q) = Z.land a c + 2 ^ n * Z.land p q.
Proof.
  intros Hn Ha Hc.
  assert (Hpos : 0 < 2 ^ n) by (apply Z.pow_pos_nonneg; lia).
  rewrite (Z.div_mod (Z.land (a + 2 ^ n * p) (c + 2 ^ n * q)) (2 ^ n)) by lia.
  rewrite land_mod_pow2 by lia.
  rewrite <- Z.shiftr_div_pow2, Z.shiftr_land, !Z.shiftr_div_pow2 by lia.
  replace ((a + 2 ^ n * p) / 2 ^ n) with p
    by (apply Z.div_unique with a; lia).
  replace ((c + 2 ^ n * q) / 2 ^ n) with q
    by (apply Z.div_unique with c; lia).
  replace ((a + 2 ^ n * p) mod 2 ^ n) with a
    by (apply Z.mod_unique with p; lia).
  replace ((c + 2 ^ n * q) mod 2 ^ n) with c
    by (apply Z.mod_unique with q; lia).
  lia.
Qed.

Lemma land_low n a c q :
  0 <= n -> 0 <= a < 2 ^ n -> 0 <= c < 2 ^ n ->
  Z.land (c + 2 ^ n * q) a = Z.land c a.
Proof.
  intros. replace a with (a + 2 ^ n * 0) at 1 by lia.
  rewrite land_split by lia. rewrite Z.land_0_r. lia.
Qed.

Lemma step1_split m3 m1 u :
  0 <= u ->
  step1 (27 + 64 * m3) (9 + 64 * m1) u
  = step1 27 9 (u mod 64) + 64 * step1 m3 m1 (u / 64).
Proof.
  intros Hu. unfold step1. rewrite !Z.shiftr_div_pow2 by lia.
  change (2 ^ 1) with 2. change (2 ^ 2) with 4.
  replace (u / 2) with ((u mod 64 / 2 + 2 ^ 5 * (u / 64 mod 2)) + 2 ^ 6 * (u / 64 / 2))
    by (change (2 ^ 5) with 32; change (2 ^ 6) with 64; Z.div_mod_to_equations; lia).
  replace (u / 4) with ((u mod 64 / 4 + 2 ^ 4 * (u / 64 mod 4)) + 2 ^ 6 * (u / 64 / 4))
    by (change (2 ^ 4) with 16; change (2 ^ 6) with 64; Z.div_mod_to_equations; lia).
  change 64 with (2 ^ 6) at 1 2.
  rewrite !land_split
    by (try lia; change (2 ^ 5) with 32; change (2 ^ 4) with 16; change (2 ^ 6) with 64;
        Z.div_mod_to_equations; lia).
  rewrite (land_low 5) by (try lia; change (2 ^ 5) with 32; Z.div_mod_to_equations; lia).
  rewrite (land_low 4) by (try lia; change (2 ^ 4) with 16; Z.div_mod_to_equations; lia).
  change (2 ^ 6) with 64.
  Z.div_mod_to_equations; lia.
Qed.

Lemma step2_split m t :
  0 <= t ->
  t mod 64 + t mod 64 / 8 + 8 * (t / 64 mod 8) < 64 ->
  step2 (7 + 64 * m) t
  = (t mod 64 + t mod 64 / 8) mod 8 + 64 * step2 m (t / 64).
Proof.
  intros Ht Hfit. unfold step2. rewrite !Z.shiftr_div_pow2 by lia.
  change (2 ^ 3) with 8.
  replace (t + t / 8)
    with ((t mod 64 + t mod 64 / 8 + 8 * (t / 64 mod 8)) + 2 ^ 6 * (t / 64 + t / 64 / 8))
    by (change (2 ^ 6) with 64; Z.div_mod_to_equations; lia).
  change 64 with (2 ^ 6) at 4.
  rewrite land_split
    by (try lia; change (2 ^ 6) with 64; Z.div_mod_to_equations; lia).
  change 7 with (Z.ones 3). rewrite Z.land_ones by lia.
  change (2 ^ 3) with 8. change (2 ^ 6) with 64.
  Z.div_mod_to_equations; lia.
Qed.

Lemma popcount_bits_split a b u :
  popcount_bits (a + b) u
  = popcount_bits a (u mod 2 ^ Z.of_nat a) + popcount_bits b (u / 2 ^ Z.of_nat a).
Proof.
  revert u. induction a as [|a IH]; intros u.
  - change (2 ^ Z.of_nat 0) with 1. rewrite Z.div_1_r. reflexivity.
  - cbn [Nat.add popcount_bits]. rewrite IH.
    assert (Hp : 0 < 2 ^ Z.of_nat a) by (apply Z.pow_pos_nonneg; lia).
    replace (2 ^ Z.of_nat (S a)) with (2 * 2 ^ Z.of_nat a)
      by (rewrite Nat2Z.inj_succ, Z.pow_succ_r by lia; reflexivity).
    rewrite Z.rem_mul_r by lia. rewrite <- Z.div_div by lia.
    set (X := u / 2 mod 2 ^ Z.of_nat a).
    replace ((u mod 2 + 2 * X) mod 2) with (u mod 2)
      by (Z.div_mod_to_equations; lia).
    replace ((u mod 2 + 2 * X) / 2) with X
      by (Z.div_mod_to_equations; lia).
    lia.
Qed.

Lemma field_facts g :
  0 <= g < 64 ->
  let s := step1 27 9 g in
  0 <= s <= 27 /\ s <= g /\ s mod 8 <= 3
  /\ (s + s / 8) mod 8 = popcount_bits 6 g.
Proof.
  intros Hg s.
  assert (H : field_ok g = true)
    by (apply (below_spec 64); [vm_compute; reflexivity | lia]).
  unfold field_ok in H. fold s in H.
  rewrite !andb_true_iff in H. lia.
Qed.

Lemma top_facts h :
  0 <= h < 4 ->
  let s := step1 3 1 h in
  0 <= s <= 2 /\ s <= h /\ step2 3 s = popcount_bits 2 h.
Proof.
  intros Hh s.
  assert (H : top_ok h = true)
    by (apply (below_spec 4); [vm_compute; reflexivity | lia]).
  unfold top_ok in H. fold s in H.
  rewrite !andb_true_iff in H. lia.
Qed.

(** The word is cut into five 6-bit fields and its two top bits; after the
    first two statements every field holds its own bit count. *)
Lemma fields_counted u :
  0 <= u < 2 ^ 32 ->
  let g0 := u mod 64 in let u1 := u / 64 in
  let g1 := u1 mod 64 in let u2 := u1 / 64 in
  let g2 := u2 mod 64 in let u3 := u2 / 64 in
  let g3 := u3 mod 64 in let u4 := u3 / 64 in
  let g4 := u4 mod 64 in let h := u4 / 64 in
  let t := step1 mask_033333333333 mask_011111111111 u in
  0 <= t /\ t + t / 8 < 2 ^ 32 /\ t <= u /\
  step2 mask_030707070707 t
  = popcount_bits 6 g0 + 64 * (popcount_bits 6 g1 + 64 * (popcount_bits 6 g2
    + 64 * (popcount_bits 6 g3 + 64 * (popcount_bits 6 g4
    + 64 * popcount_bits 2 h)))).
Proof.
  intros Hu g0 u1 g1 u2 g2 u3 g3 u4 g4 h t.
  assert (Hg0 : 0 <= g0 < 64) by (apply Z.mod_pos_bound; lia).
  assert (Hu1 : 0 <= u1 < 2 ^ 26)
    by (subst u1; change (2 ^ 32) with (64 * 2 ^ 26) in Hu;
        Z.div_mod_to_equations; lia).
  assert (Hg1 : 0 <= g1 < 64) by (apply Z.mod_pos_bound; lia).
  assert (Hu2 : 0 <= u2 < 2 ^ 20)
    by (subst u2; change (2 ^ 26) with (64 * 2 ^ 20) in Hu1;
        Z.div_mod_to_equations; lia).
  assert (Hg2 : 0 <= g2 < 64) by (apply Z.mod_pos_bound; lia).
  assert (Hu3 : 0 <= u3 < 2 ^ 14)
    by (subst u3; change (2 ^ 20) with (64 * 2 ^ 14) in Hu2;
        Z.div_mod_to_equations; lia).
  assert (Hg3 : 0 <= g3 < 64) by (apply Z.mod_pos_bound; lia).
  assert (Hu4 : 0 <= u4 < 2 ^ 8)
    by (subst u4; change (2 ^ 14) with (64 * 2 ^ 8) in Hu3;
        Z.div_mod_to_equations; lia).
  assert (Hg4 : 0 <= g4 < 64) by (apply Z.mod_pos_bound; lia).
  assert (Hh : 0 <= h < 4)
    by (subst h; change (2 ^ 8) with (64 * 4) in Hu4;
        Z.div_mod_to_equations; lia).
  assert (Ht : t = step1 27 9 g0 + 64 * (step1 27 9 g1 + 64 * (step1 27 9 g2
            + 64 * (step1 27 9 g3 + 64 * (step1 27 9 g4 + 64 * step1 3 1 h))))).
  { subst t.
    change mask_033333333333
      with (27 + 64 * (27 + 64 * (27 + 64 * (27 + 64 * (27 + 64 * 3))))).
    change mask_011111111111
      with (9 + 64 * (9 + 64 * (9 + 64 * (9 + 64 * (9 + 64 * 1))))).
    rewrite (step1_split _ _ u) by lia. fold g0 u1.
    rewrite (step1_split _ _ u1) by lia. fold g1 u2.
    rewrite (step1_split _ _ u2) by lia. fold g2 u3.
    rewrite (step1_split _ _ u3) by lia. fold g3 u4.
    rewrite (step1_split _ _ u4) by lia. fold g4 h.
    reflexivity. }
  destruct (field_facts g0 Hg0) as (B0 & E0 & L0 & P0).
  destruct (field_facts g1 Hg1) as (B1 & E1 & L1 & P1).
  destruct (field_facts g2 Hg2) as (B2 & E2 & L2 & P2).
  destruct (field_facts g3 Hg3) as (B3 & E3 & L3 & P3).
  destruct (field_facts g4 Hg4) as (B4 & E4 & L4 & P4).
  destruct (top_facts h Hh) as (B5 & E5 & P5).
  set (a0 := step1 27 9 g0) in *. set (a1 := step1 27 9 g1) in *.
  set (a2 := step1 27 9 g2) in *. set (a3 := step1 27 9 g3) in *.
  set (a4 := step1 27 9 g4) in *. set (a5 := step1 3 1 h) in *.
  split; [lia|].
  split; [rewrite Ht; change (2 ^ 32) with 4294967296;
          Z.div_mod_to_equations; lia|].
  split.
  { rewrite Ht. subst g0 g1 g2 g3 g4 h u1 u2 u3 u4.
    Z.div_mod_to_equations; lia. }
  rewrite Ht.
  change mask_030707070707
    with (7 + 64 * (7 + 64 * (7 + 64 * (7 + 64 * (7 + 64 * 3))))).
  repeat (rewrite step2_split by (Z.div_mod_to_equations; lia);
          match goal with
          | |- context [(?a + 64 * ?r) mod 64] =>
              replace ((a + 64 * r) mod 64) with a
                by (Z.div_mod_to_equations; lia);
              replace ((a + 64 * r) / 64) with r
                by (Z.div_mod_to_equations; lia)
          end).
  rewrite P0, P1, P2, P3, P4, P5. reflexivity.
Qed.

Lemma fold_fields f0 f1 f2 f3 f4 f5 :
  0 <= f0 <= 6 -> 0 <= f1 <= 6 -> 0 <= f2 <= 6 -> 0 <= f3 <= 6 ->
  0 <= f4 <= 6 -> 0 <= f5 <= 2 ->
  let t2 := f0 + 64 * (f1 + 64 * (f2 + 64 * (f3 + 64 * (f4 + 64 * f5)))) in
  let t3 := u32_add t2 (Z.shiftr t2 6) in
  Z.land (u32_add (u32_add t3 (Z.shiftr t3 12)) (Z.shiftr t3 24)) mask_077
  = f0 + f1 + f2 + f3 + f4 + f5.
Proof.
  intros H0 H1 H2 H3 H4 H5 t2 t3.
  assert (E3 : t3 = (f0 + f1) + 64 * ((f1 + f2) + 64 * ((f2 + f3)
                 + 64 * ((f3 + f4) + 64 * ((f4 + f5) + 64 * f5))))).
  { subst t3. unfold u32_add, wrap_u32. rewrite Z.shiftr_div_pow2 by lia.
    change (2 ^ 6) with 64. change (2 ^ 32) with 4294967296.
    replace (t2 / 64) with (f1 + 64 * (f2 + 64 * (f3 + 64 * (f4 + 64 * f5))))
      by (subst t2; Z.div_mod_to_equations; lia).
    rewrite Z.mod_small by (subst t2; lia). subst t2. lia. }
  clearbody t3. subst t3. clear t2.
  unfold u32_add, wrap_u32. rewrite !Z.shiftr_div_pow2 by lia.
  change mask_077 with (Z.ones 6). rewrite Z.land_ones by lia.
  change (2 ^ 6) with 64. change (2 ^ 32) with 4294967296.
  change (2 ^ 12) with 4096. change (2 ^ 24) with 16777216.
  set (t3 := f0 + f1 + 64 * _).
  replace (t3 / 4096) with ((f2 + f3) + 64 * ((f3 + f4) + 64 * ((f4 + f5) + 64 * f5)))
    by (subst t3; Z.div_mod_to_equations; lia).
  replace (t3 / 16777216) with ((f4 + f5) + 64 * f5)
    by (subst t3; Z.div_mod_to_equations; lia).
  rewrite (Z.mod_small (t3 + _)) by (subst t3; lia).
  rewrite (Z.mod_small (t3 + _ + _)) by (subst t3; lia).
  subst t3. Z.div_mod_to_equations; lia.
Qed.

Lemma popcount_bits_bounds n u : 0 <= popcount_bits n u <= Z.of_nat n.
Proof.
  revert u. induction n as [|n IH]; intros u; [simpl; lia|].
  cbn [popcount_bits]. specialize (IH (u / 2)).
  pose proof (Z.mod_pos_bound u 2). lia.
Qed.

Lemma BitCount_popcount u :
  is_u32 u -> BitCount u = popcount32 u /\ 0 <= BitCount u <= 32.
Proof.
  intros Hu. unfold is_u32 in Hu.
  assert (E : BitCount u = popcount32 u); [|split; [exact E|rewrite E; apply (popcount_bits_bounds 32)]].
  pose proof (fields_counted u Hu) as H. cbv zeta in H.
  destruct H as (Ht0 & Htfit & Htle & Ht2).
  unfold BitCount.
  assert (E1 : u32_sub (u32_sub u (Z.land (Z.shiftr u 1) mask_033333333333))
                 (Z.land (Z.shiftr u 2) mask_011111111111)
               = step1 mask_033333333333 mask_011111111111 u).
  { unfold u32_sub, wrap_u32. rewrite Zminus_mod_idemp_l.
    apply Z.mod_small. fold (step1 mask_033333333333 mask_011111111111 u). lia. }
  rewrite E1. clear E1.
  set (t := step1 mask_033333333333 mask_011111111111 u) in *.
  assert (E2 : Z.land (u32_add t (Z.shiftr t 3)) mask_030707070707
               = step2 mask_030707070707 t).
  { unfold u32_add, wrap_u32, step2. rewrite Z.shiftr_div_pow2 by lia.
    change (2 ^ 3) with 8. rewrite Z.mod_small; [reflexivity|].
    Z.div_mod_to_equations; lia. }
  rewrite E2, Ht2. clear E2 Ht2.
  pose proof (popcount_bits_bounds 6) as B6. pose proof (popcount_bits_bounds 2) as B2.
  cbv zeta. rewrite fold_fields by (first [apply B6 | apply B2]).
  unfold popcount32.
  change 32%nat with (6 + (6 + (6 + (6 + (6 + 2)))))%nat.
  rewrite !popcount_bits_split. change (2 ^ Z.of_nat 6) with 64. lia.
Qed.

(** [popcount_bits] counts the bits that [Z.testbit] sees. *)
Lemma popcount_bits_testbit n u :
  popcount_bits n u
  = fold_right Z.add 0
      (map (fun i => Z.b2z (Z.testbit u (Z.of_nat i))) (seq 0 n)).
Proof.
  revert u. induction n as [|n IH]; intros u; [reflexivity|].
  cbn [popcount_bits seq map fold_right].
  rewrite <- Z.bit0_mod. f_equal.
  rewrite IH, <- seq_shift, map_map. f_equal.
  apply map_ext. intros i.
  rewrite Z.div2_bits by lia.
  rewrite Nat2Z.inj_succ. reflexivity.
Qed.

Example BitCount_zero : BitCount 0 = 0.
Proof. reflexivity. Qed.

Example BitCount_all_ones : BitCount 4294967295 = 32.
Proof. reflexivity. Qed.

Example BitCount_top_bit : BitCount 2147483648 = 1.
Proof. reflexivity. Qed.

Example masks_are_32_bit :
  mask_033333333333 = 3681400539 /\ mask_011111111111 = 1227133513
  /\ mask_030707070707 = 3340530119 /\ mask_077 = 63.
Proof. repeat split; reflexivity. Qed.

(** ** Fixed-width arithmetic *)

Lemma wrap_s32_id x : is_s32 x -> wrap_s32 x = x.
Proof.
  unfold is_s32, wrap_s32. intros H.
  rewrite Z.mod_small by lia. lia.
Qed.

Lemma wrap_s32_range x : is_s32 (wrap_s32 x).
Proof.
  unfold is_s32, wrap_s32.
  pose proof (Z.mod_pos_bound (x + 2 ^ 31) (2 ^ 32)). lia.
Qed.

Lemma testbit_u32_high a i : is_u32 a -> 32 <= i -> Z.testbit a i = false.
Proof.
  intros Ha Hi. rewrite <- (Z.mod_small a (2 ^ 32)) by exact Ha.
  apply Z.mod_pow2_bits_high. lia.
Qed.

Lemma lxor_u32 a b : is_u32 a -> is_u32 b -> is_u32 (Z.lxor a b).
Proof.
  intros Ha Hb. unfold is_u32.
  assert (Hnn : 0 <= Z.lxor a b) by (apply Z.lxor_nonneg; unfold is_u32 in *; lia).
  split; [exact Hnn|].
  rewrite <- (Z.mod_small (Z.lxor a b) (2 ^ 32)); [apply Z.mod_pos_bound; lia|].
  split; [exact Hnn|].
  destruct (Z.eq_dec (Z.lxor a b) 0) as [->|Hne]; [lia|].
  apply Z.log2_lt_pow2; [lia|].
  destruct (Z.lt_ge_cases (Z.log2 (Z.lxor a b)) 32) as [|Hge]; [assumption|].
  exfalso.
  assert (Hbit : Z.testbit (Z.lxor a b) (Z.log2 (Z.lxor a b)) = true)
    by (apply Z.bit_log2; lia).
  rewrite Z.lxor_spec, !testbit_u32_high in Hbit by assumption.
  discriminate.
Qed.

(** ** Loops over arrays *)

Lemma for_loop_succ {S : Type} (n : nat) (body : nat -> S -> S) (s : S) :
  for_loop (Z.of_nat (Datatypes.S n)) body s
  = body n (for_loop (Z.of_nat n) body s).
Proof.
  unfold for_loop. rewrite !Nat2Z.id, seq_S, fold_left_app. reflexivity.
Qed.

Lemma for_loop_neg {S : Type} bound (body : nat -> S -> S) (s : S) :
  bound <= 0 -> for_loop bound body s = s.
Proof.
  intros H. unfold for_loop.
  replace (Z.to_nat bound) with 0%nat by lia. reflexivity.
Qed.

(** A loop invariant indexed by the number of iterations done. *)
Lemma for_loop_invariant {S : Type} (P : nat -> S -> Prop) bound
    (body : nat -> S -> S) (s : S) :
  P 0%nat s ->
  (forall i s', (i < Z.to_nat bound)%nat -> P i s' -> P (Datatypes.S i) (body i s')) ->
  P (Z.to_nat bound) (for_loop bound body s).
Proof.
  intros H0 Hstep.
  destruct (Z.le_gt_cases bound 0) as [Hle|Hgt].
  - rewrite for_loop_neg by assumption.
    replace (Z.to_nat bound) with 0%nat by lia. exact H0.
  - rewrite <- (Z2Nat.id bound) at 2 by lia.
    induction (Z.to_nat bound) as [|n IH]; [exact H0|].
    rewrite for_loop_succ. apply Hstep; [lia|].
    apply IH. intros i s' Hi. apply Hstep. lia.
Qed.

Lemma read_lookup (a : list Z) i x : a !! i = Some x -> read a i = x.
Proof. intros H. unfold read. rewrite nth_lookup, H. reflexivity. Qed.

Lemma read_beyond (a : list Z) i : (length a <= i)%nat -> read a i = 0.
Proof. intros H. unfold read. apply nth_overflow. exact H. Qed.

Lemma read_insert (a : list Z) i j x :
  read (<[i := x]> a) j
  = if decide (i = j /\ (i < length a)%nat) then x else read a j.
Proof.
  unfold read. rewrite !nth_lookup, list_lookup_insert.
  destruct (decide (i = j /\ (i < length a)%nat)); reflexivity.
Qed.

Lemma Forall_read (P : Z -> Prop) (a : list Z) :
  Forall P a <-> forall i, (i < length a)%nat -> P (read a i).
Proof.
  rewrite Forall_lookup. split.
  - intros H i Hi. destruct (lookup_lt_is_Some_2 a i Hi) as [x Hx].
    rewrite (read_lookup _ _ _ Hx). eauto.
  - intros H i x Hx. rewrite <- (read_lookup _ _ _ Hx).
    apply H. eapply lookup_lt_Some; eauto.
Qed.

Lemma read_ext (a b : list Z) :
  length a = length b -> (forall i, (i < length a)%nat -> read a i = read b i) ->
  a = b.
Proof.
  intros Hlen H. apply list_eq_same_length with (length a); [symmetry; exact Hlen|reflexivity|].
  intros i x y Hi Hx Hy.
  rewrite <- (read_lookup _ _ _ Hx), <- (read_lookup _ _ _ Hy). auto.
Qed.

Section PointwiseLoop.

(** A loop whose [i]-th iteration stores at index [i] a value computed
    from [i] and the element it replaces. *)
Variable g : nat -> Z -> Z.

Lemma pointwise_loop bound (a : list Z) :
  let r := for_loop bound (stores_at g) a in
  length r = length a /\
  (forall j, (j < Z.to_nat bound)%nat -> (j < length a)%nat ->
             read r j = g j (read a j)) /\
  (forall j, (Z.to_nat bound <= j)%nat -> read r j = read a j).
Proof.
  apply (for_loop_invariant
           (fun n r => length r = length a /\
              (forall j, (j < n)%nat -> (j < length a)%nat ->
                         read r j = g j (read a j)) /\
              (forall j, (n <= j)%nat -> read r j = read a j))).
  - split; [reflexivity|]. split; [intros j Hj; lia|reflexivity].
  - intros i r Hi (Hlen & Hdone & Hrest). unfold stores_at.
    split; [rewrite length_insert; exact Hlen|]. split.
    + intros j Hj Hja. rewrite read_insert, Hlen.
      destruct (decide (i = j /\ (i < length a)%nat)) as [[-> _]|Hn].
      * rewrite Hrest by lia. reflexivity.
      * apply Hdone; [|assumption].
        destruct (decide (j = i)) as [->|]; [|lia].
        exfalso. apply Hn. split; [reflexivity|assumption].
    + intros j Hj. rewrite read_insert.
      destruct (decide (i = j /\ _)) as [[-> _]|_]; [lia|].
      apply Hrest. lia.
Qed.

End PointwiseLoop.

Lemma BitCountComparison_read (vector : Z) (rows : list Z) (n : Z)
    (counts : list Z) :
  let r := BitCountComparison vector rows n counts in
  length r = length counts /\
  (forall i, Z.of_nat i < n -> (i < length counts)%nat ->
             read r i = BitCount (Z.lxor vector (read rows i))) /\
  (forall i, n <= Z.of_nat i -> read r i = read counts i).
Proof.
  unfold BitCountComparison.
  change (for_loop n _ counts)
    with (for_loop n
            (stores_at (fun i _ => BitCount (Z.lxor vector (read rows i))))
            counts).
  destruct (pointwise_loop
              (fun i _ => BitCount (Z.lxor vector (read rows i))) n counts)
    as (Hlen & Hdone & Hrest).
  cbv zeta. split; [exact Hlen|]. split.
  - intros i Hi Hc. apply Hdone; lia.
  - intros i Hi. apply Hrest. lia.
Qed.

(** C4.  [BitCount] returns exactly the population count of a 32-bit word,
    a number between 0 and 32; and [BitCountComparison] stores in
    [counts[i]], for every [i] below [n], the population count of
    [vector XOR rows[i]], leaving the length of [counts] and its elements
    from [n] on as they were.  The arrays hold at least [n] elements. *)
Theorem bit_count_kernel_exact (u vector : Z) (rows : list Z) (n : Z)
    (counts : list Z) :
  is_u32 u -> is_u32 vector -> Forall is_u32 rows ->
  n <= Z.of_nat (length rows) -> n <= Z.of_nat (length counts) ->
  (BitCount u = popcount32 u /\ 0 <= BitCount u <= 32) /\
  (let r := BitCountComparison vector rows n counts in
   length r = length counts /\
   (forall i, Z.of_nat i < n ->
              read r i = popcount32 (Z.lxor vector (read rows i))) /\
   (forall i, n <= Z.of_nat i -> read r i = read counts i)).
Proof.
  intros Hu Hv Hrows Hnr Hnc. split; [apply BitCount_popcount; exact Hu|].
  destruct (BitCountComparison_read vector rows n counts)
    as (Hlen & Hdone & Hrest).
  cbv zeta. split; [exact Hlen|]. split.
  - intros i Hi. rewrite Hdone by lia.
    apply BitCount_popcount, lxor_u32; [exact Hv|].
    apply (proj1 (Forall_read is_u32 rows) Hrows). lia.
  - exact Hrest.
Qed.

Lemma bit_count_kernel_exact_witness :
  is_u32 4042265140 /\ is_u32 5 /\ Forall is_u32 [3; 4294967295] /\
  2 <= Z.of_nat (length [3; 4294967295]) /\
  2 <= Z.of_nat (length [7; 7; 7]) /\
  (BitCount 4042265140 = popcount32 4042265140
   /\ 0 <= BitCount 4042265140 <= 32) /\
  (let r := BitCountComparison 5 [3; 4294967295] 2 [7; 7; 7] in
   length r = length [7; 7; 7] /\
   (forall i, Z.of_nat i < 2 ->
              read r i = popcount32 (Z.lxor 5 (read [3; 4294967295] i))) /\
   (forall i, 2 <= Z.of_nat i -> read r i = read [7; 7; 7] i)).
Proof.
  assert (H1 : is_u32 4042265140) by (unfold is_u32; lia).
  assert (H2 : is_u32 5) by (unfold is_u32; lia).
  assert (H3 : Forall is_u32 [3; 4294967295])
    by (repeat constructor; unfold is_u32; lia).
  assert (H4 : 2 <= Z.of_nat (length [3; 4294967295])) by (simpl; lia).
  assert (H5 : 2 <= Z.of_nat (length [7; 7; 7])) by (simpl; lia).
  repeat (split; [assumption|]).
  exact (bit_count_kernel_exact 4042265140 5 [3; 4294967295] 2 [7; 7; 7]
           H1 H2 H3 H4 H5).
Defined.

(** ** History buffers *)

Lemma shift_insert_cons (a : list Z) size x :
  1 <= size < 2 ^ 31 -> length a = Z.to_nat size ->
  shift_insert a size x = x :: take (Z.to_nat size - 1) a.
Proof.
  intros Hsize Hlen. unfold shift_insert, memmove, s32_sub.
  rewrite wrap_s32_id by (unfold is_s32; lia).
  destruct a as [|a0 a']; [simpl in Hlen; lia|].
  replace (Z.to_nat (size - 1)) with (Z.to_nat size - 1)%nat by lia.
  rewrite drop_0.
  rewrite (drop_ge (a0 :: a')) by (rewrite Hlen; lia).
  rewrite app_nil_r. reflexivity.
Qed.

Lemma shift_insert_length (a : list Z) size x :
  1 <= size < 2 ^ 31 -> length a = Z.to_nat size ->
  length (shift_insert a size x) = length a.
Proof.
  intros Hsize Hlen. rewrite shift_insert_cons by assumption.
  cbn [length]. rewrite length_take. lia.
Qed.

Lemma shift_insert_read_0 (a : list Z) size x :
  1 <= size < 2 ^ 31 -> length a = Z.to_nat size ->
  read (shift_insert a size x) 0 = x.
Proof. intros. rewrite shift_insert_cons by assumption. reflexivity. Qed.

Lemma shift_insert_read_succ (a : list Z) size x i :
  1 <= size < 2 ^ 31 -> length a = Z.to_nat size ->
  (S i < Z.to_nat size)%nat ->
  read (shift_insert a size x) (S i) = read a i.
Proof.
  intros Hsize Hlen Hi. rewrite shift_insert_cons by assumption.
  unfold read. cbn [nth]. rewrite !nth_lookup, lookup_take_lt by lia.
  reflexivity.
Qed.

Lemma shift_insert_Forall (P : Z -> Prop) (a : list Z) size x :
  1 <= size < 2 ^ 31 -> length a = Z.to_nat size ->
  P x -> Forall P a -> Forall P (shift_insert a size x).
Proof.
  intros Hsize Hlen Hx Ha. rewrite shift_insert_cons by assumption.
  constructor; [exact Hx|]. apply Forall_take. exact Ha.
Qed.

(** ** The smoothing filter *)

Lemma smoothing_shifts_value c :
  0 <= c <= 32 -> smoothing_shifts c = 13 - (3 * c) / 16.
Proof.
  intros Hc. unfold smoothing_shifts, kShiftsAtZero, kShiftsLinearSlope,
    s32_sub, s32_mul, s32_shr.
  rewrite (wrap_s32_id (3 * c)) by (unfold is_s32; lia).
  rewrite Z.shiftr_div_pow2 by lia. change (2 ^ 4) with 16.
  apply wrap_s32_id. unfold is_s32. Z.div_mod_to_equations; lia.
Qed.

Lemma smoothing_shifts_range c :
  0 < c <= 32 -> 7 <= smoothing_shifts c <= 13.
Proof.
  intros Hc. rewrite smoothing_shifts_value by lia.
  Z.div_mod_to_equations; lia.
Qed.

Lemma mean_estimator_fix_step new_value factor mean_value :
  0 <= mean_value < 16384 -> 0 <= new_value <= 16384 -> 0 <= factor ->
  WebRtc_MeanEstimatorFix new_value factor mean_value
  = mean_value + mean_step new_value factor mean_value.
Proof.
  intros Hm Hn Hf.
  unfold WebRtc_MeanEstimatorFix, mean_step, s32_sub, s32_neg, s32_add, s32_shr.
  assert (Hp : 0 < 2 ^ factor) by (apply Z.pow_pos_nonneg; lia).
  rewrite (wrap_s32_id (new_value - mean_value)) by (unfold is_s32; lia).
  cbv zeta. destruct (new_value - mean_value <? 0) eqn:Hneg.
  - apply Z.ltb_lt in Hneg.
    rewrite (wrap_s32_id (- (new_value - mean_value))) by (unfold is_s32; lia).
    rewrite Z.shiftr_div_pow2 by lia.
    assert (0 <= - (new_value - mean_value) / 2 ^ factor
            <= - (new_value - mean_value)).
    { split; [apply Z.div_pos; lia|].
      apply Z.div_le_upper_bound; [lia|]. nia. }
    rewrite (wrap_s32_id (- _)) by (unfold is_s32; lia).
    apply wrap_s32_id. unfold is_s32. lia.
  - apply Z.ltb_ge in Hneg. rewrite Z.shiftr_div_pow2 by lia.
    assert (0 <= (new_value - mean_value) / 2 ^ factor
            <= new_value - mean_value).
    { split; [apply Z.div_pos; lia|].
      apply Z.div_le_upper_bound; [lia|]. nia. }
    apply wrap_s32_id. unfold is_s32. lia.
Qed.

Lemma mean_step_bounds new_value factor mean_value :
  0 <= factor ->
  let step := mean_step new_value factor mean_value in
  (mean_value <= new_value -> 0 <= step <= new_value - mean_value)
  /\ (new_value <= mean_value -> new_value - mean_value <= step <= 0)
  /\ (1 <= factor -> mean_value < new_value -> step < new_value - mean_value).
Proof.
  intros Hf. unfold mean_step. cbv zeta.
  assert (Hp : 0 < 2 ^ factor) by (apply Z.pow_pos_nonneg; lia).
  assert (Hdiv : forall d, 0 <= d -> 0 <= d / 2 ^ factor <= d).
  { intros d Hd. split; [apply Z.div_pos; lia|].
    apply Z.div_le_upper_bound; [lia|]. nia. }
  destruct (new_value - mean_value <? 0) eqn:Hneg;
    [apply Z.ltb_lt in Hneg|apply Z.ltb_ge in Hneg].
  - specialize (Hdiv (- (new_value - mean_value)) ltac:(lia)).
    repeat split; lia.
  - pose proof (Hdiv (new_value - mean_value) Hneg).
    repeat split; try lia.
    intros Hf1 Hlt. apply Z.div_lt; [lia|].
    assert (Hge : 2 ^ 1 <= 2 ^ factor) by (apply Z.pow_le_mono_r; lia).
    change (2 ^ 1) with 2 in Hge. lia.
Qed.

Lemma mean_estimator_fix_bounds new_value factor mean_value :
  0 <= mean_value < 16384 -> 0 <= new_value <= 16384 -> 1 <= factor ->
  let r := WebRtc_MeanEstimatorFix new_value factor mean_value in
  0 <= r < 16384
  /\ Z.min mean_value new_value <= r <= Z.max mean_value new_value.
Proof.
  intros Hm Hn Hf. cbv zeta. rewrite mean_estimator_fix_step by lia.
  pose proof (mean_step_bounds new_value factor mean_value ltac:(lia))
    as Hstep.
  cbv zeta in Hstep. destruct Hstep as (Hup & Hdown & Hstrict).
  destruct (Z.lt_trichotomy mean_value new_value) as [H|[H|H]]; lia.
Qed.

(** ** The candidate scan *)

Lemma fold_min_snoc (b m : Z) (l : list Z) :
  fold_right Z.min b (l ++ [m]) = Z.min m (fold_right Z.min b l).
Proof.
  rewrite fold_right_app. cbn [fold_right].
  induction l as [|x l IH]; cbn [fold_right]; [reflexivity|].
  rewrite IH. lia.
Qed.

Lemma fold_max_snoc (b m : Z) (l : list Z) :
  fold_right Z.max b (l ++ [m]) = Z.max m (fold_right Z.max b l).
Proof.
  rewrite fold_right_app. cbn [fold_right].
  induction l as [|x l IH]; cbn [fold_right]; [reflexivity|].
  rewrite IH. lia.
Qed.

Lemma entries_succ (a : list Z) (n : nat) :
  entries a (Z.of_nat (S n)) = entries a (Z.of_nat n) ++ [read a n].
Proof.
  unfold entries. rewrite !Nat2Z.id, seq_S, map_app. reflexivity.
Qed.

Lemma entries_allocated (a : list Z) (n : Z) :
  length a = Z.to_nat n -> entries a n = a.
Proof.
  intros Hlen. unfold entries. rewrite <- Hlen. clear Hlen.
  apply read_ext; [rewrite length_map, length_seq; reflexivity|].
  intros i Hi. rewrite length_map, length_seq in Hi.
  unfold read at 1. rewrite nth_lookup, list_lookup_fmap, lookup_seq_lt by lia.
  reflexivity.
Qed.

Lemma find_candidates_scanned (h : BinaryDelayEstimator) :
  scanned (mean_bit_counts h) (Z.to_nat (history_size h)) (find_candidates h).
Proof.
  unfold find_candidates.
  apply (for_loop_invariant (scanned (mean_bit_counts h))).
  - unfold scanned. cbn. repeat split; intros; lia.
  - intros i c Hi (Hbest & Hworst & Hle & Hfound & Hnone).
    set (m := read (mean_bit_counts h) i).
    unfold scanned. rewrite entries_succ, fold_min_snoc, fold_max_snoc.
    fold m. rewrite <- Hbest, <- Hworst. cbv zeta.
    destruct (m <? value_best_candidate c) eqn:Hlt.
    + apply Z.ltb_lt in Hlt. cbn [value_best_candidate value_worst_candidate candidate_delay].
      assert (Hb : value_best_candidate c <= 16384)
        by (rewrite Hbest; clear; induction (entries _ _); cbn [fold_right]; lia).
      assert (Hrest :
        (forall j, (j < S i)%nat -> m <= read (mean_bit_counts h) j)
        /\ (m < 16384 ->
            exists k, Z.of_nat i = Z.of_nat k /\ (k < S i)%nat
                      /\ read (mean_bit_counts h) k = m
                      /\ forall j, (j < k)%nat -> m < read (mean_bit_counts h) j)
        /\ (16384 <= m -> Z.of_nat i = -1)).
      { split; [|split].
        - intros j Hj. destruct (decide (j = i)) as [->|]; [subst m; lia|].
          specialize (Hle j). lia.
        - intros _. exists i. repeat split; [lia|]. intros j Hj.
          specialize (Hle j). lia.
        - lia. }
      destruct (value_worst_candidate c <? m) eqn:Hw;
        cbn [value_best_candidate value_worst_candidate candidate_delay];
        [apply Z.ltb_lt in Hw|apply Z.ltb_ge in Hw];
        (split; [lia|]); (split; [lia|]); exact Hrest.
    + apply Z.ltb_ge in Hlt.
      assert (Hrest :
        (forall j, (j < S i)%nat -> value_best_candidate c <= read (mean_bit_counts h) j)
        /\ (value_best_candidate c < 16384 ->
            exists k, candidate_delay c = Z.of_nat k /\ (k < S i)%nat
                      /\ read (mean_bit_counts h) k = value_best_candidate c
                      /\ forall j, (j < k)%nat ->
                           value_best_candidate c < read (mean_bit_counts h) j)
        /\ (16384 <= value_best_candidate c -> candidate_delay c = -1)).
      { split; [|split].
        - intros j Hj. destruct (decide (j = i)) as [->|]; [fold m; lia|].
          apply Hle. lia.
        - intros Hb. destruct (Hfound Hb) as (k & Hk1 & Hk2 & Hk3 & Hk4).
          exists k. repeat split; try assumption. lia.
        - exact Hnone. }
      destruct (value_worst_candidate c <? m) eqn:Hw;
        cbn [value_best_candidate value_worst_candidate candidate_delay];
        [apply Z.ltb_lt in Hw|apply Z.ltb_ge in Hw];
        (split; [lia|]); (split; [lia|]); exact Hrest.
Qed.

(** C8.  In a call the scan runs over the [history_size] entries of
    [mean_bit_counts] as smoothed in that call.  It leaves in
    [value_best_candidate] the minimum of the entries when that is below the
    initial bound 16384 and 16384 otherwise, in [value_worst_candidate] the
    maximum of the entries when that is positive and 0 otherwise, and in
    [candidate_delay] the smallest index holding the minimum (every earlier
    entry is strictly larger); [candidate_delay] stays -1 when no entry is
    below 16384. *)
Theorem candidate_scan_result (handle : BinaryDelayEstimator) (far near : Z) :
  let h := smoothed handle far near in
  let c := find_candidates h in
  let l := entries (mean_bit_counts h) (history_size h) in
  value_best_candidate c = fold_right Z.min 16384 l
  /\ value_worst_candidate c = fold_right Z.max 0 l
  /\ (value_best_candidate c < 16384 ->
      exists k : nat,
        candidate_delay c = Z.of_nat k /\ Z.of_nat k < history_size h
        /\ read (mean_bit_counts h) k = value_best_candidate c
        /\ forall j, (j < k)%nat ->
                     value_best_candidate c < read (mean_bit_counts h) j)
  /\ (16384 <= value_best_candidate c -> candidate_delay c = -1).
Proof.
  intros h c l.
  destruct (find_candidates_scanned h) as (Hbest & Hworst & _ & Hfound & Hnone).
  fold c in Hbest, Hworst, Hfound, Hnone.
  assert (El : entries (mean_bit_counts h) (Z.of_nat (Z.to_nat (history_size h))) = l)
    by (unfold l, entries; rewrite Nat2Z.id; reflexivity).
  rewrite El in Hbest, Hworst.
  split; [exact Hbest|]. split; [exact Hworst|]. split; [|exact Hnone].
  intros Hb. destruct (Hfound Hb) as (k & Hk1 & Hk2 & Hk3 & Hk4).
  exists k. repeat split; try assumption. lia.
Qed.

(** ** The structure of a call *)

Ltac split_ifs :=
  repeat match goal with
         | |- context [if ?b then _ else _] => destruct b
         end.

Lemma for_loop_ext {S : Type} bound (body1 body2 : nat -> S -> S) (s : S) :
  (forall i s', body1 i s' = body2 i s') ->
  for_loop bound body1 s = for_loop bound body2 s.
Proof.
  intros Hext. unfold for_loop. revert s.
  induction (seq 0 (Z.to_nat bound)) as [|i l IH]; intros s; cbn [fold_left];
    [reflexivity|].
  rewrite Hext. apply IH.
Qed.

Lemma compared_word_unfold (h : BinaryDelayEstimator) near :
  compared_word h near
  = if 1 <? near_history_size h
    then read (shift_insert (binary_near_history h) (near_history_size h) near)
              (Z.to_nat (s32_sub (near_history_size h) 1))
    else near.
Proof.
  unfold compared_word, update_near_history.
  destruct (1 <? near_history_size h); reflexivity.
Qed.

(** The fields of the state when the scan starts. *)
Lemma smoothed_fields (h : BinaryDelayEstimator) far near :
  let h2 := smoothed h far near in
  history_size h2 = history_size h
  /\ near_history_size h2 = near_history_size h
  /\ minimum_probability h2 = minimum_probability h
  /\ last_delay_probability h2 = last_delay_probability h
  /\ last_delay h2 = last_delay h
  /\ binary_far_history h2
     = shift_insert (binary_far_history h) (history_size h) far
  /\ far_bit_counts h2
     = shift_insert (far_bit_counts h) (history_size h) (BitCount far)
  /\ binary_near_history h2
     = (if 1 <? near_history_size h
        then shift_insert (binary_near_history h) (near_history_size h) near
        else binary_near_history h)
  /\ bit_counts h2
     = BitCountComparison (compared_word h near) (binary_far_history h2)
         (history_size h) (bit_counts h)
  /\ mean_bit_counts h2
     = for_loop (history_size h)
         (stores_at (fun i m =>
            if 0 <? read (far_bit_counts h2) i
            then WebRtc_MeanEstimatorFix
                   (s32_shl (read (bit_counts h2) i) 9)
                   (smoothing_shifts (read (far_bit_counts h2) i)) m
            else m))
         (mean_bit_counts h).
Proof.
  cbv zeta. rewrite compared_word_unfold.
  unfold smoothed, update_near_history, update_far_history.
  cbn [near_history_size set_far_bit_counts set_binary_far_history
       binary_near_history].
  destruct (1 <? near_history_size h);
    (repeat split; try reflexivity);
    unfold update_mean_bit_counts, update_bit_counts;
    cbn [mean_bit_counts set_mean_bit_counts set_bit_counts history_size
         set_binary_near_history set_far_bit_counts set_binary_far_history
         far_bit_counts bit_counts];
    apply for_loop_ext; intros i m; unfold stores_at;
    destruct (0 <? _); try reflexivity;
    unfold read; rewrite nth_lookup;
    (destruct (m !! i) as [x|] eqn:E;
     [symmetry; apply list_insert_id; exact E
     |symmetry; apply list_insert_ge; apply lookup_ge_None; exact E]).
Qed.

(** The decision part of a call leaves the buffers and the sizes alone. *)
Lemma decision_fields (h : BinaryDelayEstimator) (c : Candidates) :
  let h' := update_last_delay (update_minimum_probability h c) c in
  mean_bit_counts h' = mean_bit_counts h
  /\ far_bit_counts h' = far_bit_counts h
  /\ bit_counts h' = bit_counts h
  /\ binary_far_history h' = binary_far_history h
  /\ binary_near_history h' = binary_near_history h
  /\ history_size h' = history_size h
  /\ near_history_size h' = near_history_size h.
Proof.
  unfold update_last_delay, update_minimum_probability. cbv zeta.
  split_ifs; repeat split; reflexivity.
Qed.

Lemma process_unfold (h : BinaryDelayEstimator) far near :
  fst (WebRtc_ProcessBinarySpectrum h far near)
  = update_last_delay
      (update_minimum_probability (smoothed h far near)
         (find_candidates (smoothed h far near)))
      (find_candidates (smoothed h far near)).
Proof. reflexivity. Qed.

Lemma process_returns (h : BinaryDelayEstimator) far near :
  snd (WebRtc_ProcessBinarySpectrum h far near)
  = last_delay (fst (WebRtc_ProcessBinarySpectrum h far near)).
Proof. reflexivity. Qed.

(** The smoothed means, entry by entry. *)
Lemma smoothed_mean_read (h : BinaryDelayEstimator) far near :
  let h2 := smoothed h far near in
  length (mean_bit_counts h2) = length (mean_bit_counts h)
  /\ (forall i, Z.of_nat i < history_size h ->
                (i < length (mean_bit_counts h))%nat ->
                0 < read (far_bit_counts h2) i ->
                read (mean_bit_counts h2) i
                = WebRtc_MeanEstimatorFix
                    (s32_shl (read (bit_counts h2) i) 9)
                    (smoothing_shifts (read (far_bit_counts h2) i))
                    (read (mean_bit_counts h) i))
  /\ (forall i, read (far_bit_counts h2) i <= 0 ->
                read (mean_bit_counts h2) i = read (mean_bit_counts h) i)
  /\ (forall i, history_size h <= Z.of_nat i ->
                read (mean_bit_counts h2) i = read (mean_bit_counts h) i).
Proof.
  intros h2.
  destruct (smoothed_fields h far near)
    as (_ & _ & _ & _ & _ & _ & _ & _ & _ & Hmean).
  fold h2 in Hmean. rewrite Hmean.
  match goal with
  | |- context [for_loop _ (stores_at ?g) _] =>
      destruct (pointwise_loop g (history_size h) (mean_bit_counts h))
        as (Hlen & Hdone & Hrest)
  end.
  split; [exact Hlen|]. split; [|split].
  - intros i Hi Hil Hpos. rewrite Hdone by lia.
    destruct (0 <? _) eqn:E; [reflexivity|]. apply Z.ltb_ge in E. lia.
  - intros i Hle.
    destruct (decide ((i < Z.to_nat (history_size h))%nat
                      /\ (i < length (mean_bit_counts h))%nat)) as [[H1 H2]|Hn].
    + rewrite Hdone by assumption.
      destruct (0 <? _) eqn:E; [apply Z.ltb_lt in E; lia|reflexivity].
    + destruct (decide (i < Z.to_nat (history_size h))%nat) as [H1|H1].
      * rewrite !read_beyond; [reflexivity|lia|lia].
      * apply Hrest. lia.
  - intros i Hi. apply Hrest. lia.
Qed.

(** ** The state when the scan starts *)

Lemma allocated_smoothed (h : BinaryDelayEstimator) far near :
  allocated h -> allocated (smoothed h far near).
Proof.
  intros [Hhs Hnhs Hm Hf Hb Hfar Hnear].
  destruct (smoothed_fields h far near)
    as (E1 & E2 & _ & _ & _ & E6 & E7 & E8 & E9 & _).
  destruct (smoothed_mean_read h far near) as (Hlen & _).
  cbv zeta in *.
  constructor; rewrite ?E1, ?E2; try assumption.
  - rewrite Hlen. exact Hm.
  - rewrite E7, shift_insert_length by (assumption || lia). exact Hf.
  - rewrite E9.
    destruct (BitCountComparison_read (compared_word h near)
                (binary_far_history (smoothed h far near)) (history_size h)
                (bit_counts h)) as (Hl & _).
    cbv zeta in Hl. rewrite Hl. exact Hb.
  - rewrite E6, shift_insert_length by (assumption || lia). exact Hfar.
  - rewrite E8. destruct (1 <? near_history_size h) eqn:E; [|exact Hnear].
    apply Z.ltb_lt in E. unfold is_s32 in Hnhs.
    rewrite shift_insert_length by (assumption || lia). exact Hnear.
Qed.

Lemma compared_word_u32 (h : BinaryDelayEstimator) near :
  allocated h -> Forall is_u32 (binary_near_history h) -> is_u32 near ->
  is_u32 (compared_word h near).
Proof.
  intros Ha Hn Hnear. rewrite compared_word_unfold.
  destruct (1 <? near_history_size h) eqn:E; [|exact Hnear].
  apply Z.ltb_lt in E. destruct Ha as [_ Hnhs _ _ _ _ Hlen].
  unfold is_s32 in Hnhs.
  apply (proj1 (Forall_read is_u32 _)).
  - apply shift_insert_Forall; (assumption || lia).
  - rewrite shift_insert_length, Hlen by (assumption || lia).
    unfold s32_sub. rewrite wrap_s32_id by (unfold is_s32; lia). lia.
Qed.

(** Ranges of the buffers when the scan starts. *)
Lemma smoothed_ranges (h : BinaryDelayEstimator) far near :
  estimator_inv h -> is_u32 far -> is_u32 near ->
  let h2 := smoothed h far near in
  Forall is_u32 (binary_far_history h2)
  /\ Forall is_u32 (binary_near_history h2)
  /\ Forall (fun c => 0 <= c <= 32) (far_bit_counts h2)
  /\ Forall (fun c => 0 <= c <= 32) (bit_counts h2)
  /\ Forall (fun m => 0 <= m < 16384) (mean_bit_counts h2).
Proof.
  intros [Ha Hfar Hnear Hfbc Hmean _ _ _] Hf Hn h2.
  pose proof (allocated_smoothed h far near Ha) as Ha2. fold h2 in Ha2.
  destruct (smoothed_fields h far near)
    as (E1 & E2 & _ & _ & _ & E6 & E7 & E8 & E9 & _).
  fold h2 in E1, E2, E6, E7, E8, E9.
  pose proof Ha as [Hhs Hnhs Lm Lf Lb Lfar Lnear].
  unfold is_s32 in Hnhs.
  assert (Hfar2 : Forall is_u32 (binary_far_history h2)).
  { rewrite E6. apply shift_insert_Forall; (assumption || lia). }
  assert (Hfbc2 : Forall (fun c => 0 <= c <= 32) (far_bit_counts h2)).
  { rewrite E7. apply shift_insert_Forall; try (assumption || lia).
    apply BitCount_popcount. exact Hf. }
  assert (Hbc2 : Forall (fun c => 0 <= c <= 32) (bit_counts h2)).
  { apply Forall_read. intros i Hi.
    destruct Ha2 as [_ _ _ _ Lb2 Lfar2 _]. rewrite E1 in Lb2, Lfar2.
    rewrite E9.
    destruct (BitCountComparison_read (compared_word h near)
                (binary_far_history h2) (history_size h) (bit_counts h))
      as (_ & Hdone & _).
    cbv zeta in Hdone. rewrite Hdone by lia.
    apply BitCount_popcount, lxor_u32.
    - apply compared_word_u32; assumption.
    - apply (proj1 (Forall_read is_u32 _) Hfar2). lia. }
  split; [exact Hfar2|]. split; [|split; [exact Hfbc2|split; [exact Hbc2|]]].
  - rewrite E8. destruct (1 <? near_history_size h) eqn:E; [|exact Hnear].
    apply Z.ltb_lt in E. apply shift_insert_Forall; (assumption || lia).
  - destruct (smoothed_mean_read h far near) as (Hlen & Hupd & Hskip & _).
    fold h2 in Hlen, Hupd, Hskip.
    apply Forall_read. intros i Hi. rewrite Hlen in Hi.
    pose proof (proj1 (Forall_read _ _) Hmean i Hi) as Hmi.
    destruct Ha2 as [_ _ _ Lf2 Lb2 _ _]. rewrite E1 in Lf2, Lb2.
    pose proof (proj1 (Forall_read _ _) Hfbc2 i ltac:(lia)) as Hfi.
    pose proof (proj1 (Forall_read _ _) Hbc2 i ltac:(lia)) as Hbi.
    cbv beta in Hmi, Hfi, Hbi.
    destruct (Z.eq_dec (read (far_bit_counts h2) i) 0) as [Hz|Hnz].
    + rewrite Hskip by lia. exact Hmi.
    + rewrite Hupd by lia.
      apply mean_estimator_fix_bounds; [exact Hmi| |].
      * unfold s32_shl. rewrite Z.shiftl_mul_pow2 by lia.
        change (2 ^ 9) with 512.
        rewrite wrap_s32_id by (unfold is_s32; lia). lia.
      * pose proof (smoothing_shifts_range (read (far_bit_counts h2) i)). lia.
Qed.

(** ** The decision *)

Ltac case_ltb :=
  repeat match goal with
         | |- context [?x <? ?y] =>
             let E := fresh "E" in
             destruct (x <? y) eqn:E;
             [apply Z.ltb_lt in E | apply Z.ltb_ge in E]
         end.

Lemma fold_max_bounds (bound : Z) (l : list Z) :
  0 < bound -> Forall (fun m => 0 <= m < bound) l ->
  0 <= fold_right Z.max 0 l < bound.
Proof.
  intros Hb Hl. induction Hl as [|x l Hx _ IH]; cbn [fold_right]; lia.
Qed.

(** Under the invariant the scan always finds a candidate. *)
Lemma candidates_in_range (h : BinaryDelayEstimator) far near :
  estimator_inv h -> is_u32 far -> is_u32 near ->
  let h2 := smoothed h far near in
  let c := find_candidates h2 in
  0 <= candidate_delay c < history_size h
  /\ 0 <= value_best_candidate c < 16384
  /\ 0 <= value_worst_candidate c < 16384
  /\ read (mean_bit_counts h2) (Z.to_nat (candidate_delay c))
     = value_best_candidate c.
Proof.
  intros Hinv Hf Hn h2 c.
  destruct (smoothed_ranges h far near Hinv Hf Hn) as (_ & _ & _ & _ & Hmean).
  fold h2 in Hmean.
  pose proof (allocated_smoothed h far near (inv_allocated h Hinv)) as Ha2.
  fold h2 in Ha2. destruct Ha2 as [Hhs _ Lm _ _ _ _].
  destruct (smoothed_fields h far near) as (E1 & _). fold h2 in E1.
  destruct (find_candidates_scanned h2) as (_ & Hworst & Hle & Hfound & _).
  fold c in Hworst, Hle, Hfound.
  rewrite Z2Nat.id, entries_allocated in Hworst by (assumption || lia).
  pose proof (proj1 (Forall_read _ _) Hmean) as Hrd. cbv beta in Hrd.
  assert (Hb : value_best_candidate c < 16384).
  { specialize (Hle 0%nat ltac:(lia)). specialize (Hrd 0%nat ltac:(lia)). lia. }
  destruct (Hfound Hb) as (k & Hk1 & Hk2 & Hk3 & _).
  rewrite Hk1, Nat2Z.id, Hk3, <- E1.
  specialize (Hrd k ltac:(lia)).
  pose proof (fold_max_bounds 16384 _ ltac:(lia) Hmean).
  repeat split; lia.
Qed.

(** The floor never rises and never falls below its lower limit, whatever
    the candidates are. *)
Lemma minimum_probability_step (h : BinaryDelayEstimator) (c : Candidates) :
  let h' := update_last_delay (update_minimum_probability h c) c in
  minimum_probability h' <= minimum_probability h
  /\ (kProbabilityLowerLimit <= minimum_probability h ->
      kProbabilityLowerLimit <= minimum_probability h').
Proof.
  unfold update_last_delay, update_minimum_probability, kProbabilityLowerLimit.
  cbv zeta. case_ltb; cbn; case_ltb; cbn; lia.
Qed.

(** The decision in unbounded arithmetic. *)
Lemma update_last_delay_cases (h : BinaryDelayEstimator) (c : Candidates) :
  is_s32 (last_delay_probability h + 1) ->
  is_s32 (value_best_candidate c + kProbabilityOffset) ->
  let h' := update_last_delay h c in
  let best := value_best_candidate c in
  let worst := value_worst_candidate c in
  let probability := last_delay_probability h + 1 in
  minimum_probability h' = minimum_probability h
  /\ (worst > best + 1024 ->
      (best < minimum_probability h \/ best < probability ->
       last_delay h' = candidate_delay c)
      /\ (best < probability -> last_delay_probability h' = best)
      /\ (~ best < probability -> last_delay_probability h' = probability)
      /\ (~ best < minimum_probability h -> ~ best < probability ->
          last_delay h' = last_delay h))
  /\ (~ worst > best + 1024 ->
      last_delay h' = last_delay h
      /\ last_delay_probability h' = probability).
Proof.
  intros H1 H2. unfold update_last_delay, s32_add.
  rewrite !wrap_s32_id by assumption.
  unfold kProbabilityOffset in *. cbv zeta.
  case_ltb; cbn; case_ltb; cbn; case_ltb; cbn in *; repeat split; intros; lia.
Qed.

(** ** Construction and initialisation *)

Lemma create_some (malloc_ok : nat -> bool) max_delay lookahead h :
  WebRtc_CreateBinaryDelayEstimator malloc_ok max_delay lookahead = Some h ->
  0 <= max_delay /\ 0 <= lookahead /\ 1 < s32_add max_delay lookahead
  /\ h = {|
      mean_bit_counts := replicate (Z.to_nat (s32_add max_delay lookahead)) 0;
      far_bit_counts := replicate (Z.to_nat (s32_add max_delay lookahead)) 0;
      bit_counts := replicate (Z.to_nat (s32_add max_delay lookahead)) 0;
      binary_far_history :=
        replicate (Z.to_nat (s32_add max_delay lookahead)) 0;
      binary_near_history := replicate (Z.to_nat (s32_add lookahead 1)) 0;
      minimum_probability := 0;
      last_delay_probability := 0;
      last_delay := 0;
      history_size := s32_add max_delay lookahead;
      near_history_size := s32_add lookahead 1
    |}.
Proof.
  unfold WebRtc_CreateBinaryDelayEstimator. cbv zeta.
  destruct (0 <=? max_delay) eqn:E1; [|discriminate].
  destruct (0 <=? lookahead) eqn:E2; [|discriminate].
  destruct (1 <? s32_add max_delay lookahead) eqn:E3; [|discriminate].
  destruct (malloc_ok 0%nat); [|discriminate]. cbn [andb].
  destruct (_ || _); [discriminate|].
  intros [= <-]. repeat split; lia.
Qed.

Lemma create_allocated (malloc_ok : nat -> bool) max_delay lookahead h :
  WebRtc_CreateBinaryDelayEstimator malloc_ok max_delay lookahead = Some h ->
  allocated h.
Proof.
  intros H. destruct (create_some _ _ _ _ H) as (_ & _ & Hhs & ->).
  pose proof (wrap_s32_range (max_delay + lookahead)) as R1.
  pose proof (wrap_s32_range (lookahead + 1)) as R2.
  unfold is_s32 in R1. fold (s32_add max_delay lookahead) in R1.
  fold (s32_add lookahead 1) in R2.
  constructor; cbn; rewrite ?length_replicate; (reflexivity || assumption || lia).
Qed.

Lemma memset0_all (a : list Z) n : length a = n -> memset0 a n = replicate n 0.
Proof.
  intros <-. unfold memset0. rewrite Nat.min_id, drop_ge, app_nil_r by lia.
  reflexivity.
Qed.

Lemma read_replicate n (x : Z) i : (i < n)%nat -> read (replicate n x) i = x.
Proof. intros Hi. apply read_lookup, lookup_replicate_2, Hi. Qed.

Lemma init_fields (h : BinaryDelayEstimator) :
  allocated h ->
  WebRtc_InitBinaryDelayEstimator h = {|
    mean_bit_counts := replicate (Z.to_nat (history_size h)) 10240;
    far_bit_counts := replicate (Z.to_nat (history_size h)) 0;
    bit_counts := replicate (Z.to_nat (history_size h)) 0;
    binary_far_history := replicate (Z.to_nat (history_size h)) 0;
    binary_near_history := replicate (Z.to_nat (near_history_size h)) 0;
    minimum_probability := 16384;
    last_delay_probability := 16384;
    last_delay := -2;
    history_size := history_size h;
    near_history_size := near_history_size h
  |}.
Proof.
  intros [Hhs Hnhs Lm Lf Lb Lfar Lnear].
  destruct h as [mean fbc bc far near mp ldp ld hs nhs].
  cbn [mean_bit_counts far_bit_counts bit_counts binary_far_history
       binary_near_history history_size near_history_size] in *.
  unfold WebRtc_InitBinaryDelayEstimator.
  cbv [set_last_delay set_last_delay_probability set_minimum_probability
       set_mean_bit_counts set_far_bit_counts set_binary_near_history
       set_binary_far_history set_bit_counts
       mean_bit_counts far_bit_counts bit_counts binary_far_history
       binary_near_history minimum_probability last_delay_probability
       last_delay history_size near_history_size].
  rewrite !memset0_all by assumption.
  change (s32_shl 32 9) with 16384.
  f_equal.
  change (for_loop hs _ mean)
    with (for_loop hs (stores_at (fun _ _ => s32_shl 20 9)) mean).
  destruct (pointwise_loop (fun _ _ => s32_shl 20 9) hs mean)
    as (Hlen & Hdone & _).
  cbv zeta in Hlen, Hdone.
  apply read_ext; [rewrite Hlen, length_replicate; exact Lm|].
  intros i Hi. rewrite Hlen in Hi.
  rewrite Hdone, read_replicate by lia. reflexivity.
Qed.

Lemma init_inv (h : BinaryDelayEstimator) :
  allocated h -> estimator_inv (WebRtc_InitBinaryDelayEstimator h).
Proof.
  intros Ha. rewrite init_fields by exact Ha.
  destruct Ha as [Hhs Hnhs Lm Lf Lb Lfar Lnear].
  constructor; cbn.
  - constructor; cbn; rewrite ?length_replicate; (reflexivity || assumption).
  - apply Forall_replicate. unfold is_u32. lia.
  - apply Forall_replicate. unfold is_u32. lia.
  - apply Forall_replicate. lia.
  - apply Forall_replicate. lia.
  - unfold kProbabilityLowerLimit. lia.
  - unfold is_s32. lia.
  - left. reflexivity.
Qed.

(** ** The invariant across calls *)

Lemma decision_last_delay_probability (h : BinaryDelayEstimator)
    (c : Candidates) :
  is_s32 (value_best_candidate c) ->
  is_s32 (last_delay_probability
            (update_last_delay (update_minimum_probability h c) c)).
Proof.
  intros Hb. unfold update_last_delay. cbv zeta.
  split_ifs; cbn; first [exact Hb | apply wrap_s32_range].
Qed.

Lemma decision_last_delay (h : BinaryDelayEstimator) (c : Candidates) :
  let h' := update_last_delay (update_minimum_probability h c) c in
  last_delay h' = last_delay h \/ last_delay h' = candidate_delay c.
Proof.
  unfold update_last_delay, update_minimum_probability. cbv zeta.
  split_ifs; cbn; auto.
Qed.

Lemma process_inv (h : BinaryDelayEstimator) far near :
  estimator_inv h -> is_u32 far -> is_u32 near ->
  estimator_inv (fst (WebRtc_ProcessBinarySpectrum h far near)).
Proof.
  intros Hinv Hf Hn. rewrite process_unfold.
  set (h2 := smoothed h far near). set (c := find_candidates h2).
  destruct (smoothed_ranges h far near Hinv Hf Hn) as (R1 & R2 & R3 & _ & R5).
  pose proof (allocated_smoothed h far near (inv_allocated h Hinv)) as Ha2.
  destruct (candidates_in_range h far near Hinv Hf Hn) as (C1 & C2 & C3 & _).
  destruct (smoothed_fields h far near)
    as (E1 & _ & E3 & E4 & E5 & _).
  fold h2 in R1, R2, R3, R5, Ha2, E1, E3, E4, E5. fold c in C1, C2, C3.
  destruct (decision_fields h2 c) as (D1 & D2 & D3 & D4 & D5 & D6 & D7).
  destruct (minimum_probability_step h2 c) as (M1 & M2).
  cbv zeta in *.
  set (h' := update_last_delay (update_minimum_probability h2 c) c) in *.
  destruct Hinv as [_ _ _ _ _ Hmp Hldp Hld].
  constructor.
  - destruct Ha2. constructor; rewrite ?D1, ?D2, ?D3, ?D4, ?D5, ?D6, ?D7;
      assumption.
  - rewrite D4. exact R1.
  - rewrite D5. exact R2.
  - rewrite D2. exact R3.
  - rewrite D1. exact R5.
  - rewrite E3 in M1, M2. lia.
  - apply decision_last_delay_probability. unfold is_s32.
    subst h' c h2. lia.
  - rewrite D6, E1.
    destruct (decision_last_delay h2 c) as [L|L]; fold h' in L; rewrite L.
    + rewrite E5. exact Hld.
    + right. subst h' c h2. exact C1.
Qed.

Lemma process_all_cons (h : BinaryDelayEstimator) frames far near :
  process_all h ((far, near) :: frames)
  = process_all (fst (WebRtc_ProcessBinarySpectrum h far near)) frames.
Proof. reflexivity. Qed.

Lemma process_all_snoc (h : BinaryDelayEstimator) frames far near :
  process_all h (frames ++ [(far, near)])
  = fst (WebRtc_ProcessBinarySpectrum (process_all h frames) far near).
Proof. unfold process_all. rewrite fold_left_app. reflexivity. Qed.

Lemma process_all_inv (h : BinaryDelayEstimator) frames :
  estimator_inv h -> Forall frame_ok frames ->
  estimator_inv (process_all h frames).
Proof.
  intros Hinv Hfr. revert h Hinv.
  induction Hfr as [|[far near] frames [Hf Hn] _ IH]; intros h Hinv;
    [exact Hinv|].
  rewrite process_all_cons. apply IH. apply process_inv; assumption.
Qed.

Lemma process_all_history_size (h : BinaryDelayEstimator) frames :
  history_size (process_all h frames) = history_size h
  /\ near_history_size (process_all h frames) = near_history_size h.
Proof.
  revert h. induction frames as [|[far near] frames IH]; intros h;
    [split; reflexivity|].
  rewrite process_all_cons.
  destruct (IH (fst (WebRtc_ProcessBinarySpectrum h far near))) as (-> & ->).
  rewrite process_unfold.
  destruct (decision_fields (smoothed h far near)
              (find_candidates (smoothed h far near)))
    as (_ & _ & _ & _ & _ & -> & ->).
  destruct (smoothed_fields h far near) as (-> & -> & _).
  split; reflexivity.
Qed.

(** ** The near-end history *)

Lemma read_app_zeros (l : list Z) n i :
  read (l ++ replicate n 0) i = read l i.
Proof.
  unfold read. destruct (Nat.lt_ge_cases i (length l)) as [Hlt|Hge].
  - apply app_nth1. exact Hlt.
  - rewrite app_nth2 by exact Hge. rewrite (nth_overflow l) by exact Hge.
    destruct (Nat.lt_ge_cases (i - length l) n) as [H|H].
    + fold (read (replicate n 0) (i - length l)). apply read_replicate, H.
    + apply nth_overflow. rewrite length_replicate. exact H.
Qed.

Lemma read_cons_succ (x : Z) (l : list Z) i : read (x :: l) (S i) = read l i.
Proof. reflexivity. Qed.

Lemma read_take (l : list Z) n i : (i < n)%nat -> read (take n l) i = read l i.
Proof.
  intros Hi. unfold read. rewrite !nth_lookup, lookup_take_lt by exact Hi.
  reflexivity.
Qed.

(** The near-end words of the frames processed so far, newest first,
    followed by the zero words of the initialisation. *)
Lemma near_history_tracks (h0 : BinaryDelayEstimator) (L : nat) frames :
  allocated h0 -> near_history_size h0 = Z.of_nat L + 1 -> (1 <= L)%nat ->
  binary_near_history
    (process_all (WebRtc_InitBinaryDelayEstimator h0) frames)
  = take (L + 1) (rev (map snd frames) ++ replicate (L + 1) 0).
Proof.
  intros Ha Hnhs HL.
  pose proof (alloc_near_history_size _ Ha) as Hint.
  unfold is_s32 in Hint. rewrite Hnhs in Hint.
  induction frames as [|[far near] frames IH] using rev_ind.
  - cbn [process_all fold_left map rev app]. rewrite init_fields by exact Ha.
    cbn [binary_near_history]. rewrite Hnhs.
    replace (Z.to_nat (Z.of_nat L + 1)) with (L + 1)%nat by lia.
    rewrite take_ge by (rewrite length_replicate; lia). reflexivity.
  - rewrite process_all_snoc, process_unfold.
    set (h := process_all (WebRtc_InitBinaryDelayEstimator h0) frames) in *.
    destruct (decision_fields (smoothed h far near)
                (find_candidates (smoothed h far near)))
      as (_ & _ & _ & _ & -> & _).
    destruct (smoothed_fields h far near)
      as (_ & _ & _ & _ & _ & _ & _ & -> & _).
    assert (Hn : near_history_size h = Z.of_nat L + 1).
    { subst h. destruct (process_all_history_size
                  (WebRtc_InitBinaryDelayEstimator h0) frames) as (_ & ->).
      rewrite init_fields by exact Ha. exact Hnhs. }
    rewrite Hn.
    destruct (1 <? Z.of_nat L + 1) eqn:E; [|apply Z.ltb_ge in E; lia].
    assert (Hlen : length (binary_near_history h) = Z.to_nat (Z.of_nat L + 1)).
    { rewrite IH, length_take, length_app, length_replicate. lia. }
    rewrite shift_insert_cons by (exact Hlen || lia).
    replace (Z.to_nat (Z.of_nat L + 1) - 1)%nat with L by lia.
    rewrite IH, take_take, Nat.min_l by lia.
    rewrite map_app, rev_app_distr. cbn [map rev app snd].
    replace (L + 1)%nat with (S L) by lia. reflexivity.
Qed.

(** * The claims about a call *)

(** The example estimators: the short run has not decided yet, the long one
    reports the two frames of delay plus the frame of lookahead. *)
Example example_running_undecided :
  WebRtc_binary_last_delay example_running = -2.
Proof. reflexivity. Qed.

Example example_locked_delay :
  WebRtc_binary_last_delay example_locked = 3
  /\ candidate_delay (find_candidates example_locked) = 3.
Proof. split; reflexivity. Qed.

(** The scan prefers the lowest index among equal minima and keeps the first
    of equal maxima. *)
Example find_candidates_ties :
  find_candidates (mkEstimator [9; 4; 7; 4; 9] [] [] [] [] 0 0 0 5 1)
  = mkCandidates 1 4 9.
Proof. reflexivity. Qed.

Example find_candidates_none :
  find_candidates (mkEstimator [16384; 20000] [] [] [] [] 0 0 0 2 1)
  = mkCandidates (-1) 16384 20000.
Proof. reflexivity. Qed.

(** C7.  In a call, a slot [i] below [history_size] whose far-end bit count
    is zero after the shift keeps its smoothed mean: [mean_bit_counts[i]]
    after the call is [mean_bit_counts[i]] before it. *)
Theorem zero_far_bit_count_keeps_mean (handle : BinaryDelayEstimator)
    (far near : Z) (i : nat) :
  let handle' := fst (WebRtc_ProcessBinarySpectrum handle far near) in
  Z.of_nat i < history_size handle ->
  read (far_bit_counts handle') i = 0 ->
  read (mean_bit_counts handle') i = read (mean_bit_counts handle) i.
Proof.
  intros h' Hi Hzero. subst h'. rewrite process_unfold in *.
  destruct (decision_fields (smoothed handle far near)
              (find_candidates (smoothed handle far near)))
    as (D1 & D2 & _).
  cbv zeta in D1, D2. rewrite D1. rewrite D2 in Hzero.
  destruct (smoothed_mean_read handle far near) as (_ & _ & Hskip & _).
  apply Hskip. lia.
Qed.

Lemma zero_far_bit_count_keeps_mean_witness :
  let handle' :=
    fst (WebRtc_ProcessBinarySpectrum example_running 4080 255) in
  Z.of_nat 1 < history_size example_running /\
  read (far_bit_counts handle') 1 = 0 /\
  read (mean_bit_counts handle') 1 = read (mean_bit_counts example_running) 1.
Proof.
  assert (H1 : Z.of_nat 1 < history_size example_running)
    by (vm_compute; reflexivity).
  assert (H2 : read (far_bit_counts
                 (fst (WebRtc_ProcessBinarySpectrum example_running 4080 255)))
                 1 = 0)
    by (vm_compute; reflexivity).
  cbv zeta. split; [exact H1|]. split; [exact H2|].
  exact (zero_far_bit_count_keeps_mean example_running 4080 255 1 H1 H2).
Defined.

(** C5.  In a call on a state satisfying the invariant, a slot [i] below
    [history_size] whose far-end bit count [f] is positive after the shift
    gets [mean_bit_counts[i] += step]: with [c] the bit count compared in
    this call, [shift = 13 - ((3 * f) >> 4)] and
    [diff = (c << 9) - mean_bit_counts[i]], the step is [diff >> shift] for
    a non-negative [diff] and [-((-diff) >> shift)] for a negative one; and
    this is the value [WebRtc_MeanEstimatorFix] stores when called with
    [c << 9], that shift and the old mean. *)
Theorem smoothing_update_step (handle : BinaryDelayEstimator)
    (far near : Z) (i : nat) :
  let handle' := fst (WebRtc_ProcessBinarySpectrum handle far near) in
  let f := read (far_bit_counts handle') i in
  let c := read (bit_counts handle') i in
  let m := read (mean_bit_counts handle) i in
  let shift := 13 - Z.shiftr (3 * f) 4 in
  let diff := Z.shiftl c 9 - m in
  let step :=
    if diff <? 0 then - Z.shiftr (- diff) shift else Z.shiftr diff shift in
  estimator_inv handle -> is_u32 far -> is_u32 near ->
  Z.of_nat i < history_size handle ->
  0 < f ->
  read (mean_bit_counts handle') i = m + step
  /\ read (mean_bit_counts handle') i
     = WebRtc_MeanEstimatorFix (Z.shiftl c 9) shift m.
Proof.
  intros h' f c m shift diff step Hinv Hf Hn Hi Hpos.
  subst step diff shift m c f h'. rewrite process_unfold in *.
  destruct (decision_fields (smoothed handle far near)
              (find_candidates (smoothed handle far near)))
    as (D1 & D2 & D3 & _).
  cbv zeta in D1, D2, D3.
  rewrite D1, D2, D3 in *. clear D1 D2 D3.
  set (h2 := smoothed handle far near) in *.
  destruct (smoothed_ranges handle far near Hinv Hf Hn)
    as (_ & _ & R3 & R4 & _).
  pose proof (allocated_smoothed handle far near (inv_allocated _ Hinv)) as Ha2.
  destruct (smoothed_fields handle far near) as (E1 & _).
  fold h2 in R3, R4, Ha2, E1.
  destruct Ha2 as [_ _ _ Lf2 Lb2 _ _]. rewrite E1 in Lf2, Lb2.
  destruct (inv_allocated _ Hinv) as [Hhs _ Lm _ _ _ _].
  pose proof (proj1 (Forall_read _ _) R3 i ltac:(lia)) as Hfi.
  pose proof (proj1 (Forall_read _ _) R4 i ltac:(lia)) as Hci.
  pose proof (proj1 (Forall_read _ _) (inv_mean_bit_counts _ Hinv) i
                ltac:(lia)) as Hmi.
  cbv beta in Hfi, Hci, Hmi.
  destruct (smoothed_mean_read handle far near) as (_ & Hupd & _).
  fold h2 in Hupd. rewrite Hupd by lia.
  set (f := read (far_bit_counts h2) i) in *.
  set (c := read (bit_counts h2) i) in *.
  set (m := read (mean_bit_counts handle) i) in *.
  assert (Hshl : s32_shl c 9 = Z.shiftl c 9).
  { unfold s32_shl. apply wrap_s32_id. rewrite Z.shiftl_mul_pow2 by lia.
    change (2 ^ 9) with 512. unfold is_s32. lia. }
  assert (Hnew : 0 <= Z.shiftl c 9 <= 16384).
  { rewrite Z.shiftl_mul_pow2 by lia. change (2 ^ 9) with 512. lia. }
  assert (Hsh : smoothing_shifts f = 13 - Z.shiftr (3 * f) 4).
  { rewrite smoothing_shifts_value by lia.
    rewrite Z.shiftr_div_pow2 by lia. reflexivity. }
  pose proof (smoothing_shifts_range f ltac:(lia)) as Hrange.
  rewrite Hshl, Hsh in *. split; [|reflexivity].
  set (shift := 13 - Z.shiftr (3 * f) 4) in *.
  rewrite mean_estimator_fix_step by lia. unfold mean_step. cbv zeta.
  rewrite !Z.shiftr_div_pow2 by lia. reflexivity.
Qed.

Ltac example_inv :=
  constructor;
  [ constructor; first [reflexivity | unfold is_s32; cbn; lia]
  | repeat constructor; unfold is_u32; lia
  | repeat constructor; unfold is_u32; lia
  | repeat constructor; lia
  | repeat constructor; lia
  | unfold kProbabilityLowerLimit; cbn; lia
  | unfold is_s32; cbn; lia
  | cbn; lia ].

Lemma smoothing_update_step_witness :
  let handle' :=
    fst (WebRtc_ProcessBinarySpectrum example_running 4080 255) in
  let f := read (far_bit_counts handle') 0 in
  let c := read (bit_counts handle') 0 in
  let m := read (mean_bit_counts example_running) 0 in
  let shift := 13 - Z.shiftr (3 * f) 4 in
  let diff := Z.shiftl c 9 - m in
  let step :=
    if diff <? 0 then - Z.shiftr (- diff) shift else Z.shiftr diff shift in
  estimator_inv example_running /\ is_u32 4080 /\ is_u32 255 /\
  Z.of_nat 0 < history_size example_running /\ 0 < f /\
  read (mean_bit_counts handle') 0 = m + step /\
  read (mean_bit_counts handle') 0
  = WebRtc_MeanEstimatorFix (Z.shiftl c 9) shift m.
Proof.
  assert (H1 : estimator_inv example_running) by example_inv.
  assert (H2 : is_u32 4080) by (unfold is_u32; lia).
  assert (H3 : is_u32 255) by (unfold is_u32; lia).
  assert (H4 : Z.of_nat 0 < history_size example_running)
    by (vm_compute; reflexivity).
  assert (H5 : 0 < read (far_bit_counts
                  (fst (WebRtc_ProcessBinarySpectrum example_running 4080 255)))
                  0)
    by (vm_compute; reflexivity).
  cbv zeta. repeat (split; [assumption|]).
  exact (smoothing_update_step example_running 4080 255 0 H1 H2 H3 H4 H5).
Defined.

(** C2.  In a call on a state satisfying the invariant whose
    [last_delay_probability] is not the largest [int32_t], the counter is
    first incremented by one.  Then, when [value_worst_candidate] exceeds
    [value_best_candidate + 1024]: [last_delay] becomes [candidate_delay] if
    [value_best_candidate] is below [minimum_probability] (as left by the
    floor update of this call) or below the incremented counter; in the
    second case, and only then, the counter is reset to
    [value_best_candidate]; if neither comparison holds [last_delay] is
    unchanged.  When the gap is not above 1024, [last_delay] is unchanged
    and the counter keeps its incremented value. *)
Theorem last_delay_decision (handle : BinaryDelayEstimator) (far near : Z) :
  let c := find_candidates (smoothed handle far near) in
  let handle' := fst (WebRtc_ProcessBinarySpectrum handle far near) in
  let best := value_best_candidate c in
  let worst := value_worst_candidate c in
  let probability := last_delay_probability handle + 1 in
  estimator_inv handle -> is_u32 far -> is_u32 near ->
  last_delay_probability handle < 2 ^ 31 - 1 ->
  (worst > best + 1024 ->
   (best < minimum_probability handle' \/ best < probability ->
    last_delay handle' = candidate_delay c)
   /\ (best < probability -> last_delay_probability handle' = best)
   /\ (~ best < probability -> last_delay_probability handle' = probability)
   /\ (~ best < minimum_probability handle' -> ~ best < probability ->
       last_delay handle' = last_delay handle))
  /\ (~ worst > best + 1024 ->
      last_delay handle' = last_delay handle
      /\ last_delay_probability handle' = probability).
Proof.
  intros c h' best worst probability Hinv Hf Hn Hmax.
  subst probability worst best h'. rewrite process_unfold. fold c.
  destruct (candidates_in_range handle far near Hinv Hf Hn) as (_ & C2 & _).
  fold c in C2.
  destruct (smoothed_fields handle far near) as (_ & _ & _ & E4 & E5 & _).
  set (h2 := smoothed handle far near) in *.
  set (h1 := update_minimum_probability h2 c).
  assert (E4' : last_delay_probability h1 = last_delay_probability handle).
  { rewrite <- E4. subst h1. unfold update_minimum_probability.
    split_ifs; reflexivity. }
  assert (E5' : last_delay h1 = last_delay handle).
  { rewrite <- E5. subst h1. unfold update_minimum_probability.
    split_ifs; reflexivity. }
  pose proof (inv_last_delay_probability _ Hinv) as Hldp.
  unfold is_s32 in Hldp.
  destruct (update_last_delay_cases h1 c) as (Hmp & Hgap & Hnogap).
  - rewrite E4'. unfold is_s32. lia.
  - unfold kProbabilityOffset, is_s32. lia.
  - cbv zeta in Hmp, Hgap, Hnogap.
    rewrite Hmp. rewrite E4', E5' in *. split; assumption.
Qed.

Lemma last_delay_decision_witness :
  let c := find_candidates (smoothed example_locked 3108545609 840380863) in
  let handle' := fst (WebRtc_ProcessBinarySpectrum example_locked 3108545609 840380863) in
  let best := value_best_candidate c in
  let worst := value_worst_candidate c in
  let probability := last_delay_probability example_locked + 1 in
  estimator_inv example_locked /\ is_u32 3108545609 /\ is_u32 840380863 /\
  last_delay_probability example_locked < 2 ^ 31 - 1 /\
  (worst > best + 1024 ->
   (best < minimum_probability handle' \/ best < probability ->
    last_delay handle' = candidate_delay c)
   /\ (best < probability -> last_delay_probability handle' = best)
   /\ (~ best < probability -> last_delay_probability handle' = probability)
   /\ (~ best < minimum_probability handle' -> ~ best < probability ->
       last_delay handle' = last_delay example_locked))
  /\ (~ worst > best + 1024 ->
      last_delay handle' = last_delay example_locked
      /\ last_delay_probability handle' = probability).
Proof.
  assert (H1 : estimator_inv example_locked) by example_inv.
  assert (H2 : is_u32 3108545609) by (unfold is_u32; lia).
  assert (H3 : is_u32 840380863) by (unfold is_u32; lia).
  assert (H4 : last_delay_probability example_locked < 2 ^ 31 - 1)
    by (cbn; lia).
  cbv zeta. repeat (split; [assumption|]).
  exact (last_delay_decision example_locked 3108545609 840380863 H1 H2 H3 H4).
Defined.

(** * The claims about sequences of calls *)

Lemma process_all_preserves (P : BinaryDelayEstimator -> Prop)
    (h : BinaryDelayEstimator) frames :
  (forall h' far near, P h' -> P (fst (WebRtc_ProcessBinarySpectrum h' far near))) ->
  P h -> P (process_all h frames).
Proof.
  intros Hstep. revert h.
  induction frames as [|[far near] frames IH]; intros h Hh; [exact Hh|].
  rewrite process_all_cons. apply IH, Hstep, Hh.
Qed.

Lemma process_minimum_probability (h : BinaryDelayEstimator) far near :
  let h' := fst (WebRtc_ProcessBinarySpectrum h far near) in
  minimum_probability h' <= minimum_probability h
  /\ (kProbabilityLowerLimit <= minimum_probability h ->
      kProbabilityLowerLimit <= minimum_probability h').
Proof.
  cbv zeta. rewrite process_unfold.
  destruct (minimum_probability_step (smoothed h far near)
              (find_candidates (smoothed h far near))) as (M1 & M2).
  destruct (smoothed_fields h far near) as (_ & _ & E3 & _).
  cbv zeta in M1, M2, E3. rewrite E3 in M1, M2. split; assumption.
Qed.

(** C6.  On a created and initialised estimator [minimum_probability]
    starts at 16384; after any sequence of calls it lies between 8704 and
    16384, and a further call never increases it. *)
Theorem minimum_probability_monotone (malloc_ok : nat -> bool)
    (max_delay lookahead : Z) (handle : BinaryDelayEstimator)
    (frames : list (Z * Z)) (far near : Z) :
  WebRtc_CreateBinaryDelayEstimator malloc_ok max_delay lookahead
  = Some handle ->
  let h := process_all (WebRtc_InitBinaryDelayEstimator handle) frames in
  minimum_probability (WebRtc_InitBinaryDelayEstimator handle) = 16384
  /\ 8704 <= minimum_probability h <= 16384
  /\ minimum_probability (fst (WebRtc_ProcessBinarySpectrum h far near))
     <= minimum_probability h.
Proof.
  intros Hcreate h.
  pose proof (create_allocated _ _ _ _ Hcreate) as Ha.
  assert (Hinit : minimum_probability (WebRtc_InitBinaryDelayEstimator handle)
                  = 16384)
    by (rewrite init_fields by exact Ha; reflexivity).
  split; [exact Hinit|]. split.
  - subst h.
    apply (process_all_preserves
             (fun h => 8704 <= minimum_probability h <= 16384)).
    + intros h' f n Hh'.
      destruct (process_minimum_probability h' f n) as (M1 & M2).
      unfold kProbabilityLowerLimit in M2. cbv zeta in M1, M2. lia.
    + rewrite Hinit. lia.
  - apply process_minimum_probability.
Qed.

Lemma minimum_probability_monotone_witness :
  let h := process_all (WebRtc_InitBinaryDelayEstimator example_created)
             example_frames in
  WebRtc_CreateBinaryDelayEstimator malloc_succeeds 2 1 = Some example_created
  /\ minimum_probability (WebRtc_InitBinaryDelayEstimator example_created)
     = 16384
  /\ 8704 <= minimum_probability h <= 16384
  /\ minimum_probability (fst (WebRtc_ProcessBinarySpectrum h 4080 255))
     <= minimum_probability h.
Proof.
  assert (H1 : WebRtc_CreateBinaryDelayEstimator malloc_succeeds 2 1
               = Some example_created) by reflexivity.
  cbv zeta. split; [exact H1|].
  exact (minimum_probability_monotone malloc_succeeds 2 1 example_created
           example_frames 4080 255 H1).
Defined.

Lemma reachable_inv (malloc_ok : nat -> bool) (max_delay lookahead : Z)
    (handle : BinaryDelayEstimator) (frames : list (Z * Z)) :
  WebRtc_CreateBinaryDelayEstimator malloc_ok max_delay lookahead
  = Some handle ->
  Forall frame_ok frames ->
  let h := process_all (WebRtc_InitBinaryDelayEstimator handle) frames in
  estimator_inv h /\ history_size h = history_size handle.
Proof.
  intros Hcreate Hframes h.
  pose proof (create_allocated _ _ _ _ Hcreate) as Ha.
  split.
  - apply process_all_inv; [apply init_inv; exact Ha|exact Hframes].
  - subst h. destruct (process_all_history_size
                (WebRtc_InitBinaryDelayEstimator handle) frames) as (-> & _).
    rewrite init_fields by exact Ha. reflexivity.
Qed.

Lemma wrap_s32_succ_le x : is_s32 x -> wrap_s32 (x + 1) <= x + 1.
Proof.
  intros Hx. unfold is_s32 in Hx.
  destruct (Z.lt_ge_cases (x + 1) (2 ^ 31)) as [Hlt|Hge].
  - rewrite wrap_s32_id by (unfold is_s32; lia). lia.
  - replace x with (2 ^ 31 - 1) by lia. vm_compute. discriminate.
Qed.

Lemma process_last_delay_probability (h : BinaryDelayEstimator) far near :
  estimator_inv h -> is_u32 far -> is_u32 near ->
  last_delay_probability (fst (WebRtc_ProcessBinarySpectrum h far near))
  <= Z.max (last_delay_probability h + 1) 16384.
Proof.
  intros Hinv Hf Hn. rewrite process_unfold.
  destruct (candidates_in_range h far near Hinv Hf Hn) as (_ & C2 & _).
  destruct (smoothed_fields h far near) as (_ & _ & _ & E4 & _).
  cbv zeta in C2, E4.
  set (c := find_candidates (smoothed h far near)) in *.
  set (h1 := update_minimum_probability (smoothed h far near) c).
  assert (E4' : last_delay_probability h1 = last_delay_probability h).
  { rewrite <- E4. subst h1. unfold update_minimum_probability.
    split_ifs; reflexivity. }
  pose proof (wrap_s32_succ_le _ (inv_last_delay_probability _ Hinv)) as Hle.
  unfold update_last_delay, s32_add. cbv zeta. rewrite E4'.
  split_ifs; cbn; lia.
Qed.

(** The counter grows by at most one per call: it cannot reach the largest
    [int32_t] within the first [2 ^ 31 - 16385] calls. *)
Lemma reachable_probability_bound (malloc_ok : nat -> bool)
    (max_delay lookahead : Z) (handle : BinaryDelayEstimator)
    (frames : list (Z * Z)) :
  WebRtc_CreateBinaryDelayEstimator malloc_ok max_delay lookahead
  = Some handle ->
  Forall frame_ok frames ->
  last_delay_probability
    (process_all (WebRtc_InitBinaryDelayEstimator handle) frames)
  <= 16384 + Z.of_nat (length frames).
Proof.
  intros Hcreate.
  pose proof (create_allocated _ _ _ _ Hcreate) as Ha.
  induction frames as [|[far near] frames IH] using rev_ind; intros Hframes.
  - cbn [process_all fold_left length]. rewrite init_fields by exact Ha.
    cbn. lia.
  - apply Forall_app in Hframes. destruct Hframes as (Hpre & Hlast).
    apply Forall_inv in Hlast. destruct Hlast as (Hf & Hn).
    cbn [fst snd] in Hf, Hn. specialize (IH Hpre).
    destruct (reachable_inv _ _ _ _ frames Hcreate Hpre) as (Hinv & _).
    pose proof (process_last_delay_probability _ far near Hinv Hf Hn) as Hstep.
    rewrite process_all_snoc, length_app. cbn [length]. lia.
Qed.

(** C1.  On a created estimator, [WebRtc_binary_last_delay] returns -2
    right after initialisation.  After any sequence of calls on 32-bit
    spectra the accessor returns -2 or an index below [history_size], and so
    does a further call of [WebRtc_ProcessBinarySpectrum], whose result is
    the [last_delay] it leaves and is never -1: the scan of that call finds
    an index below [history_size] whose smoothed mean is below 16384, so
    [candidate_delay] does not stay -1. *)
Theorem last_delay_sentinel_or_index (malloc_ok : nat -> bool)
    (max_delay lookahead : Z) (handle : BinaryDelayEstimator)
    (frames : list (Z * Z)) (far near : Z) :
  WebRtc_CreateBinaryDelayEstimator malloc_ok max_delay lookahead
  = Some handle ->
  Forall frame_ok frames -> is_u32 far -> is_u32 near ->
  let h := process_all (WebRtc_InitBinaryDelayEstimator handle) frames in
  let r := WebRtc_ProcessBinarySpectrum h far near in
  let c := find_candidates (smoothed h far near) in
  WebRtc_binary_last_delay (WebRtc_InitBinaryDelayEstimator handle) = -2
  /\ (WebRtc_binary_last_delay h = -2
      \/ 0 <= WebRtc_binary_last_delay h < history_size handle)
  /\ (snd r = -2 \/ 0 <= snd r < history_size handle)
  /\ snd r <> -1
  /\ WebRtc_binary_last_delay (fst r) = snd r
  /\ 0 <= candidate_delay c < history_size handle
  /\ value_best_candidate c < 16384
  /\ read (mean_bit_counts (smoothed h far near))
          (Z.to_nat (candidate_delay c)) < 16384.
Proof.
  intros Hcreate Hframes Hf Hn h r c.
  pose proof (create_allocated _ _ _ _ Hcreate) as Ha.
  destruct (reachable_inv _ _ _ _ frames Hcreate Hframes) as (Hinv & Hhs).
  fold h in Hinv, Hhs.
  pose proof (process_inv h far near Hinv Hf Hn) as Hinv'.
  destruct (candidates_in_range h far near Hinv Hf Hn) as (C1 & C2 & _ & C4).
  fold c in C1, C2, C4.
  assert (Hhs' : history_size (fst r) = history_size handle).
  { rewrite <- Hhs. subst r. rewrite process_unfold.
    destruct (decision_fields (smoothed h far near)
                (find_candidates (smoothed h far near)))
      as (_ & _ & _ & _ & _ & -> & _).
    destruct (smoothed_fields h far near) as (-> & _). reflexivity. }
  pose proof (inv_last_delay _ Hinv) as L. rewrite Hhs in L.
  pose proof (inv_last_delay _ Hinv') as L'. fold r in L'. rewrite Hhs' in L'.
  unfold WebRtc_binary_last_delay. subst r. rewrite process_returns.
  split; [rewrite init_fields by exact Ha; reflexivity|].
  split; [exact L|]. split; [exact L'|]. split; [lia|].
  split; [reflexivity|]. rewrite C4. repeat split; lia.
Qed.

Lemma last_delay_sentinel_or_index_witness :
  let h := process_all (WebRtc_InitBinaryDelayEstimator example_created)
             example_frames in
  let r := WebRtc_ProcessBinarySpectrum h 4080 255 in
  let c := find_candidates (smoothed h 4080 255) in
  WebRtc_CreateBinaryDelayEstimator malloc_succeeds 2 1 = Some example_created
  /\ Forall frame_ok example_frames /\ is_u32 4080 /\ is_u32 255
  /\ WebRtc_binary_last_delay (WebRtc_InitBinaryDelayEstimator example_created)
     = -2
  /\ (WebRtc_binary_last_delay h = -2
      \/ 0 <= WebRtc_binary_last_delay h < history_size example_created)
  /\ (snd r = -2 \/ 0 <= snd r < history_size example_created)
  /\ snd r <> -1
  /\ WebRtc_binary_last_delay (fst r) = snd r
  /\ 0 <= candidate_delay c < history_size example_created
  /\ value_best_candidate c < 16384
  /\ read (mean_bit_counts (smoothed h 4080 255))
          (Z.to_nat (candidate_delay c)) < 16384.
Proof.
  assert (H1 : WebRtc_CreateBinaryDelayEstimator malloc_succeeds 2 1
               = Some example_created) by reflexivity.
  assert (H2 : Forall frame_ok example_frames)
    by (repeat constructor; unfold is_u32; cbn; lia).
  assert (H3 : is_u32 4080) by (unfold is_u32; lia).
  assert (H4 : is_u32 255) by (unfold is_u32; lia).
  cbv zeta. repeat (split; [assumption|]).
  exact (last_delay_sentinel_or_index malloc_succeeds 2 1 example_created
           example_frames 4080 255 H1 H2 H3 H4).
Defined.

(** C10.  On a created estimator, initialisation sets every entry of
    [mean_bit_counts] to 10240; after any sequence of calls on 32-bit
    spectra every entry is at least 0 and below 16384.  In a further call
    the value an entry is smoothed towards, [bit_counts[i] << 9], is at most
    16384, the number of shifts at a positive far-end bit count is at least
    7, and the entry ends between its old value and that target. *)
Theorem mean_bit_counts_bounded (malloc_ok : nat -> bool)
    (max_delay lookahead : Z) (handle : BinaryDelayEstimator)
    (frames : list (Z * Z)) (far near : Z) (i : nat) :
  WebRtc_CreateBinaryDelayEstimator malloc_ok max_delay lookahead
  = Some handle ->
  Forall frame_ok frames -> is_u32 far -> is_u32 near ->
  Z.of_nat i < history_size handle ->
  let h := process_all (WebRtc_InitBinaryDelayEstimator handle) frames in
  let h' := fst (WebRtc_ProcessBinarySpectrum h far near) in
  let target := Z.shiftl (read (bit_counts h') i) 9 in
  mean_bit_counts (WebRtc_InitBinaryDelayEstimator handle)
  = replicate (Z.to_nat (history_size handle)) 10240
  /\ length (mean_bit_counts h) = Z.to_nat (history_size handle)
  /\ Forall (fun m => 0 <= m < 16384) (mean_bit_counts h)
  /\ 0 <= read (mean_bit_counts h) i < 16384
  /\ 0 <= target <= 16384
  /\ (0 < read (far_bit_counts h') i ->
      7 <= smoothing_shifts (read (far_bit_counts h') i) <= 13)
  /\ Z.min (read (mean_bit_counts h) i) target
     <= read (mean_bit_counts h') i
     <= Z.max (read (mean_bit_counts h) i) target
  /\ 0 <= read (mean_bit_counts h') i < 16384.
Proof.
  intros Hcreate Hframes Hf Hn Hi h h' target.
  pose proof (create_allocated _ _ _ _ Hcreate) as Ha.
  destruct (reachable_inv _ _ _ _ frames Hcreate Hframes) as (Hinv & Hhs).
  fold h in Hinv, Hhs. rewrite <- Hhs in *.
  destruct (inv_allocated _ Hinv) as [Hsize _ Lm _ _ _ _].
  pose proof (proj1 (Forall_read _ _) (inv_mean_bit_counts _ Hinv) i
                ltac:(lia)) as Hmi.
  cbv beta in Hmi.
  split; [rewrite init_fields by exact Ha; rewrite Hhs; reflexivity|].
  split; [exact Lm|]. split; [exact (inv_mean_bit_counts _ Hinv)|].
  split; [exact Hmi|].
  subst target h'. rewrite process_unfold.
  destruct (decision_fields (smoothed h far near)
              (find_candidates (smoothed h far near)))
    as (-> & -> & -> & _).
  set (h2 := smoothed h far near).
  destruct (smoothed_ranges h far near Hinv Hf Hn)
    as (_ & _ & R3 & R4 & R5).
  pose proof (allocated_smoothed h far near (inv_allocated _ Hinv)) as Ha2.
  destruct (smoothed_fields h far near) as (E1 & _).
  fold h2 in R3, R4, R5, Ha2, E1.
  destruct Ha2 as [_ _ Lm2 Lf2 Lb2 _ _]. rewrite E1 in Lm2, Lf2, Lb2.
  pose proof (proj1 (Forall_read _ _) R3 i ltac:(lia)) as Hfi.
  pose proof (proj1 (Forall_read _ _) R4 i ltac:(lia)) as Hci.
  pose proof (proj1 (Forall_read _ _) R5 i ltac:(lia)) as Hmi2.
  cbv beta in Hfi, Hci, Hmi2.
  assert (Hnew : 0 <= Z.shiftl (read (bit_counts h2) i) 9 <= 16384).
  { rewrite Z.shiftl_mul_pow2 by lia. change (2 ^ 9) with 512. lia. }
  split; [exact Hnew|]. split; [intros Hpos; apply smoothing_shifts_range; lia|].
  split; [|exact Hmi2].
  destruct (smoothed_mean_read h far near) as (_ & Hupd & Hskip & _).
  fold h2 in Hupd, Hskip.
  destruct (Z.eq_dec (read (far_bit_counts h2) i) 0) as [Hz|Hnz].
  - rewrite Hskip by lia. lia.
  - rewrite Hupd by lia.
    assert (Hshl : s32_shl (read (bit_counts h2) i) 9
                   = Z.shiftl (read (bit_counts h2) i) 9).
    { unfold s32_shl. apply wrap_s32_id. unfold is_s32. lia. }
    rewrite Hshl.
    apply mean_estimator_fix_bounds; [exact Hmi|exact Hnew|].
    pose proof (smoothing_shifts_range (read (far_bit_counts h2) i)). lia.
Qed.

Lemma mean_bit_counts_bounded_witness :
  let h := process_all (WebRtc_InitBinaryDelayEstimator example_created)
             example_frames in
  let h' := fst (WebRtc_ProcessBinarySpectrum h 4080 255) in
  let target := Z.shiftl (read (bit_counts h') 0) 9 in
  WebRtc_CreateBinaryDelayEstimator malloc_succeeds 2 1 = Some example_created
  /\ Forall frame_ok example_frames /\ is_u32 4080 /\ is_u32 255
  /\ Z.of_nat 0 < history_size example_created
  /\ mean_bit_counts (WebRtc_InitBinaryDelayEstimator example_created)
     = replicate (Z.to_nat (history_size example_created)) 10240
  /\ length (mean_bit_counts h) = Z.to_nat (history_size example_created)
  /\ Forall (fun m => 0 <= m < 16384) (mean_bit_counts h)
  /\ 0 <= read (mean_bit_counts h) 0 < 16384
  /\ 0 <= target <= 16384
  /\ (0 < read (far_bit_counts h') 0 ->
      7 <= smoothing_shifts (read (far_bit_counts h') 0) <= 13)
  /\ Z.min (read (mean_bit_counts h) 0) target
     <= read (mean_bit_counts h') 0
     <= Z.max (read (mean_bit_counts h) 0) target
  /\ 0 <= read (mean_bit_counts h') 0 < 16384.
Proof.
  assert (H1 : WebRtc_CreateBinaryDelayEstimator malloc_succeeds 2 1
               = Some example_created) by reflexivity.
  assert (H2 : Forall frame_ok example_frames)
    by (repeat constructor; unfold is_u32; cbn; lia).
  assert (H3 : is_u32 4080) by (unfold is_u32; lia).
  assert (H4 : is_u32 255) by (unfold is_u32; lia).
  assert (H5 : Z.of_nat 0 < history_size example_created) by (cbn; lia).
  cbv zeta. repeat (split; [assumption|]).
  exact (mean_bit_counts_bounded malloc_succeeds 2 1 example_created
           example_frames 4080 255 0 H1 H2 H3 H4 H5).
Defined.

(** * Construction *)

(** C9.  When every allocation succeeds and the two sums the function
    forms, [max_delay + lookahead] and [lookahead + 1], fit in an [int]:
    [WebRtc_CreateBinaryDelayEstimator] returns an estimator exactly when
    [max_delay >= 0], [lookahead >= 0] and [max_delay + lookahead > 1], and
    [NULL] otherwise; the estimator has [history_size = max_delay +
    lookahead] and [near_history_size = lookahead + 1].  (0, 0) and (1, 0)
    are refused, (1, 1) is accepted. *)
Theorem create_succeeds_iff (malloc_ok : nat -> bool)
    (max_delay lookahead : Z) :
  (forall k, malloc_ok k = true) ->
  max_delay + lookahead < 2 ^ 31 -> lookahead + 1 < 2 ^ 31 ->
  ((exists handle,
      WebRtc_CreateBinaryDelayEstimator malloc_ok max_delay lookahead
      = Some handle)
   <-> 0 <= max_delay /\ 0 <= lookahead /\ 1 < max_delay + lookahead)
  /\ (~ (0 <= max_delay /\ 0 <= lookahead /\ 1 < max_delay + lookahead) ->
      WebRtc_CreateBinaryDelayEstimator malloc_ok max_delay lookahead = None)
  /\ (forall handle,
        WebRtc_CreateBinaryDelayEstimator malloc_ok max_delay lookahead
        = Some handle ->
        history_size handle = max_delay + lookahead
        /\ near_history_size handle = lookahead + 1)
  /\ WebRtc_CreateBinaryDelayEstimator malloc_ok 0 0 = None
  /\ WebRtc_CreateBinaryDelayEstimator malloc_ok 1 0 = None
  /\ (exists handle,
        WebRtc_CreateBinaryDelayEstimator malloc_ok 1 1 = Some handle
        /\ history_size handle = 2).
Proof.
  intros Hmalloc Hsum Hnear.
  assert (Hiff :
    (exists handle,
       WebRtc_CreateBinaryDelayEstimator malloc_ok max_delay lookahead
       = Some handle)
    <-> 0 <= max_delay /\ 0 <= lookahead /\ 1 < max_delay + lookahead).
  { split.
    - intros [h Hh]. destruct (create_some _ _ _ _ Hh) as (H1 & H2 & H3 & _).
      unfold s32_add in H3.
      rewrite wrap_s32_id in H3 by (unfold is_s32; lia). lia.
    - intros (H1 & H2 & H3).
      unfold WebRtc_CreateBinaryDelayEstimator, s32_add. cbv zeta.
      rewrite !Hmalloc.
      rewrite (wrap_s32_id (max_delay + lookahead)) by (unfold is_s32; lia).
      destruct (0 <=? max_delay) eqn:E1; [|apply Z.leb_gt in E1; lia].
      destruct (0 <=? lookahead) eqn:E2; [|apply Z.leb_gt in E2; lia].
      destruct (1 <? max_delay + lookahead) eqn:E3; [|apply Z.ltb_ge in E3; lia].
      cbn. eexists. reflexivity. }
  split; [exact Hiff|]. split; [|split; [|split; [|split]]].
  - intros Hnot.
    destruct (WebRtc_CreateBinaryDelayEstimator malloc_ok max_delay lookahead)
      as [h|] eqn:E; [|reflexivity].
    exfalso. apply Hnot, Hiff. exists h. reflexivity.
  - intros h Hh. destruct (create_some _ _ _ _ Hh) as (H1 & H2 & H3 & ->).
    cbn. unfold s32_add in *.
    rewrite wrap_s32_id in H3 by (unfold is_s32; lia).
    rewrite !wrap_s32_id by (unfold is_s32; lia). split; reflexivity.
  - reflexivity.
  - reflexivity.
  - unfold WebRtc_CreateBinaryDelayEstimator. cbv zeta. rewrite !Hmalloc.
    eexists. split; reflexivity.
Qed.

Lemma create_succeeds_iff_witness :
  (forall k, malloc_succeeds k = true) /\ 2 + 1 < 2 ^ 31 /\ 1 + 1 < 2 ^ 31 /\
  ((exists handle,
      WebRtc_CreateBinaryDelayEstimator malloc_succeeds 2 1 = Some handle)
   <-> 0 <= 2 /\ 0 <= 1 /\ 1 < 2 + 1)
  /\ (~ (0 <= 2 /\ 0 <= 1 /\ 1 < 2 + 1) ->
      WebRtc_CreateBinaryDelayEstimator malloc_succeeds 2 1 = None)
  /\ (forall handle,
        WebRtc_CreateBinaryDelayEstimator malloc_succeeds 2 1 = Some handle ->
        history_size handle = 2 + 1 /\ near_history_size handle = 1 + 1)
  /\ WebRtc_CreateBinaryDelayEstimator malloc_succeeds 0 0 = None
  /\ WebRtc_CreateBinaryDelayEstimator malloc_succeeds 1 0 = None
  /\ (exists handle,
        WebRtc_CreateBinaryDelayEstimator malloc_succeeds 1 1 = Some handle
        /\ history_size handle = 2).
Proof.
  assert (H1 : forall k, malloc_succeeds k = true) by reflexivity.
  assert (H2 : 2 + 1 < 2 ^ 31) by lia.
  assert (H3 : 1 + 1 < 2 ^ 31) by lia.
  repeat (split; [assumption|]).
  exact (create_succeeds_iff malloc_succeeds 2 1 H1 H2 H3).
Defined.

(** * The near-end lookahead *)

(** C3.  On an initialised estimator with [near_history_size = L + 1], in
    the call that follows any sequence of calls: the bit counts are those of
    the far-end history against the near-end word passed [L] calls earlier
    (the zero word of the initialisation when fewer than [L] calls came
    before), which for [L = 0] is the near-end word of the call itself.  For
    [L >= 1] the call shifts [binary_near_history] by one, puts the current
    word at index 0, and the compared word is
    [binary_near_history[near_history_size - 1]] after that shift. *)
Theorem near_lookahead (handle : BinaryDelayEstimator) (L : nat)
    (frames : list (Z * Z)) (far near : Z) :
  allocated handle -> near_history_size handle = Z.of_nat L + 1 ->
  let h := process_all (WebRtc_InitBinaryDelayEstimator handle) frames in
  let h' := fst (WebRtc_ProcessBinarySpectrum h far near) in
  let earlier := read (near :: rev (map snd frames)) L in
  compared_word h near = earlier
  /\ bit_counts h'
     = BitCountComparison earlier (binary_far_history h') (history_size h')
         (bit_counts h)
  /\ (L = 0%nat -> earlier = near)
  /\ ((1 <= L)%nat ->
      binary_near_history h' = near :: take L (binary_near_history h)
      /\ read (binary_near_history h')
              (Z.to_nat (near_history_size h' - 1)) = earlier).
Proof.
  intros Ha Hnhs h h' earlier.
  pose proof (alloc_near_history_size _ Ha) as Hint.
  unfold is_s32 in Hint. rewrite Hnhs in Hint.
  assert (Hn : near_history_size h = Z.of_nat L + 1).
  { subst h. destruct (process_all_history_size
                (WebRtc_InitBinaryDelayEstimator handle) frames) as (_ & ->).
    rewrite init_fields by exact Ha. exact Hnhs. }
  assert (Hshift : (1 <= L)%nat ->
            shift_insert (binary_near_history h) (near_history_size h) near
            = near :: take L (binary_near_history h)
            /\ read (near :: take L (binary_near_history h)) L = earlier).
  { intros HL.
    pose proof (near_history_tracks handle L frames Ha Hnhs HL) as Htr.
    fold h in Htr.
    assert (Hlen : length (binary_near_history h) = Z.to_nat (Z.of_nat L + 1)).
    { rewrite Htr, length_take, length_app, length_replicate. lia. }
    rewrite Hn, shift_insert_cons by (exact Hlen || lia).
    replace (Z.to_nat (Z.of_nat L + 1) - 1)%nat with L by lia.
    split; [reflexivity|].
    subst earlier. destruct L as [|L']; [lia|].
    rewrite !read_cons_succ.
    rewrite read_take by lia. rewrite Htr, read_take by lia.
    apply read_app_zeros. }
  assert (Hcmp : compared_word h near = earlier).
  { rewrite compared_word_unfold, Hn.
    destruct (1 <? Z.of_nat L + 1) eqn:E;
      [apply Z.ltb_lt in E|apply Z.ltb_ge in E].
    - destruct (Hshift ltac:(lia)) as (Hs & Hr). rewrite <- Hn, Hs, Hn.
      unfold s32_sub. rewrite wrap_s32_id by (unfold is_s32; lia).
      replace (Z.to_nat (Z.of_nat L + 1 - 1)) with L by lia. exact Hr.
    - subst earlier. replace L with 0%nat by lia. reflexivity. }
  subst h'. rewrite process_unfold.
  destruct (decision_fields (smoothed h far near)
              (find_candidates (smoothed h far near)))
    as (_ & _ & -> & -> & -> & -> & ->).
  destruct (smoothed_fields h far near)
    as (E1 & E2 & _ & _ & _ & _ & _ & E8 & E9 & _).
  split; [exact Hcmp|]. split; [rewrite E9, E1, Hcmp; reflexivity|].
  split; [intros ->; reflexivity|].
  intros HL. destruct (Hshift HL) as (Hs & Hr).
  rewrite E8, E2, Hn.
  destruct (1 <? Z.of_nat L + 1) eqn:E; [|apply Z.ltb_ge in E; lia].
  rewrite <- Hn, Hs, Hn. split; [reflexivity|].
  replace (Z.to_nat (Z.of_nat L + 1 - 1)) with L by lia. exact Hr.
Qed.

Lemma near_lookahead_witness :
  let h := process_all (WebRtc_InitBinaryDelayEstimator example_created)
             example_frames in
  let h' := fst (WebRtc_ProcessBinarySpectrum h 4080 255) in
  let earlier := read (255 :: rev (map snd example_frames)) 1 in
  allocated example_created
  /\ near_history_size example_created = Z.of_nat 1 + 1
  /\ compared_word h 255 = earlier
  /\ bit_counts h'
     = BitCountComparison earlier (binary_far_history h') (history_size h')
         (bit_counts h)
  /\ (1%nat = 0%nat -> earlier = 255)
  /\ ((1 <= 1)%nat ->
      binary_near_history h' = 255 :: take 1 (binary_near_history h)
      /\ read (binary_near_history h')
              (Z.to_nat (near_history_size h' - 1)) = earlier).
Proof.
  assert (H1 : allocated example_created)
    by (constructor; first [reflexivity | unfold is_s32; cbn; lia]).
  assert (H2 : near_history_size example_created = Z.of_nat 1 + 1)
    by reflexivity.
  cbv zeta. repeat (split; [assumption|]).
  exact (near_lookahead example_created 1 example_frames 4080 255 H1 H2).
Defined.

(** * Further properties of the bit-count kernel *)

Lemma popcount_bits_zero n u :
  popcount_bits n u = 0 <-> u mod 2 ^ Z.of_nat n = 0.
Proof.
  revert u. induction n as [|n IH]; intros u.
  - cbn [popcount_bits]. change (2 ^ Z.of_nat 0) with 1.
    rewrite Z.mod_1_r. tauto.
  - cbn [popcount_bits].
    assert (Hp : 0 < 2 ^ Z.of_nat n) by (apply Z.pow_pos_nonneg; lia).
    replace (2 ^ Z.of_nat (S n)) with (2 * 2 ^ Z.of_nat n)
      by (rewrite Nat2Z.inj_succ, Z.pow_succ_r by lia; reflexivity).
    rewrite Z.rem_mul_r by lia.
    pose proof (popcount_bits_bounds n (u / 2)) as Hb.
    pose proof (Z.mod_pos_bound u 2 ltac:(lia)) as H2.
    pose proof (Z.mod_pos_bound (u / 2) (2 ^ Z.of_nat n) Hp) as Hm.
    specialize (IH (u / 2)). split; intros H.
    + assert (popcount_bits n (u / 2) = 0) as H0 by lia.
      apply IH in H0. lia.
    + assert (u / 2 mod 2 ^ Z.of_nat n = 0) as H0 by lia.
      apply IH in H0. lia.
Qed.

Lemma popcount_bits_complement n u :
  0 <= u < 2 ^ Z.of_nat n ->
  popcount_bits n (2 ^ Z.of_nat n - 1 - u) = Z.of_nat n - popcount_bits n u.
Proof.
  revert u. induction n as [|n IH]; intros u Hu.
  - cbn [popcount_bits]. lia.
  - cbn [popcount_bits].
    assert (Hp : 0 < 2 ^ Z.of_nat n) by (apply Z.pow_pos_nonneg; lia).
    replace (2 ^ Z.of_nat (S n)) with (2 * 2 ^ Z.of_nat n) in *
      by (rewrite Nat2Z.inj_succ, Z.pow_succ_r by lia; reflexivity).
    set (P := 2 ^ Z.of_nat n) in *.
    replace ((2 * P - 1 - u) / 2) with (P - 1 - u / 2)
      by (Z.div_mod_to_equations; lia).
    replace ((2 * P - 1 - u) mod 2) with (1 - u mod 2)
      by (Z.div_mod_to_equations; lia).
    rewrite IH by (Z.div_mod_to_equations; lia). lia.
Qed.

(** X1.  The entry [BitCountComparison] stores for a row is 0 exactly when
    the row equals the vector: a Hamming distance of zero means the two
    32-bit words are the same. *)
Theorem bit_count_zero_iff_equal (vector : Z) (rows : list Z) (n : Z)
    (counts : list Z) (i : nat) :
  is_u32 vector -> Forall is_u32 rows ->
  n <= Z.of_nat (length rows) -> n <= Z.of_nat (length counts) ->
  Z.of_nat i < n ->
  (read (BitCountComparison vector rows n counts) i = 0
   <-> read rows i = vector).
Proof.
  intros Hv Hrows Hnr Hnc Hi.
  destruct (BitCountComparison_read vector rows n counts) as (_ & Hdone & _).
  cbv zeta in Hdone. rewrite Hdone by lia.
  assert (Hr : is_u32 (read rows i))
    by (apply (proj1 (Forall_read is_u32 rows) Hrows); lia).
  pose proof (lxor_u32 _ _ Hv Hr) as Hx.
  destruct (BitCount_popcount _ Hx) as (-> & _).
  unfold popcount32. rewrite popcount_bits_zero.
  change (2 ^ Z.of_nat 32) with (2 ^ 32).
  rewrite Z.mod_small by exact Hx.
  rewrite Z.lxor_eq_0_iff. split; congruence.
Qed.

Lemma bit_count_zero_iff_equal_witness :
  is_u32 5 /\ Forall is_u32 [3; 5] /\
  2 <= Z.of_nat (length [3; 5]) /\ 2 <= Z.of_nat (length [7; 7; 7]) /\
  Z.of_nat 1 < 2 /\
  (read (BitCountComparison 5 [3; 5] 2 [7; 7; 7]) 1 = 0
   <-> read [3; 5] 1 = 5).
Proof.
  assert (H1 : is_u32 5) by (unfold is_u32; lia).
  assert (H2 : Forall is_u32 [3; 5])
    by (repeat constructor; unfold is_u32; lia).
  assert (H3 : 2 <= Z.of_nat (length [3; 5])) by (simpl; lia).
  assert (H4 : 2 <= Z.of_nat (length [7; 7; 7])) by (simpl; lia).
  assert (H5 : Z.of_nat 1 < 2) by (simpl; lia).
  split; [exact H1|]. split; [exact H2|]. split; [exact H3|].
  split; [exact H4|]. split; [exact H5|].
  exact (bit_count_zero_iff_equal 5 [3; 5] 2 [7; 7; 7] 1 H1 H2 H3 H4 H5).
Defined.

(** X2.  [BitCount] of the complemented word [~u] (as a [uint32_t],
    [0xFFFFFFFF - u]) is 32 minus [BitCount] of [u]; in particular only the
    all-ones word has 32 bits set and only the zero word has none. *)
Theorem bit_count_complement (u : Z) :
  is_u32 u ->
  BitCount (4294967295 - u) = 32 - BitCount u
  /\ (BitCount u = 0 <-> u = 0)
  /\ (BitCount u = 32 <-> u = 4294967295).
Proof.
  intros Hu. unfold is_u32 in Hu. change (2 ^ 32) with 4294967296 in Hu.
  assert (Hc : is_u32 (4294967295 - u))
    by (unfold is_u32; change (2 ^ 32) with 4294967296; lia).
  destruct (BitCount_popcount _ Hc) as (Ec & _).
  assert (Hu' : is_u32 u)
    by (unfold is_u32; change (2 ^ 32) with 4294967296; lia).
  destruct (BitCount_popcount _ Hu') as (Eu & _).
  assert (Hzero : forall w, 0 <= w < 4294967296 -> popcount32 w = 0 <-> w = 0).
  { intros w Hw. unfold popcount32. rewrite popcount_bits_zero.
    change (2 ^ Z.of_nat 32) with 4294967296.
    rewrite Z.mod_small by exact Hw. tauto. }
  assert (Hcompl : popcount32 (4294967295 - u) = 32 - popcount32 u).
  { unfold popcount32.
    change (4294967295 - u) with (2 ^ Z.of_nat 32 - 1 - u).
    rewrite popcount_bits_complement
      by (change (2 ^ Z.of_nat 32) with 4294967296; lia).
    reflexivity. }
  rewrite Ec, Eu. split; [exact Hcompl|]. split; [apply Hzero; lia|].
  pose proof (Hzero (4294967295 - u) ltac:(lia)) as Hz. lia.
Qed.

Lemma bit_count_complement_witness :
  is_u32 4042322160 /\
  BitCount (4294967295 - 4042322160) = 32 - BitCount 4042322160
  /\ (BitCount 4042322160 = 0 <-> 4042322160 = 0)
  /\ (BitCount 4042322160 = 32 <-> 4042322160 = 4294967295).
Proof.
  assert (H1 : is_u32 4042322160) by (unfold is_u32; lia).
  split; [exact H1|]. exact (bit_count_complement 4042322160 H1).
Defined.

(** * Further properties of the smoothing filter *)

(** X3.  For [int32_t] arguments whose difference does not overflow and a
    shift count a C shift accepts, [WebRtc_MeanEstimatorFix] adds to the
    mean the difference divided by [2 ^ factor] with the sign kept.  The
    stored mean lies between the old mean and the new value (the filter
    never overshoots), it is unchanged exactly when the difference is
    smaller in size than [2 ^ factor], and with [factor = 0] it is the new
    value. *)
Theorem mean_estimator_fix_no_overshoot (new_value factor mean_value : Z) :
  is_s32 new_value -> is_s32 mean_value ->
  - 2 ^ 31 < new_value - mean_value < 2 ^ 31 ->
  0 <= factor < 32 ->
  let r := WebRtc_MeanEstimatorFix new_value factor mean_value in
  r = mean_value + mean_step new_value factor mean_value
  /\ Z.min mean_value new_value <= r <= Z.max mean_value new_value
  /\ (r = mean_value <-> Z.abs (new_value - mean_value) < 2 ^ factor)
  /\ (factor = 0 -> r = new_value).
Proof.
  intros Hn Hm Hd Hf r.
  assert (Hp : 0 < 2 ^ factor) by (apply Z.pow_pos_nonneg; lia).
  pose proof (mean_step_bounds new_value factor mean_value ltac:(lia))
    as Hstep.
  cbv zeta in Hstep. destruct Hstep as (Hup & Hdown & _).
  unfold is_s32 in Hn, Hm.
  assert (Hr : r = mean_value + mean_step new_value factor mean_value).
  { subst r. unfold WebRtc_MeanEstimatorFix, s32_sub, s32_neg, s32_add,
      s32_shr. cbv zeta.
    rewrite (wrap_s32_id (new_value - mean_value)) by (unfold is_s32; lia).
    unfold mean_step in *. cbv zeta in *.
    destruct (new_value - mean_value <? 0) eqn:Hneg;
      [apply Z.ltb_lt in Hneg|apply Z.ltb_ge in Hneg].
    - rewrite (wrap_s32_id (- (new_value - mean_value)))
        by (unfold is_s32; lia).
      rewrite Z.shiftr_div_pow2 by lia.
      rewrite (wrap_s32_id (- _)) by (unfold is_s32; lia).
      apply wrap_s32_id. unfold is_s32. lia.
    - rewrite Z.shiftr_div_pow2 by lia.
      apply wrap_s32_id. unfold is_s32. lia. }
  split; [exact Hr|]. rewrite Hr. split; [lia|]. split.
  - unfold mean_step. cbv zeta.
    destruct (new_value - mean_value <? 0) eqn:Hneg;
      [apply Z.ltb_lt in Hneg|apply Z.ltb_ge in Hneg].
    + pose proof (Z.div_small_iff (- (new_value - mean_value)) (2 ^ factor)
                    ltac:(lia)) as Hs.
      split; intros H.
      * assert (- (new_value - mean_value) / 2 ^ factor = 0) as H0 by lia.
        apply Hs in H0. lia.
      * assert (- (new_value - mean_value) / 2 ^ factor = 0) as H0
          by (apply Hs; lia).
        lia.
    + pose proof (Z.div_small_iff (new_value - mean_value) (2 ^ factor)
                    ltac:(lia)) as Hs.
      split; intros H.
      * assert ((new_value - mean_value) / 2 ^ factor = 0) as H0 by lia.
        apply Hs in H0. lia.
      * assert ((new_value - mean_value) / 2 ^ factor = 0) as H0
          by (apply Hs; lia).
        lia.
  - intros ->. unfold mean_step. cbv zeta. change (2 ^ 0) with 1.
    rewrite !Z.div_1_r. destruct (new_value - mean_value <? 0); lia.
Qed.

Lemma mean_estimator_fix_no_overshoot_witness :
  is_s32 (-1000000) /\ is_s32 2000000000 /\
  - 2 ^ 31 < -1000000 - 2000000000 < 2 ^ 31 /\ 0 <= 10 < 32 /\
  let r := WebRtc_MeanEstimatorFix (-1000000) 10 2000000000 in
  r = 2000000000 + mean_step (-1000000) 10 2000000000
  /\ Z.min 2000000000 (-1000000) <= r <= Z.max 2000000000 (-1000000)
  /\ (r = 2000000000 <-> Z.abs (-1000000 - 2000000000) < 2 ^ 10)
  /\ (10 = 0 -> r = -1000000).
Proof.
  assert (H1 : is_s32 (-1000000)) by (unfold is_s32; lia).
  assert (H2 : is_s32 2000000000) by (unfold is_s32; lia).
  assert (H3 : - 2 ^ 31 < -1000000 - 2000000000 < 2 ^ 31) by lia.
  assert (H4 : 0 <= 10 < 32) by lia.
  split; [exact H1|]. split; [exact H2|]. split; [exact H3|].
  split; [exact H4|].
  exact (mean_estimator_fix_no_overshoot (-1000000) 10 2000000000
           H1 H2 H3 H4).
Defined.

(** X4.  The number of right shifts the smoothing loop uses falls as the
    far-end bit count grows: for bit counts [a <= b] of a 32-bit word the
    shifts at [b] are at most those at [a]; they are 13 up to a bit count
    of 5 and 7 at the full 32 bits, so a fuller far-end spectrum adapts the
    mean faster. *)
Theorem smoothing_shifts_decreasing (a b : Z) :
  0 <= a <= b -> b <= 32 ->
  smoothing_shifts b <= smoothing_shifts a
  /\ 7 <= smoothing_shifts b /\ smoothing_shifts a <= 13
  /\ (smoothing_shifts a = 13 <-> a <= 5)
  /\ (smoothing_shifts b = 7 <-> b = 32).
Proof.
  intros Hab Hb. rewrite !smoothing_shifts_value by lia.
  repeat apply conj; try (split; intros H); Z.div_mod_to_equations; lia.
Qed.

Lemma smoothing_shifts_decreasing_witness :
  0 <= 4 <= 20 /\ 20 <= 32 /\
  smoothing_shifts 20 <= smoothing_shifts 4
  /\ 7 <= smoothing_shifts 20 /\ smoothing_shifts 4 <= 13
  /\ (smoothing_shifts 4 = 13 <-> 4 <= 5)
  /\ (smoothing_shifts 20 = 7 <-> 20 = 32).
Proof.
  assert (H1 : 0 <= 4 <= 20) by lia.
  assert (H2 : 20 <= 32) by lia.
  split; [exact H1|]. split; [exact H2|].
  exact (smoothing_shifts_decreasing 4 20 H1 H2).
Defined.

(** * Further properties of the state *)

Lemma process_allocated (h : BinaryDelayEstimator) far near :
  allocated h -> allocated (fst (WebRtc_ProcessBinarySpectrum h far near)).
Proof.
  intros Ha. rewrite process_unfold.
  pose proof (allocated_smoothed h far near Ha) as [H1 H2 H3 H4 H5 H6 H7].
  destruct (decision_fields (smoothed h far near)
              (find_candidates (smoothed h far near)))
    as (D1 & D2 & D3 & D4 & D5 & D6 & D7).
  cbv zeta in *.
  constructor; rewrite ?D1, ?D2, ?D3, ?D4, ?D5, ?D6, ?D7; assumption.
Qed.

Lemma process_all_allocated (h : BinaryDelayEstimator) frames :
  allocated h -> allocated (process_all h frames).
Proof.
  intros Ha. apply (process_all_preserves allocated); [|exact Ha].
  intros h' far near. apply process_allocated.
Qed.

Lemma process_far_history (h : BinaryDelayEstimator) far near :
  let h' := fst (WebRtc_ProcessBinarySpectrum h far near) in
  binary_far_history h'
  = shift_insert (binary_far_history h) (history_size h) far
  /\ far_bit_counts h'
     = shift_insert (far_bit_counts h) (history_size h) (BitCount far).
Proof.
  cbv zeta. rewrite process_unfold.
  destruct (decision_fields (smoothed h far near)
              (find_candidates (smoothed h far near)))
    as (_ & -> & _ & -> & _).
  destruct (smoothed_fields h far near)
    as (_ & _ & _ & _ & _ & -> & -> & _).
  split; reflexivity.
Qed.

(** The far-end words of the frames processed so far, newest first,
    followed by the zero words of the initialisation. *)
Lemma far_history_tracks (h0 : BinaryDelayEstimator) frames :
  allocated h0 ->
  binary_far_history
    (process_all (WebRtc_InitBinaryDelayEstimator h0) frames)
  = take (Z.to_nat (history_size h0))
      (rev (map fst frames) ++ replicate (Z.to_nat (history_size h0)) 0).
Proof.
  intros Ha. pose proof (alloc_history_size _ Ha) as Hhs.
  induction frames as [|[far near] frames IH] using rev_ind.
  - cbn [process_all fold_left map rev app]. rewrite init_fields by exact Ha.
    cbn [binary_far_history].
    rewrite take_ge by (rewrite length_replicate; lia). reflexivity.
  - rewrite process_all_snoc.
    set (h := process_all (WebRtc_InitBinaryDelayEstimator h0) frames) in *.
    destruct (process_far_history h far near) as (-> & _).
    assert (Hs : history_size h = history_size h0).
    { subst h. destruct (process_all_history_size
                  (WebRtc_InitBinaryDelayEstimator h0) frames) as (-> & _).
      rewrite init_fields by exact Ha. reflexivity. }
    rewrite Hs.
    assert (Hlen : length (binary_far_history h)
                   = Z.to_nat (history_size h0)).
    { rewrite IH, length_take, length_app, length_replicate. lia. }
    rewrite shift_insert_cons by (exact Hlen || lia).
    rewrite IH, take_take, Nat.min_l by lia.
    rewrite map_app, rev_app_distr. cbn [map rev app fst].
    assert (Hpos : (0 < Z.to_nat (history_size h0))%nat) by lia.
    destruct (Z.to_nat (history_size h0)) as [|m]; [lia|].
    replace (S m - 1)%nat with m by lia. reflexivity.
Qed.

Lemma shift_insert_map (f : Z -> Z) (a : list Z) size x :
  1 <= size < 2 ^ 31 -> length a = Z.to_nat size ->
  shift_insert (map f a) size (f x) = map f (shift_insert a size x).
Proof.
  intros Hsize Hlen.
  rewrite !shift_insert_cons by (rewrite ?length_map; assumption).
  cbn [map]. rewrite fmap_take. reflexivity.
Qed.

Lemma far_bit_counts_tracks (h0 : BinaryDelayEstimator) frames :
  allocated h0 ->
  let h := process_all (WebRtc_InitBinaryDelayEstimator h0) frames in
  far_bit_counts h = map BitCount (binary_far_history h).
Proof.
  intros Ha. pose proof (alloc_history_size _ Ha) as Hhs.
  induction frames as [|[far near] frames IH] using rev_ind.
  - cbn [process_all fold_left]. rewrite init_fields by exact Ha.
    cbn [far_bit_counts binary_far_history].
    induction (Z.to_nat (history_size h0)) as [|n IHn]; [reflexivity|].
    cbn [replicate map]. rewrite <- IHn. reflexivity.
  - cbv zeta in *. rewrite process_all_snoc.
    set (h := process_all (WebRtc_InitBinaryDelayEstimator h0) frames) in *.
    destruct (process_far_history h far near) as (-> & ->).
    assert (Hs : history_size h = history_size h0).
    { subst h. destruct (process_all_history_size
                  (WebRtc_InitBinaryDelayEstimator h0) frames) as (-> & _).
      rewrite init_fields by exact Ha. reflexivity. }
    pose proof (process_all_allocated _ frames
                  (inv_allocated _ (init_inv _ Ha))) as Hall.
    fold h in Hall. destruct Hall as [_ _ _ _ _ Lfar _].
    rewrite IH, shift_insert_map by (assumption || lia). reflexivity.
Qed.

(** X5.  Initialisation restarts the estimator: on an estimator with its
    buffers allocated, [WebRtc_InitBinaryDelayEstimator] after any sequence
    of calls gives the state it gives on the fresh estimator, so nothing of
    the earlier frames survives it; calling it twice is calling it once. *)
Theorem init_restarts (handle : BinaryDelayEstimator)
    (frames : list (Z * Z)) :
  allocated handle ->
  WebRtc_InitBinaryDelayEstimator (process_all handle frames)
  = WebRtc_InitBinaryDelayEstimator handle
  /\ WebRtc_InitBinaryDelayEstimator
       (process_all (WebRtc_InitBinaryDelayEstimator handle) frames)
     = WebRtc_InitBinaryDelayEstimator handle
  /\ WebRtc_InitBinaryDelayEstimator (WebRtc_InitBinaryDelayEstimator handle)
     = WebRtc_InitBinaryDelayEstimator handle.
Proof.
  intros Ha.
  assert (Hsame : forall h1 h2, allocated h1 -> allocated h2 ->
            history_size h1 = history_size h2 ->
            near_history_size h1 = near_history_size h2 ->
            WebRtc_InitBinaryDelayEstimator h1
            = WebRtc_InitBinaryDelayEstimator h2).
  { intros h1 h2 A1 A2 E1 E2.
    rewrite (init_fields h1), (init_fields h2) by assumption.
    rewrite E1, E2. reflexivity. }
  pose proof (inv_allocated _ (init_inv _ Ha)) as Hai.
  assert (Hsizes : history_size (WebRtc_InitBinaryDelayEstimator handle)
                   = history_size handle
                   /\ near_history_size (WebRtc_InitBinaryDelayEstimator handle)
                      = near_history_size handle)
    by (rewrite init_fields by exact Ha; split; reflexivity).
  destruct Hsizes as (S1 & S2).
  split; [|split].
  - apply Hsame; [apply process_all_allocated; exact Ha|exact Ha| |];
      apply process_all_history_size.
  - destruct (process_all_history_size
                (WebRtc_InitBinaryDelayEstimator handle) frames) as (P1 & P2).
    apply Hsame; [apply process_all_allocated; exact Hai|exact Ha| |];
      congruence.
  - apply Hsame; assumption.
Qed.

Lemma init_restarts_witness :
  allocated example_created /\
  WebRtc_InitBinaryDelayEstimator (process_all example_created example_frames)
  = WebRtc_InitBinaryDelayEstimator example_created
  /\ WebRtc_InitBinaryDelayEstimator
       (process_all (WebRtc_InitBinaryDelayEstimator example_created)
          example_frames)
     = WebRtc_InitBinaryDelayEstimator example_created
  /\ WebRtc_InitBinaryDelayEstimator
       (WebRtc_InitBinaryDelayEstimator example_created)
     = WebRtc_InitBinaryDelayEstimator example_created.
Proof.
  assert (H1 : allocated example_created)
    by (constructor; first [reflexivity | unfold is_s32; cbn; lia]).
  split; [exact H1|]. exact (init_restarts example_created example_frames H1).
Defined.

(** X6.  A call never resizes anything: on an estimator with its buffers
    allocated, after any sequence of calls on any spectra the two sizes are
    unchanged, the four far-end buffers still hold [history_size] elements
    and the near-end history [near_history_size]. *)
Theorem buffers_keep_length (handle : BinaryDelayEstimator)
    (frames : list (Z * Z)) :
  allocated handle ->
  let h := process_all handle frames in
  history_size h = history_size handle
  /\ near_history_size h = near_history_size handle
  /\ length (mean_bit_counts h) = Z.to_nat (history_size handle)
  /\ length (far_bit_counts h) = Z.to_nat (history_size handle)
  /\ length (bit_counts h) = Z.to_nat (history_size handle)
  /\ length (binary_far_history h) = Z.to_nat (history_size handle)
  /\ length (binary_near_history h) = Z.to_nat (near_history_size handle).
Proof.
  intros Ha h.
  destruct (process_all_history_size handle frames) as (E1 & E2).
  fold h in E1, E2.
  pose proof (process_all_allocated handle frames Ha) as Hall. fold h in Hall.
  destruct Hall as [_ _ L1 L2 L3 L4 L5]. rewrite E1 in L1, L2, L3, L4.
  rewrite E2 in L5. repeat split; assumption.
Qed.

Lemma buffers_keep_length_witness :
  let h := process_all example_created example_frames in
  allocated example_created /\
  history_size h = history_size example_created
  /\ near_history_size h = near_history_size example_created
  /\ length (mean_bit_counts h) = Z.to_nat (history_size example_created)
  /\ length (far_bit_counts h) = Z.to_nat (history_size example_created)
  /\ length (bit_counts h) = Z.to_nat (history_size example_created)
  /\ length (binary_far_history h) = Z.to_nat (history_size example_created)
  /\ length (binary_near_history h)
     = Z.to_nat (near_history_size example_created).
Proof.
  assert (H1 : allocated example_created)
    by (constructor; first [reflexivity | unfold is_s32; cbn; lia]).
  cbv zeta. split; [exact H1|].
  exact (buffers_keep_length example_created example_frames H1).
Defined.

(** X7.  The far-end history is a sliding window: after initialisation and
    any sequence of calls, [binary_far_history] holds the far-end words of
    the last [history_size] calls, newest first, with the zero words of the
    initialisation behind them while fewer calls were made; and
    [far_bit_counts[i]] is [BitCount] of [binary_far_history[i]] at every
    index. *)
Theorem far_history_window (handle : BinaryDelayEstimator)
    (frames : list (Z * Z)) :
  allocated handle ->
  let h := process_all (WebRtc_InitBinaryDelayEstimator handle) frames in
  let n := Z.to_nat (history_size handle) in
  binary_far_history h = take n (rev (map fst frames) ++ replicate n 0)
  /\ far_bit_counts h = map BitCount (binary_far_history h)
  /\ (forall i, (i < n)%nat ->
        read (binary_far_history h) i = read (rev (map fst frames)) i
        /\ read (far_bit_counts h) i
           = BitCount (read (binary_far_history h) i)).
Proof.
  intros Ha h n.
  pose proof (far_history_tracks handle frames Ha) as Hfar.
  pose proof (far_bit_counts_tracks handle frames Ha) as Hfbc.
  fold h in Hfar. fold n in Hfar. cbv zeta in Hfbc. fold h in Hfbc.
  split; [exact Hfar|]. split; [exact Hfbc|].
  intros i Hi. split.
  - rewrite Hfar, read_take, read_app_zeros by exact Hi. reflexivity.
  - rewrite Hfbc. unfold read. rewrite !nth_lookup, list_lookup_fmap.
    destruct (binary_far_history h !! i) as [x|] eqn:E; [reflexivity|].
    exfalso. apply lookup_ge_None in E.
    rewrite Hfar, length_take, length_app, length_replicate in E. lia.
Qed.

Lemma far_history_window_witness :
  let h := process_all (WebRtc_InitBinaryDelayEstimator example_created)
             example_frames in
  let n := Z.to_nat (history_size example_created) in
  allocated example_created /\
  binary_far_history h
  = take n (rev (map fst example_frames) ++ replicate n 0)
  /\ far_bit_counts h = map BitCount (binary_far_history h)
  /\ (forall i, (i < n)%nat ->
        read (binary_far_history h) i = read (rev (map fst example_frames)) i
        /\ read (far_bit_counts h) i
           = BitCount (read (binary_far_history h) i)).
Proof.
  assert (H1 : allocated example_created)
    by (constructor; first [reflexivity | unfold is_s32; cbn; lia]).
  cbv zeta. split; [exact H1|].
  exact (far_history_window example_created example_frames H1).
Defined.

(** * Further properties of the calls *)

Lemma compared_word_earlier (h0 : BinaryDelayEstimator) (L : nat) frames near :
  allocated h0 -> near_history_size h0 = Z.of_nat L + 1 ->
  compared_word (process_all (WebRtc_InitBinaryDelayEstimator h0) frames) near
  = read (near :: rev (map snd frames)) L.
Proof.
  intros Ha Hnhs.
  pose proof (alloc_near_history_size _ Ha) as Hint.
  unfold is_s32 in Hint. rewrite Hnhs in Hint.
  set (h := process_all (WebRtc_InitBinaryDelayEstimator h0) frames).
  assert (Hn : near_history_size h = Z.of_nat L + 1).
  { subst h. destruct (process_all_history_size
                (WebRtc_InitBinaryDelayEstimator h0) frames) as (_ & ->).
    rewrite init_fields by exact Ha. exact Hnhs. }
  rewrite compared_word_unfold, Hn.
  destruct (1 <? Z.of_nat L + 1) eqn:E;
    [apply Z.ltb_lt in E|apply Z.ltb_ge in E].
  - pose proof (near_history_tracks h0 L frames Ha Hnhs ltac:(lia)) as Htr.
    fold h in Htr.
    assert (Hlen : length (binary_near_history h) = Z.to_nat (Z.of_nat L + 1)).
    { rewrite Htr, length_take, length_app, length_replicate. lia. }
    rewrite shift_insert_cons by (exact Hlen || lia).
    unfold s32_sub. rewrite wrap_s32_id by (unfold is_s32; lia).
    replace (Z.to_nat (Z.of_nat L + 1) - 1)%nat with L by lia.
    replace (Z.to_nat (Z.of_nat L + 1 - 1)) with L by lia.
    destruct L as [|L']; [lia|].
    rewrite !read_cons_succ, read_take by lia.
    rewrite Htr, read_take by lia. apply read_app_zeros.
  - replace L with 0%nat by lia. reflexivity.
Qed.

(** X8.  What a call compares: on an initialised estimator with
    [near_history_size = L + 1], after any sequence of calls on 32-bit
    spectra, a further call leaves in [bit_counts[i]], for every delay [i]
    below [history_size], the number of bits in which the near-end word
    passed [L] calls earlier differs from the far-end word passed [i] calls
    earlier (words from before the first call count as zero). *)
Theorem hamming_profile (handle : BinaryDelayEstimator) (L : nat)
    (frames : list (Z * Z)) (far near : Z) (i : nat) :
  allocated handle -> near_history_size handle = Z.of_nat L + 1 ->
  Forall frame_ok frames -> is_u32 far -> is_u32 near ->
  Z.of_nat i < history_size handle ->
  let h := process_all (WebRtc_InitBinaryDelayEstimator handle) frames in
  let h' := fst (WebRtc_ProcessBinarySpectrum h far near) in
  read (bit_counts h') i
  = popcount32 (Z.lxor (read (near :: rev (map snd frames)) L)
                       (read (far :: rev (map fst frames)) i))
  /\ 0 <= read (bit_counts h') i <= 32.
Proof.
  intros Ha Hnhs Hframes Hf Hn Hi h h'.
  pose proof (process_all_inv _ frames (init_inv _ Ha) Hframes) as Hinv.
  fold h in Hinv.
  assert (Hs : history_size h = history_size handle).
  { subst h. destruct (process_all_history_size
                (WebRtc_InitBinaryDelayEstimator handle) frames) as (-> & _).
    rewrite init_fields by exact Ha. reflexivity. }
  pose proof (alloc_history_size _ Ha) as Hhs.
  pose proof (compared_word_earlier handle L frames near Ha Hnhs) as Hcmp.
  fold h in Hcmp.
  pose proof (compared_word_u32 h near (inv_allocated _ Hinv)
                (inv_near_history _ Hinv) Hn) as Hcu.
  pose proof (far_history_tracks handle (frames ++ [(far, near)]) Ha) as Hfar.
  rewrite process_all_snoc in Hfar. fold h in Hfar. fold h' in Hfar.
  rewrite map_app, rev_app_distr in Hfar. cbn [map rev app fst] in Hfar.
  pose proof (process_inv h far near Hinv Hf Hn) as Hinv'. fold h' in Hinv'.
  assert (Hbc : bit_counts h'
                = BitCountComparison (compared_word h near)
                    (binary_far_history h') (history_size h) (bit_counts h)).
  { subst h'. rewrite process_unfold.
    destruct (decision_fields (smoothed h far near)
                (find_candidates (smoothed h far near)))
      as (_ & _ & -> & -> & _).
    destruct (smoothed_fields h far near)
      as (_ & _ & _ & _ & _ & _ & _ & _ & E9 & _).
    exact E9. }
  destruct (BitCountComparison_read (compared_word h near)
              (binary_far_history h') (history_size h) (bit_counts h))
    as (_ & Hdone & _).
  cbv zeta in Hdone. rewrite <- Hbc in Hdone.
  destruct (inv_allocated _ Hinv) as [_ _ _ _ Lb _ _].
  rewrite Hdone by lia.
  assert (Hrd : read (binary_far_history h') i
                = read (far :: rev (map fst frames)) i).
  { rewrite Hfar, read_take by lia.
    change (far :: rev (map fst frames) ++ _)
      with ((far :: rev (map fst frames))
            ++ replicate (Z.to_nat (history_size handle)) 0).
    apply read_app_zeros. }
  assert (Hfu : is_u32 (read (binary_far_history h') i)).
  { apply (proj1 (Forall_read is_u32 _) (inv_far_history _ Hinv')).
    destruct (inv_allocated _ Hinv') as [_ _ _ _ _ Lfar _].
    rewrite Lfar.
    destruct (process_all_history_size
                (WebRtc_InitBinaryDelayEstimator handle)
                (frames ++ [(far, near)])) as (Hs' & _).
    rewrite process_all_snoc in Hs'. fold h in Hs'. fold h' in Hs'.
    rewrite Hs', init_fields by exact Ha. cbn [history_size]. lia. }
  rewrite Hcmp, Hrd in *.
  apply BitCount_popcount, lxor_u32; assumption.
Qed.

Lemma hamming_profile_witness :
  let h := process_all (WebRtc_InitBinaryDelayEstimator example_created)
             example_frames in
  let h' := fst (WebRtc_ProcessBinarySpectrum h 4080 255) in
  allocated example_created
  /\ near_history_size example_created = Z.of_nat 1 + 1
  /\ Forall frame_ok example_frames /\ is_u32 4080 /\ is_u32 255
  /\ Z.of_nat 2 < history_size example_created
  /\ read (bit_counts h') 2
     = popcount32 (Z.lxor (read (255 :: rev (map snd example_frames)) 1)
                          (read (4080 :: rev (map fst example_frames)) 2))
  /\ 0 <= read (bit_counts h') 2 <= 32.
Proof.
  assert (H1 : allocated example_created)
    by (constructor; first [reflexivity | unfold is_s32; cbn; lia]).
  assert (H2 : near_history_size example_created = Z.of_nat 1 + 1)
    by reflexivity.
  assert (H3 : Forall frame_ok example_frames)
    by (repeat constructor; unfold is_u32; cbn; lia).
  assert (H4 : is_u32 4080) by (unfold is_u32; lia).
  assert (H5 : is_u32 255) by (unfold is_u32; lia).
  assert (H6 : Z.of_nat 2 < history_size example_created) by (cbn; lia).
  cbv zeta. split; [exact H1|]. split; [exact H2|]. split; [exact H3|].
  split; [exact H4|]. split; [exact H5|]. split; [exact H6|].
  exact (hamming_profile example_created 1 example_frames 4080 255 2
           H1 H2 H3 H4 H5 H6).
Defined.

(** * Further properties of the decision *)

Lemma fold_max_replicate n (x : Z) :
  (1 <= n)%nat -> 0 <= x -> fold_right Z.max 0 (replicate n x) = x.
Proof.
  intros Hn Hx. induction n as [|n IH]; [lia|].
  cbn [replicate fold_right]. destruct n as [|n']; [cbn; lia|].
  rewrite IH by lia. lia.
Qed.

Lemma shift_insert_zeros n size :
  1 <= size < 2 ^ 31 -> n = Z.to_nat size ->
  shift_insert (replicate n 0) size 0 = replicate n 0.
Proof.
  intros Hsize ->.
  rewrite shift_insert_cons by (rewrite ?length_replicate; (reflexivity || lia)).
  rewrite take_replicate, Nat.min_l by lia.
  replace (Z.to_nat size) with (S (Z.to_nat size - 1)) at 2 by lia.
  reflexivity.
Qed.

Lemma silent_call (h : BinaryDelayEstimator) near :
  undisturbed h ->
  undisturbed (fst (WebRtc_ProcessBinarySpectrum h 0 near)).
Proof.
  intros [Ha Hfbc Hmean Hmp Hld].
  pose proof (process_allocated h 0 near Ha) as Ha'.
  pose proof (alloc_history_size _ Ha) as Hhs.
  rewrite process_unfold in *.
  set (h2 := smoothed h 0 near) in *.
  destruct (smoothed_fields h 0 near)
    as (E1 & _ & E3 & _ & E5 & _ & E7 & _).
  fold h2 in E1, E3, E5, E7.
  assert (Hfbc2 : far_bit_counts h2 = replicate (Z.to_nat (history_size h)) 0).
  { rewrite E7, Hfbc. change (BitCount 0) with 0.
    apply shift_insert_zeros; [lia|reflexivity]. }
  destruct (smoothed_mean_read h 0 near) as (Hlen & _ & Hskip & _).
  fold h2 in Hlen, Hskip.
  assert (Hmean2 : mean_bit_counts h2
                   = replicate (Z.to_nat (history_size h)) 10240).
  { rewrite <- Hmean. apply read_ext; [exact Hlen|].
    intros i Hi. apply Hskip. rewrite Hfbc2.
    destruct (Nat.lt_ge_cases i (Z.to_nat (history_size h))) as [H|H].
    - rewrite read_replicate by exact H. lia.
    - rewrite read_beyond by (rewrite length_replicate; exact H). lia. }
  destruct (find_candidates_scanned h2) as (_ & Hworst & Hle & Hfound & _).
  set (c := find_candidates h2) in *.
  rewrite E1, Hmean2 in *.
  rewrite Z2Nat.id, entries_allocated in Hworst
    by (rewrite ?length_replicate; lia).
  rewrite fold_max_replicate in Hworst by lia.
  assert (Hbest : value_best_candidate c = 10240).
  { pose proof (Hle 0%nat ltac:(lia)) as H0.
    rewrite read_replicate in H0 by lia.
    destruct (Hfound ltac:(lia)) as (k & _ & Hk & Hv & _).
    rewrite read_replicate in Hv by exact Hk. congruence. }
  destruct (decision_fields h2 c) as (D1 & D2 & _ & _ & _ & D6 & _).
  cbv zeta in D1, D2, D6.
  assert (Hscalars :
    minimum_probability (update_last_delay (update_minimum_probability h2 c) c)
    = minimum_probability h2
    /\ last_delay (update_last_delay (update_minimum_probability h2 c) c)
       = last_delay h2).
  { unfold update_last_delay, update_minimum_probability. cbv zeta.
    rewrite Hbest, Hworst.
    change (s32_sub 10240 10240) with 0.
    change (s32_add 10240 kProbabilityOffset) with 11264.
    change (kProbabilityMinSpread <? 0) with false.
    rewrite andb_false_r.
    change (11264 <? 10240) with false. cbn. split; reflexivity. }
  destruct Hscalars as (S1 & S2).
  constructor; rewrite ?D6, ?E1; try assumption.
  - rewrite D2. exact Hfbc2.
  - rewrite D1. exact Hmean2.
  - rewrite S1, E3. exact Hmp.
  - rewrite S2, E5. exact Hld.
Qed.

(** X9.  A silent far end gives no estimate: on an initialised estimator,
    after any sequence of calls whose far-end word is zero (with any
    near-end words), every [mean_bit_counts] entry is still 10240,
    [minimum_probability] is still 16384 and [WebRtc_binary_last_delay]
    still returns -2. *)
Theorem silent_far_end_no_estimate (handle : BinaryDelayEstimator)
    (frames : list (Z * Z)) :
  allocated handle -> Forall (fun fr => fst fr = 0) frames ->
  let h := process_all (WebRtc_InitBinaryDelayEstimator handle) frames in
  mean_bit_counts h = replicate (Z.to_nat (history_size handle)) 10240
  /\ minimum_probability h = 16384
  /\ WebRtc_binary_last_delay h = -2.
Proof.
  intros Ha Hframes h.
  assert (Hs : history_size h = history_size handle).
  { subst h. destruct (process_all_history_size
                (WebRtc_InitBinaryDelayEstimator handle) frames) as (-> & _).
    rewrite init_fields by exact Ha. reflexivity. }
  assert (Hund : undisturbed h).
  { subst h. clear Hs.
    assert (H0 : undisturbed (WebRtc_InitBinaryDelayEstimator handle)).
    { constructor; [exact (inv_allocated _ (init_inv _ Ha))| | | |];
        rewrite init_fields by exact Ha; reflexivity. }
    revert H0. generalize (WebRtc_InitBinaryDelayEstimator handle).
    induction Hframes as [|[far near] frames Hfar _ IH]; intros h0 H0;
      [exact H0|].
    cbn [fst] in Hfar. subst far. rewrite process_all_cons.
    apply IH, silent_call, H0. }
  destruct Hund as [_ _ Hmean Hmp Hld]. rewrite Hs in Hmean.
  split; [exact Hmean|]. split; [exact Hmp|exact Hld].
Qed.

Lemma silent_far_end_no_estimate_witness :
  let frames := [(0, 4042322160); (0, 305419896); (0, 0); (0, 4294967295)] in
  let h := process_all (WebRtc_InitBinaryDelayEstimator example_created)
             frames in
  allocated example_created /\ Forall (fun fr => fst fr = 0) frames
  /\ mean_bit_counts h
     = replicate (Z.to_nat (history_size example_created)) 10240
  /\ minimum_probability h = 16384
  /\ WebRtc_binary_last_delay h = -2.
Proof.
  assert (H1 : allocated example_created)
    by (constructor; first [reflexivity | unfold is_s32; cbn; lia]).
  assert (H2 : Forall (fun fr : Z * Z => fst fr = 0)
                 [(0, 4042322160); (0, 305419896); (0, 0); (0, 4294967295)])
    by (repeat constructor).
  cbv zeta. split; [exact H1|]. split; [exact H2|].
  exact (silent_far_end_no_estimate example_created _ H1 H2).
Defined.

Lemma process_keeps_estimate (h : BinaryDelayEstimator) far near :
  estimator_inv h -> is_u32 far -> is_u32 near ->
  0 <= last_delay h ->
  0 <= last_delay (fst (WebRtc_ProcessBinarySpectrum h far near)).
Proof.
  intros Hinv Hf Hn Hld. rewrite process_unfold.
  destruct (candidates_in_range h far near Hinv Hf Hn) as (C1 & _).
  cbv zeta in C1.
  destruct (smoothed_fields h far near) as (_ & _ & _ & _ & E5 & _).
  cbv zeta in E5.
  destruct (decision_last_delay (smoothed h far near)
              (find_candidates (smoothed h far near))) as [L|L];
    rewrite L; lia.
Qed.

(** X10.  An estimate, once made, is never lost: on an initialised
    estimator fed 32-bit spectra, when [WebRtc_binary_last_delay] has left
    the value -2 after some calls, it returns an index in
    [[0, history_size)] after every further sequence of calls. *)
Theorem estimate_never_lost (handle : BinaryDelayEstimator)
    (before after : list (Z * Z)) :
  allocated handle -> Forall frame_ok before -> Forall frame_ok after ->
  let h1 := process_all (WebRtc_InitBinaryDelayEstimator handle) before in
  WebRtc_binary_last_delay h1 <> -2 ->
  0 <= WebRtc_binary_last_delay (process_all h1 after) < history_size handle.
Proof.
  intros Ha Hb Hafter h1 Hset. unfold WebRtc_binary_last_delay in *.
  pose proof (process_all_inv _ before (init_inv _ Ha) Hb) as Hinv1.
  fold h1 in Hinv1.
  assert (Hs1 : history_size h1 = history_size handle).
  { subst h1. destruct (process_all_history_size
                (WebRtc_InitBinaryDelayEstimator handle) before) as (-> & _).
    rewrite init_fields by exact Ha. reflexivity. }
  assert (H1 : 0 <= last_delay h1)
    by (destruct (inv_last_delay _ Hinv1); lia).
  clear Hset.
  assert (Hgen : forall h, estimator_inv h -> 0 <= last_delay h ->
            0 <= last_delay (process_all h after)).
  { induction Hafter as [|[far near] frames [Hf Hn] _ IH]; intros h Hinv Hld;
      [exact Hld|].
    cbn [fst snd] in Hf, Hn. rewrite process_all_cons.
    apply IH; [apply process_inv; assumption|].
    apply process_keeps_estimate; assumption. }
  pose proof (Hgen h1 Hinv1 H1) as Hlow.
  pose proof (process_all_inv h1 after Hinv1 Hafter) as Hinv2.
  destruct (process_all_history_size h1 after) as (Hs2 & _).
  destruct (inv_last_delay _ Hinv2) as [E|E]; [lia|].
  rewrite Hs2, Hs1 in E. exact E.
Qed.

Lemma estimate_never_lost_witness :
  let far := example_words 400 12345 in
  let before := combine far (0 :: 0 :: far) in
  let handle := mkEstimator (replicate 6 0) (replicate 6 0) (replicate 6 0)
                  (replicate 6 0) (replicate 2 0) 0 0 0 6 2 in
  let h1 := process_all (WebRtc_InitBinaryDelayEstimator handle) before in
  allocated handle /\ Forall frame_ok before
  /\ Forall frame_ok example_frames
  /\ WebRtc_binary_last_delay h1 <> -2
  /\ 0 <= WebRtc_binary_last_delay (process_all h1 example_frames)
     < history_size handle.
Proof.
  set (far := example_words 400 12345).
  set (before := combine far (0 :: 0 :: far)).
  set (handle := mkEstimator (replicate 6 0) (replicate 6 0) (replicate 6 0)
                   (replicate 6 0) (replicate 2 0) 0 0 0 6 2).
  assert (H1 : allocated handle)
    by (constructor; first [reflexivity | unfold is_s32; cbn; lia]).
  assert (H2 : Forall frame_ok before).
  { apply Forall_forall. intros fr Hin.
    assert (Hb : forallb (fun fr : Z * Z =>
                   (0 <=? fst fr) && (fst fr <? 2 ^ 32)
                   && (0 <=? snd fr) && (snd fr <? 2 ^ 32)) before = true)
      by (vm_compute; reflexivity).
    rewrite forallb_forall in Hb. specialize (Hb fr Hin).
    unfold frame_ok, is_u32. rewrite !andb_true_iff in Hb. lia. }
  assert (H3 : Forall frame_ok example_frames)
    by (repeat constructor; unfold is_u32; cbn; lia).
  assert (H4 : WebRtc_binary_last_delay
                 (process_all (WebRtc_InitBinaryDelayEstimator handle) before)
               <> -2)
    by (vm_compute; discriminate).
  cbv zeta. split; [exact H1|]. split; [exact H2|]. split; [exact H3|].
  split; [exact H4|].
  exact (estimate_never_lost handle before example_frames H1 H2 H3 H4).
Defined.

Lemma update_last_delay_changed (h : BinaryDelayEstimator) (c : Candidates) :
  last_delay (update_last_delay h c) <> last_delay h ->
  last_delay (update_last_delay h c) = candidate_delay c
  /\ (s32_add (value_best_candidate c) kProbabilityOffset
      <? value_worst_candidate c) = true.
Proof.
  unfold update_last_delay. cbv zeta.
  destruct (s32_add _ _ <? _); [|intros H; exfalso; apply H; reflexivity].
  split_ifs; cbn; intros H; first [split; reflexivity | exfalso; apply H; reflexivity].
Qed.

(** X11.  The reported delay only moves to the best candidate of a clear
    valley: in a call on a state satisfying the invariant, if [last_delay]
    changes, its new value is [candidate_delay], the index of a smallest
    entry of the smoothed [mean_bit_counts], and
    [value_worst_candidate > value_best_candidate + 1024] held in that
    call. *)
Theorem last_delay_moves_to_minimum (handle : BinaryDelayEstimator)
    (far near : Z) :
  estimator_inv handle -> is_u32 far -> is_u32 near ->
  let handle' := fst (WebRtc_ProcessBinarySpectrum handle far near) in
  let c := find_candidates (smoothed handle far near) in
  last_delay handle' <> last_delay handle ->
  last_delay handle' = candidate_delay c
  /\ value_worst_candidate c > value_best_candidate c + 1024
  /\ 0 <= last_delay handle' < history_size handle
  /\ forall j, Z.of_nat j < history_size handle ->
       read (mean_bit_counts handle') (Z.to_nat (last_delay handle'))
       <= read (mean_bit_counts handle') j.
Proof.
  intros Hinv Hf Hn h' c Hchg. subst h'. rewrite process_unfold in *.
  fold c in Hchg |- *.
  destruct (candidates_in_range handle far near Hinv Hf Hn)
    as (C1 & C2 & C3 & C4).
  fold c in C1, C2, C3, C4.
  destruct (smoothed_fields handle far near) as (E1 & _ & _ & _ & E5 & _).
  set (h2 := smoothed handle far near) in *.
  set (h1 := update_minimum_probability h2 c) in *.
  assert (E5' : last_delay h1 = last_delay handle).
  { rewrite <- E5. subst h1. unfold update_minimum_probability.
    split_ifs; reflexivity. }
  rewrite <- E5' in Hchg.
  destruct (update_last_delay_changed h1 c Hchg) as (Hnew & Hgap).
  apply Z.ltb_lt in Hgap. unfold s32_add, kProbabilityOffset in Hgap.
  rewrite wrap_s32_id in Hgap by (unfold is_s32; lia).
  destruct (decision_fields h2 c) as (D1 & _). cbv zeta in D1. fold h1 in D1.
  rewrite Hnew, D1. split; [reflexivity|]. split; [lia|]. split; [exact C1|].
  intros j Hj. rewrite C4.
  destruct (find_candidates_scanned h2) as (_ & _ & Hle & _).
  fold c in Hle. apply Hle. rewrite E1. lia.
Qed.

Lemma last_delay_moves_to_minimum_witness :
  let handle :=
    mkEstimator [9898; 9842; 9957; 7651; 9947; 9851]
      [13; 12; 17; 20; 18; 21] [13; 20; 21; 0; 18; 17]
      [3108545609; 3776287762; 840380863; 3018391520; 3558340421; 1806110718]
      [840380863; 3018391520] 16384 20000 (-2) 6 2 in
  let handle' :=
    fst (WebRtc_ProcessBinarySpectrum handle 3108545609 3776287762) in
  let c := find_candidates (smoothed handle 3108545609 3776287762) in
  estimator_inv handle /\ is_u32 3108545609 /\ is_u32 3776287762
  /\ last_delay handle' <> last_delay handle
  /\ last_delay handle' = candidate_delay c
  /\ value_worst_candidate c > value_best_candidate c + 1024
  /\ 0 <= last_delay handle' < history_size handle
  /\ forall j, Z.of_nat j < history_size handle ->
       read (mean_bit_counts handle') (Z.to_nat (last_delay handle'))
       <= read (mean_bit_counts handle') j.
Proof.
  set (handle :=
    mkEstimator [9898; 9842; 9957; 7651; 9947; 9851]
      [13; 12; 17; 20; 18; 21] [13; 20; 21; 0; 18; 17]
      [3108545609; 3776287762; 840380863; 3018391520; 3558340421; 1806110718]
      [840380863; 3018391520] 16384 20000 (-2) 6 2).
  assert (H1 : estimator_inv handle) by example_inv.
  assert (H2 : is_u32 3108545609) by (unfold is_u32; lia).
  assert (H3 : is_u32 3776287762) by (unfold is_u32; lia).
  assert (H4 : last_delay
                 (fst (WebRtc_ProcessBinarySpectrum handle 3108545609
                         3776287762))
               <> last_delay handle)
    by (vm_compute; discriminate).
  cbv zeta. split; [exact H1|]. split; [exact H2|]. split; [exact H3|].
  split; [exact H4|].
  exact (last_delay_moves_to_minimum handle 3108545609 3776287762
           H1 H2 H3 H4).
Defined.

Lemma process_last_delay_probability_lower (h : BinaryDelayEstimator)
    far near :
  estimator_inv h -> is_u32 far -> is_u32 near ->
  0 <= last_delay_probability h < 2 ^ 31 - 1 ->
  0 <= last_delay_probability (fst (WebRtc_ProcessBinarySpectrum h far near)).
Proof.
  intros Hinv Hf Hn Hldp. rewrite process_unfold.
  destruct (candidates_in_range h far near Hinv Hf Hn) as (_ & C2 & _).
  destruct (smoothed_fields h far near) as (_ & _ & _ & E4 & _).
  cbv zeta in C2, E4.
  set (c := find_candidates (smoothed h far near)) in *.
  set (h1 := update_minimum_probability (smoothed h far near) c).
  assert (E4' : last_delay_probability h1 = last_delay_probability h).
  { rewrite <- E4. subst h1. unfold update_minimum_probability.
    split_ifs; reflexivity. }
  unfold update_last_delay, s32_add. cbv zeta. rewrite E4'.
  rewrite (wrap_s32_id (last_delay_probability h + 1))
    by (unfold is_s32; lia).
  split_ifs; cbn; lia.
Qed.

(** X12.  The confidence counter cannot overflow early: on a created and
    initialised estimator fed fewer than [2 ^ 31 - 16385] frames of 32-bit
    spectra, [last_delay_probability] is at least 0 and at most 16384 plus
    the number of frames, hence below the largest [int32_t], so the
    increment of the next call is exact. *)
Theorem probability_counter_bounds (malloc_ok : nat -> bool)
    (max_delay lookahead : Z) (handle : BinaryDelayEstimator)
    (frames : list (Z * Z)) :
  WebRtc_CreateBinaryDelayEstimator malloc_ok max_delay lookahead
  = Some handle ->
  Forall frame_ok frames ->
  Z.of_nat (length frames) < 2 ^ 31 - 16384 - 1 ->
  let h := process_all (WebRtc_InitBinaryDelayEstimator handle) frames in
  0 <= last_delay_probability h <= 16384 + Z.of_nat (length frames)
  /\ last_delay_probability h < 2 ^ 31 - 1.
Proof.
  intros Hcreate Hframes Hlen h.
  pose proof (create_allocated _ _ _ _ Hcreate) as Ha.
  assert (Hlow : 0 <= last_delay_probability h).
  { subst h. revert Hframes Hlen.
    induction frames as [|[far near] frames IH] using rev_ind;
      intros Hframes Hlen.
    - cbn [process_all fold_left]. rewrite init_fields by exact Ha. cbn. lia.
    - apply Forall_app in Hframes. destruct Hframes as (Hpre & Hlast).
      apply Forall_inv in Hlast. destruct Hlast as (Hf & Hn).
      cbn [fst snd] in Hf, Hn.
      rewrite length_app in Hlen. cbn [length] in Hlen.
      specialize (IH Hpre ltac:(lia)).
      destruct (reachable_inv _ _ _ _ frames Hcreate Hpre) as (Hinv & _).
      pose proof (reachable_probability_bound _ _ _ _ frames Hcreate Hpre)
        as Hup.
      rewrite process_all_snoc.
      apply process_last_delay_probability_lower; try assumption. lia. }
  pose proof (reachable_probability_bound _ _ _ _ frames Hcreate Hframes)
    as Hup.
  fold h in Hup. lia.
Qed.

Lemma probability_counter_bounds_witness :
  let h := process_all (WebRtc_InitBinaryDelayEstimator example_created)
             example_frames in
  WebRtc_CreateBinaryDelayEstimator malloc_succeeds 2 1 = Some example_created
  /\ Forall frame_ok example_frames
  /\ Z.of_nat (length example_frames) < 2 ^ 31 - 16384 - 1
  /\ 0 <= last_delay_probability h
     <= 16384 + Z.of_nat (length example_frames)
  /\ last_delay_probability h < 2 ^ 31 - 1.
Proof.
  assert (H1 : WebRtc_CreateBinaryDelayEstimator malloc_succeeds 2 1
               = Some example_created) by reflexivity.
  assert (H2 : Forall frame_ok example_frames)
    by (repeat constructor; unfold is_u32; cbn; lia).
  assert (H3 : Z.of_nat (length example_frames) < 2 ^ 31 - 16384 - 1)
    by (cbn; lia).
  cbv zeta. split; [exact H1|]. split; [exact H2|]. split; [exact H3|].
  exact (probability_counter_bounds malloc_succeeds 2 1 example_created
           example_frames H1 H2 H3).
Defined.

(** * Construction under failing allocations *)

(** X13.  No partly built estimator is ever returned: if any one of the six
    allocations of [WebRtc_CreateBinaryDelayEstimator] fails (the struct or
    one of the five buffers), the result is [NULL], whatever the
    arguments. *)
Theorem create_fails_without_memory (malloc_ok : nat -> bool)
    (max_delay lookahead : Z) (k : nat) :
  (k < 6)%nat -> malloc_ok k = false ->
  WebRtc_CreateBinaryDelayEstimator malloc_ok max_delay lookahead = None.
Proof.
  intros Hk Hfail. unfold WebRtc_CreateBinaryDelayEstimator. cbv zeta.
  destruct ((0 <=? max_delay) && (0 <=? lookahead)
            && (1 <? s32_add max_delay lookahead)); [|reflexivity].
  cbn [andb].
  destruct k as [|[|[|[|[|[|k]]]]]]; try lia; rewrite Hfail;
    try reflexivity;
    destruct (malloc_ok 0%nat); try reflexivity; cbn [negb orb andb];
    repeat match goal with
           | |- context [negb (malloc_ok ?n)] => destruct (malloc_ok n)
           end; reflexivity.
Qed.

Lemma create_fails_without_memory_witness :
  (3 < 6)%nat /\ (fun k : nat => negb (Nat.eqb k 3)) 3%nat = false
  /\ WebRtc_CreateBinaryDelayEstimator (fun k => negb (Nat.eqb k 3)) 2 1
     = None.
Proof.
  assert (H1 : (3 < 6)%nat) by lia.
  assert (H2 : (fun k : nat => negb (Nat.eqb k 3)) 3%nat = false)
    by reflexivity.
  split; [exact H1|]. split; [exact H2|].
  exact (create_fails_without_memory (fun k => negb (Nat.eqb k 3)) 2 1 3
           H1 H2).
Defined.

(** * The core-count query *)

Lemma detect_cached (macros : Macros) (os : SystemAnswer) (c : Z) :
  c <> 0 -> DetectNumberOfCores macros os c = (c, c).
Proof.
  intros Hc. unfold DetectNumberOfCores.
  destruct (c =? 0) eqn:E; [apply Z.eqb_eq in E; contradiction|reflexivity].
Qed.

Lemma detect_all_cached (macros : Macros) (answers : list SystemAnswer)
    (c : Z) :
  c <> 0 ->
  detect_all macros answers c = (c, replicate (length answers) c).
Proof.
  intros Hc. induction answers as [|os rest IH]; [reflexivity|].
  cbn [detect_all length replicate]. rewrite detect_cached by exact Hc.
  rewrite IH. reflexivity.
Qed.

(** X14.  The core count is detected once: when a call of
    [DetectNumberOfCores] returns a non-zero count, the static holds that
    count, and every later call returns the same count whatever the
    operating system reports then. *)
Theorem core_count_is_cached (macros : Macros) (os : SystemAnswer)
    (later : list SystemAnswer) (static : Z) :
  snd (DetectNumberOfCores macros os static) <> 0 ->
  let first := DetectNumberOfCores macros os static in
  fst first = snd first
  /\ detect_all macros later (fst first)
     = (snd first, replicate (length later) (snd first)).
Proof.
  intros Hnz first.
  assert (E : fst first = snd first) by reflexivity.
  split; [exact E|]. rewrite E. apply detect_all_cached. exact Hnz.
Qed.

Lemma core_count_is_cached_witness :
  let macros := mkMacros false true false false false in
  let os := mkSystemAnswer 4 0 in
  let later := [mkSystemAnswer 8 0; mkSystemAnswer 0 (-1)] in
  snd (DetectNumberOfCores macros os 0) <> 0 /\
  let first := DetectNumberOfCores macros os 0 in
  fst first = snd first
  /\ detect_all macros later (fst first)
     = (snd first, replicate (length later) (snd first)).
Proof.
  assert (H1 : snd (DetectNumberOfCores (mkMacros false true false false false)
                      (mkSystemAnswer 4 0) 0) <> 0)
    by (vm_compute; discriminate).
  cbv zeta. split; [exact H1|].
  exact (core_count_is_cached (mkMacros false true false false false)
           (mkSystemAnswer 4 0)
           [mkSystemAnswer 8 0; mkSystemAnswer 0 (-1)] 0 H1).
Defined.

(** X15.  Without a probe the count is 1: when the static is still 0 and
    no platform branch is compiled in (neither Windows, nor Linux other than
    Android, nor Mac; Android is such a build), the first call returns 1
    whatever the system would report, and so does every later call. *)
Theorem core_count_falls_back_to_one (macros : Macros) (os : SystemAnswer)
    (later : list SystemAnswer) :
  _WIN32 macros = false ->
  WEBRTC_LINUX macros && negb (WEBRTC_ANDROID macros) = false ->
  WEBRTC_MAC macros || WEBRTC_MAC_INTEL macros = false ->
  DetectNumberOfCores macros os 0 = (1, 1)
  /\ detect_all macros (os :: later) 0
     = (1, replicate (S (length later)) 1).
Proof.
  intros Hwin Hlinux Hmac.
  assert (E : DetectNumberOfCores macros os 0 = (1, 1)).
  { unfold DetectNumberOfCores. cbn [Z.eqb]. rewrite Hwin, Hlinux, Hmac.
    reflexivity. }
  split; [exact E|].
  cbn [detect_all]. rewrite E, detect_all_cached by lia. reflexivity.
Qed.

Lemma core_count_falls_back_to_one_witness :
  let macros := mkMacros false true true false false in
  let os := mkSystemAnswer 8 0 in
  let later := [mkSystemAnswer 16 0] in
  _WIN32 macros = false /\
  WEBRTC_LINUX macros && negb (WEBRTC_ANDROID macros) = false /\
  WEBRTC_MAC macros || WEBRTC_MAC_INTEL macros = false /\
  DetectNumberOfCores macros os 0 = (1, 1)
  /\ detect_all macros (os :: later) 0
     = (1, replicate (S (length later)) 1).
Proof.
  set (macros := mkMacros false true true false false).
  set (os := mkSystemAnswer 8 0).
  assert (H1 : _WIN32 macros = false) by reflexivity.
  assert (H2 : WEBRTC_LINUX macros && negb (WEBRTC_ANDROID macros) = false)
    by reflexivity.
  assert (H3 : WEBRTC_MAC macros || WEBRTC_MAC_INTEL macros = false)
    by reflexivity.
  cbv zeta. split; [exact H1|]. split; [exact H2|]. split; [exact H3|].
  exact (core_count_falls_back_to_one macros os [mkSystemAnswer 16 0]
           H1 H2 H3).
Defined.

(** X16.  Zero doubles as "not detected yet": when the static is 0 and the
    probe of a compiled-in Windows or Linux branch reports a count that is
    zero as a [WebRtc_UWord32], the call returns 0 and remembers nothing, so
    the next call asks the system again and returns what it reports then. *)
Theorem core_count_zero_not_cached (macros : Macros)
    (os next : SystemAnswer) :
  _WIN32 macros = true
  \/ WEBRTC_LINUX macros && negb (WEBRTC_ANDROID macros) = true ->
  wrap_u32 (reported_cores os) = 0 ->
  DetectNumberOfCores macros os 0 = (0, 0)
  /\ detect_all macros [os; next] 0
     = (wrap_u32 (reported_cores next), [0; wrap_u32 (reported_cores next)]).
Proof.
  intros Hbranch Hzero.
  assert (E : forall a, DetectNumberOfCores macros a 0
                        = (wrap_u32 (reported_cores a),
                           wrap_u32 (reported_cores a))).
  { intros a. unfold DetectNumberOfCores. cbn [Z.eqb].
    destruct Hbranch as [-> | Hl]; [reflexivity|].
    destruct (_WIN32 macros); [reflexivity|]. rewrite Hl. reflexivity. }
  split; [rewrite E, Hzero; reflexivity|].
  cbn [detect_all]. rewrite (E os), Hzero, (E next). reflexivity.
Qed.

Lemma core_count_zero_not_cached_witness :
  let macros := mkMacros true false false false false in
  let os := mkSystemAnswer 0 0 in
  let next := mkSystemAnswer 4 0 in
  (_WIN32 macros = true
   \/ WEBRTC_LINUX macros && negb (WEBRTC_ANDROID macros) = true) /\
  wrap_u32 (reported_cores os) = 0 /\
  DetectNumberOfCores macros os 0 = (0, 0)
  /\ detect_all macros [os; next] 0
     = (wrap_u32 (reported_cores next), [0; wrap_u32 (reported_cores next)]).
Proof.
  set (macros := mkMacros true false false false false).
  set (os := mkSystemAnswer 0 0).
  assert (H1 : _WIN32 macros = true
               \/ WEBRTC_LINUX macros && negb (WEBRTC_ANDROID macros) = true)
    by (left; reflexivity).
  assert (H2 : wrap_u32 (reported_cores os) = 0) by reflexivity.
  cbv zeta. split; [exact H1|]. split; [exact H2|].
  exact (core_count_zero_not_cached macros os (mkSystemAnswer 4 0) H1 H2).
Defined.

(** * The adaptive floor and the warm-up *)

Lemma update_last_delay_minimum_probability (h : BinaryDelayEstimator)
    (c : Candidates) :
  minimum_probability (update_last_delay h c) = minimum_probability h.
Proof. unfold update_last_delay. cbv zeta. split_ifs; reflexivity. Qed.

(** X17.  The floor follows wide valleys only: in a call on a state
    satisfying the invariant, [minimum_probability] changes only if
    [value_worst_candidate - value_best_candidate] exceeds 2816, and then it
    drops to [value_best_candidate + 1024], or to 8704 when that is
    smaller; with a spread of at most 2816 it keeps its value. *)
Theorem floor_lowered_on_wide_valley (handle : BinaryDelayEstimator)
    (far near : Z) :
  estimator_inv handle -> is_u32 far -> is_u32 near ->
  let handle' := fst (WebRtc_ProcessBinarySpectrum handle far near) in
  let c := find_candidates (smoothed handle far near) in
  let best := value_best_candidate c in
  let worst := value_worst_candidate c in
  (minimum_probability handle' <> minimum_probability handle ->
   worst - best > 2816
   /\ minimum_probability handle' = Z.max (best + 1024) 8704
   /\ minimum_probability handle' < minimum_probability handle)
  /\ (worst - best <= 2816 ->
      minimum_probability handle' = minimum_probability handle).
Proof.
  intros Hinv Hf Hn h' c best worst. subst h' best worst.
  rewrite process_unfold. fold c.
  rewrite update_last_delay_minimum_probability.
  destruct (candidates_in_range handle far near Hinv Hf Hn)
    as (_ & C2 & C3 & _).
  fold c in C2, C3.
  destruct (smoothed_fields handle far near) as (_ & _ & E3 & _).
  set (h2 := smoothed handle far near) in *.
  unfold update_minimum_probability, s32_sub, s32_add,
    kProbabilityLowerLimit, kProbabilityMinSpread, kProbabilityOffset.
  rewrite !wrap_s32_id by (unfold is_s32; lia). cbv zeta.
  rewrite E3.
  case_ltb; cbn [andb]; case_ltb; cbn [minimum_probability
    set_minimum_probability]; rewrite ?E3; split; intros; lia.
Qed.

Lemma floor_lowered_on_wide_valley_witness :
  let handle :=
    mkEstimator [9898; 9842; 9957; 6651; 9947; 9851]
      [13; 12; 17; 20; 18; 21] [13; 20; 21; 0; 18; 17]
      [3108545609; 3776287762; 840380863; 3018391520; 3558340421; 1806110718]
      [840380863; 3018391520] 16384 20000 (-2) 6 2 in
  let handle' :=
    fst (WebRtc_ProcessBinarySpectrum handle 3108545609 3776287762) in
  let c := find_candidates (smoothed handle 3108545609 3776287762) in
  let best := value_best_candidate c in
  let worst := value_worst_candidate c in
  estimator_inv handle /\ is_u32 3108545609 /\ is_u32 3776287762
  /\ (minimum_probability handle' <> minimum_probability handle ->
      worst - best > 2816
      /\ minimum_probability handle' = Z.max (best + 1024) 8704
      /\ minimum_probability handle' < minimum_probability handle)
  /\ (worst - best <= 2816 ->
      minimum_probability handle' = minimum_probability handle).
Proof.
  set (handle :=
    mkEstimator [9898; 9842; 9957; 6651; 9947; 9851]
      [13; 12; 17; 20; 18; 21] [13; 20; 21; 0; 18; 17]
      [3108545609; 3776287762; 840380863; 3018391520; 3558340421; 1806110718]
      [840380863; 3018391520] 16384 20000 (-2) 6 2).
  assert (H1 : estimator_inv handle) by example_inv.
  assert (H2 : is_u32 3108545609) by (unfold is_u32; lia).
  assert (H3 : is_u32 3776287762) by (unfold is_u32; lia).
  cbv zeta. split; [exact H1|]. split; [exact H2|]. split; [exact H3|].
  exact (floor_lowered_on_wide_valley handle 3108545609 3776287762
           H1 H2 H3).
Defined.

Example floor_lowered_example :
  minimum_probability
    (fst (WebRtc_ProcessBinarySpectrum
            (mkEstimator [9898; 9842; 9957; 6651; 9947; 9851]
               [13; 12; 17; 20; 18; 21] [13; 20; 21; 0; 18; 17]
               [3108545609; 3776287762; 840380863; 3018391520; 3558340421;
                1806110718]
               [840380863; 3018391520] 16384 20000 (-2) 6 2)
            3108545609 3776287762))
  = 8704.
Proof. reflexivity. Qed.

Lemma mean_step_small new_value factor mean_value :
  0 <= mean_value < 16384 -> 0 <= new_value <= 16384 -> 7 <= factor ->
  Z.abs (mean_step new_value factor mean_value) <= 128.
Proof.
  intros Hm Hn Hf. unfold mean_step. cbv zeta.
  assert (Hp : 2 ^ 7 <= 2 ^ factor) by (apply Z.pow_le_mono_r; lia).
  change (2 ^ 7) with 128 in Hp.
  assert (Hdiv : forall d, 0 <= d <= 16384 -> 0 <= d / 2 ^ factor <= 128).
  { intros d Hd. split; [apply Z.div_pos; lia|].
    transitivity (d / 128); [apply Z.div_le_compat_l; lia|].
    Z.div_mod_to_equations; lia. }
  destruct (new_value - mean_value <? 0) eqn:Hneg;
    [apply Z.ltb_lt in Hneg|apply Z.ltb_ge in Hneg].
  - specialize (Hdiv (- (new_value - mean_value)) ltac:(lia)). lia.
  - specialize (Hdiv (new_value - mean_value) ltac:(lia)). lia.
Qed.

(** A call moves no smoothed mean by more than 128 (a quarter in Q9). *)
Lemma smoothed_mean_moves_little (h : BinaryDelayEstimator) far near i :
  estimator_inv h -> is_u32 far -> is_u32 near ->
  Z.abs (read (mean_bit_counts (smoothed h far near)) i
         - read (mean_bit_counts h) i) <= 128.
Proof.
  intros Hinv Hf Hn. set (h2 := smoothed h far near).
  destruct (smoothed_mean_read h far near) as (_ & Hupd & Hskip & Hrest).
  fold h2 in Hupd, Hskip, Hrest.
  destruct (inv_allocated _ Hinv) as [Hhs _ Lm _ _ _ _].
  destruct (Z.lt_ge_cases (Z.of_nat i) (history_size h)) as [Hi|Hi];
    [|rewrite Hrest by exact Hi; lia].
  destruct (smoothed_ranges h far near Hinv Hf Hn) as (_ & _ & R3 & R4 & _).
  pose proof (allocated_smoothed h far near (inv_allocated _ Hinv)) as Ha2.
  destruct (smoothed_fields h far near) as (E1 & _).
  fold h2 in R3, R4, Ha2, E1.
  destruct Ha2 as [_ _ _ Lf2 Lb2 _ _]. rewrite E1 in Lf2, Lb2.
  pose proof (proj1 (Forall_read _ _) R3 i ltac:(lia)) as Hfi.
  pose proof (proj1 (Forall_read _ _) R4 i ltac:(lia)) as Hci.
  pose proof (proj1 (Forall_read _ _) (inv_mean_bit_counts _ Hinv) i
                ltac:(lia)) as Hmi.
  cbv beta in Hfi, Hci, Hmi.
  destruct (Z.eq_dec (read (far_bit_counts h2) i) 0) as [Hz|Hnz];
    [rewrite Hskip by lia; lia|].
  rewrite Hupd by lia.
  assert (Hshl : 0 <= s32_shl (read (bit_counts h2) i) 9 <= 16384).
  { unfold s32_shl. rewrite Z.shiftl_mul_pow2 by lia.
    change (2 ^ 9) with 512.
    rewrite wrap_s32_id by (unfold is_s32; lia). lia. }
  pose proof (smoothing_shifts_range (read (far_bit_counts h2) i) ltac:(lia))
    as Hsh.
  rewrite mean_estimator_fix_step by lia.
  pose proof (mean_step_small (s32_shl (read (bit_counts h2) i) 9)
                (smoothing_shifts (read (far_bit_counts h2) i))
                (read (mean_bit_counts h) i) Hmi Hshl ltac:(lia)).
  lia.
Qed.

Lemma fold_max_le (bound : Z) (l : list Z) :
  0 <= bound -> Forall (fun m => m <= bound) l ->
  fold_right Z.max 0 l <= bound.
Proof.
  intros Hb Hl. induction Hl as [|x l Hx _ IH]; cbn [fold_right]; lia.
Qed.

(** A call whose smoothed means all lie within 512 of 10240 decides
    nothing. *)
Lemma flat_means_no_decision (h : BinaryDelayEstimator) far near :
  estimator_inv h -> is_u32 far -> is_u32 near ->
  (forall i, Z.of_nat i < history_size h ->
     Z.abs (read (mean_bit_counts (smoothed h far near)) i - 10240) <= 512) ->
  last_delay (fst (WebRtc_ProcessBinarySpectrum h far near)) = last_delay h.
Proof.
  intros Hinv Hf Hn Hflat. rewrite process_unfold.
  set (h2 := smoothed h far near) in *. set (c := find_candidates h2).
  destruct (candidates_in_range h far near Hinv Hf Hn) as (C1 & C2 & _ & C4).
  cbv zeta in C1, C2, C4. fold h2 in C1, C2, C4. fold c in C1, C2, C4.
  pose proof (allocated_smoothed h far near (inv_allocated _ Hinv)) as Ha2.
  fold h2 in Ha2. destruct Ha2 as [Hhs2 _ Lm2 _ _ _ _].
  destruct (smoothed_fields h far near) as (E1 & _ & _ & _ & E5 & _).
  fold h2 in E1, E5. rewrite E1 in Lm2, Hhs2.
  destruct (find_candidates_scanned h2) as (_ & Hworst & _).
  fold c in Hworst.
  rewrite Z2Nat.id, entries_allocated in Hworst by (rewrite ?E1; lia).
  assert (Hw : value_worst_candidate c <= 10752).
  { rewrite Hworst. apply fold_max_le; [lia|].
    apply Forall_read. intros i Hi. specialize (Hflat i ltac:(lia)). lia. }
  assert (Hb : 9728 <= value_best_candidate c).
  { rewrite <- C4. specialize (Hflat (Z.to_nat (candidate_delay c)) ltac:(lia)).
    lia. }
  set (h1 := update_minimum_probability h2 c).
  assert (E5' : last_delay h1 = last_delay h).
  { rewrite <- E5. subst h1. unfold update_minimum_probability.
    split_ifs; reflexivity. }
  destruct (Z.eq_dec (last_delay (update_last_delay h1 c)) (last_delay h1))
    as [E|E]; [congruence|].
  destruct (update_last_delay_changed h1 c E) as (_ & Hgap).
  apply Z.ltb_lt in Hgap. unfold s32_add, kProbabilityOffset in Hgap.
  rewrite wrap_s32_id in Hgap by (unfold is_s32; lia). lia.
Qed.

(** X18.  The estimator needs a warm-up: on an initialised estimator fed
    32-bit spectra, the first four calls, whatever their spectra, return
    -2.  Every smoothed mean starts at 10240 and moves by at most 128 per
    call, so the gap between worst and best candidate cannot exceed 1024
    before the fifth call. *)
Theorem first_calls_return_no_estimate (handle : BinaryDelayEstimator)
    (frames : list (Z * Z)) :
  allocated handle -> Forall frame_ok frames -> (length frames <= 4)%nat ->
  WebRtc_binary_last_delay
    (process_all (WebRtc_InitBinaryDelayEstimator handle) frames) = -2.
Proof.
  intros Ha Hframes Hlen. unfold WebRtc_binary_last_delay.
  assert (Hgen :
    let h := process_all (WebRtc_InitBinaryDelayEstimator handle) frames in
    last_delay h = -2
    /\ forall i, Z.of_nat i < history_size handle ->
         Z.abs (read (mean_bit_counts h) i - 10240)
         <= 128 * Z.of_nat (length frames)); [|apply Hgen].
  revert Hframes Hlen.
  induction frames as [|[far near] frames IH] using rev_ind;
    intros Hframes Hlen.
  - cbn [process_all fold_left length]. rewrite init_fields by exact Ha.
    cbn [last_delay mean_bit_counts]. split; [reflexivity|].
    intros i Hi. rewrite read_replicate by lia. lia.
  - apply Forall_app in Hframes. destruct Hframes as (Hpre & Hlast).
    apply Forall_inv in Hlast. destruct Hlast as (Hf & Hn).
    cbn [fst snd] in Hf, Hn.
    rewrite length_app in Hlen |- *. cbn [length] in Hlen |- *.
    destruct (IH Hpre ltac:(lia)) as (Hld & Hnear). cbv zeta.
    rewrite process_all_snoc.
    set (h := process_all (WebRtc_InitBinaryDelayEstimator handle) frames)
      in *.
    pose proof (process_all_inv _ frames (init_inv _ Ha) Hpre) as Hinv.
    fold h in Hinv.
    assert (Hs : history_size h = history_size handle).
    { subst h. destruct (process_all_history_size
                  (WebRtc_InitBinaryDelayEstimator handle) frames)
        as (-> & _).
      rewrite init_fields by exact Ha. reflexivity. }
    assert (Hmoved : forall i, Z.of_nat i < history_size handle ->
              Z.abs (read (mean_bit_counts (smoothed h far near)) i - 10240)
              <= 128 * Z.of_nat (length frames + 1)).
    { intros i Hi. specialize (Hnear i Hi).
      pose proof (smoothed_mean_moves_little h far near i Hinv Hf Hn). lia. }
    split.
    + rewrite <- Hld. apply flat_means_no_decision; try assumption.
      intros i Hi. rewrite Hs in Hi. specialize (Hmoved i Hi). lia.
    + intros i Hi. rewrite process_unfold.
      destruct (decision_fields (smoothed h far near)
                  (find_candidates (smoothed h far near))) as (-> & _).
      apply Hmoved, Hi.
Qed.

Lemma first_calls_return_no_estimate_witness :
  allocated example_created /\ Forall frame_ok example_frames
  /\ (length example_frames <= 4)%nat
  /\ WebRtc_binary_last_delay
       (process_all (WebRtc_InitBinaryDelayEstimator example_created)
          example_frames) = -2.
Proof.
  assert (H1 : allocated example_created)
    by (constructor; first [reflexivity | unfold is_s32; cbn; lia]).
  assert (H2 : Forall frame_ok example_frames)
    by (repeat constructor; unfold is_u32; cbn; lia).
  assert (H3 : (length example_frames <= 4)%nat) by (cbn; lia).
  split; [exact H1|]. split; [exact H2|]. split; [exact H3|].
  exact (first_calls_return_no_estimate example_created example_frames
           H1 H2 H3).
Defined.
